(** * A shallow embedding of the Redis MCP server

    The development follows the JavaScript sources:
    - [utils/redis-connection.js]  permission flags and the connection manager,
    - [utils/data-operations.js]   [DataOperations],
    - [utils/key-operations.js]    [KeyOperations],
    - [utils/redis-info.js]        [RedisInfo]: the reports parsed from the
      store's [INFO] text,
    - [server-final.js]            [FinalMCPServer]: the tool wrappers,
      [handleRequest] and the stdin handler installed by [start].

    Values are JSON values, effects are threaded through a state-and-exception
    monad over a [world] that holds the external store, the connection manager,
    the server object and the audit log. *)

From Stdlib Require Import ZArith String List Ascii Bool Lia.
From Stdlib Require Import DecimalString DecimalPos DecimalN.
From stdpp Require Import base gmap strings.

Open Scope string_scope.
Open Scope list_scope.
Open Scope Z_scope.

(** ** JSON values and the JavaScript operations the sources apply to them *)

Local Unset Elimination Schemes.

Inductive json : Type :=
| JUndefined
| JNull
| JBool (b : bool)
| JNum (n : Z)
| JStr (s : string)
| JArr (items : list json)
| JObj (fields : list (string * json)).

Local Set Elimination Schemes.

Module Js.

(** [o[k]] on an object literal; a missing property reads as [undefined]. *)
Fixpoint assoc (k : string) (l : list (string * json)) : json :=
  match l with
  | [] => JUndefined
  | (k', v) :: tl => if String.eqb k k' then v else assoc k tl
  end.

(** Property read as done by destructuring [const { k } = o].  None of the
    names the sources destructure is a built-in property of strings,
    numbers, booleans or arrays, so those read as [undefined]. *)
Definition prop (o : json) (k : string) : json :=
  match o with
  | JObj l => assoc k l
  | _ => JUndefined
  end.

(** ToBoolean. *)
Definition truthy (v : json) : bool :=
  match v with
  | JUndefined | JNull => false
  | JBool b => b
  | JNum n => negb (n =? 0)
  | JStr s => negb (String.eqb s "")
  | JArr _ | JObj _ => true
  end.

(** [v === undefined || v === null] *)
Definition nullish (v : json) : bool :=
  match v with
  | JUndefined | JNull => true
  | _ => false
  end.

(** [a || b] *)
Definition or (a b : json) : json := if truthy a then a else b.

(** Default of a destructuring pattern [{ k = d }]: applies to [undefined] only. *)
Definition default (v d : json) : json :=
  match v with
  | JUndefined => d
  | _ => v
  end.

(** [v === s] for a string literal [s]. *)
Definition is_str (v : json) (s : string) : bool :=
  match v with
  | JStr s' => String.eqb s' s
  | _ => false
  end.

(** [v === n] for a number literal [n]. *)
Definition is_num (v : json) (n : Z) : bool :=
  match v with
  | JNum n' => n' =? n
  | _ => false
  end.

(** [typeof v === 'number'] *)
Definition is_number (v : json) : bool :=
  match v with
  | JNum _ => true
  | _ => false
  end.

(** [typeof v === 'string'] *)
Definition is_string (v : json) : bool :=
  match v with
  | JStr _ => true
  | _ => false
  end.

(** [Array.isArray(v)] *)
Definition is_array (v : json) : bool :=
  match v with
  | JArr _ => true
  | _ => false
  end.

(** [typeof v === 'object' && v !== null] *)
Definition is_object (v : json) : bool :=
  match v with
  | JArr _ | JObj _ => true
  | _ => false
  end.

(** The guard [!key || typeof key !== 'string'] fails exactly on non-empty
    strings; [key_param] returns the string in that case. *)
Definition key_param (v : json) : option string :=
  match v with
  | JStr s => if String.eqb s "" then None else Some s
  | _ => None
  end.

(** [String.prototype.includes] *)
Fixpoint includes (needle hay : string) : bool :=
  if String.prefix needle hay then true
  else match hay with
       | EmptyString => false
       | String _ tl => includes needle tl
       end.

(** White space removed by [String.prototype.trim]: the WhiteSpace and
    LineTerminator characters of the language.  A string is the sequence of
    the bytes of its UTF-8 text, so that a white-space character takes one
    byte (U+0009..U+000D, U+0020), two (U+00A0) or three (U+1680,
    U+2000..U+200A, U+2028, U+2029, U+202F, U+205F, U+3000, U+FEFF). *)
Definition is_ws (c : ascii) : bool :=
  let n := nat_of_ascii c in
  (Nat.eqb n 9 || Nat.eqb n 10 || Nat.eqb n 11 || Nat.eqb n 12 || Nat.eqb n 13
   || Nat.eqb n 32)%bool.

Definition is_ws2 (a b : ascii) : bool :=
  (Nat.eqb (nat_of_ascii a) 194 && Nat.eqb (nat_of_ascii b) 160)%bool.

Definition is_ws3 (a b c : ascii) : bool :=
  let x := nat_of_ascii a in
  let y := nat_of_ascii b in
  let z := nat_of_ascii c in
  (Nat.eqb x 225 && Nat.eqb y 154 && Nat.eqb z 128
   || Nat.eqb x 226 && Nat.eqb y 128
      && (Nat.leb 128 z && Nat.leb z 138 || Nat.eqb z 168 || Nat.eqb z 169
          || Nat.eqb z 175)
   || Nat.eqb x 226 && Nat.eqb y 129 && Nat.eqb z 159
   || Nat.eqb x 227 && Nat.eqb y 128 && Nat.eqb z 128
   || Nat.eqb x 239 && Nat.eqb y 187 && Nat.eqb z 191)%bool.

Fixpoint trim_start (s : string) : string :=
  match s with
  | EmptyString => EmptyString
  | String a tl =>
      if is_ws a then trim_start tl
      else match tl with
           | EmptyString => s
           | String b tl' =>
               if is_ws2 a b then trim_start tl'
               else match tl' with
                    | EmptyString => s
                    | String c tl'' =>
                        if is_ws3 a b c then trim_start tl'' else s
                    end
           end
  end.

(** The longest suffix of white space is dropped: a byte is kept as long as
    something other than white space follows or starts there. *)
Fixpoint trim_end (s : string) : string :=
  match s with
  | EmptyString => EmptyString
  | String c tl =>
      match trim_start s with
      | EmptyString => EmptyString
      | _ => String c (trim_end tl)
      end
  end.

Definition trim (s : string) : string := trim_end (trim_start s).

(** [s.split('\n')]: always at least one piece. *)
Fixpoint split_lines (s : string) : list string :=
  match s with
  | EmptyString => [EmptyString]
  | String c tl =>
      if Nat.eqb (nat_of_ascii c) 10 then EmptyString :: split_lines tl
      else match split_lines tl with
           | [] => [String c EmptyString]
           | l :: ls => String c l :: ls
           end
  end.

(** Decimal rendering of an array index, for [Object.entries] of an array. *)
Definition index_key (i : nat) : string :=
  NilEmpty.string_of_uint (Nat.to_uint i).

Fixpoint indexed (i : nat) (l : list json) : list (string * json) :=
  match l with
  | [] => []
  | v :: tl => (index_key i, v) :: indexed (S i) tl
  end.

(** [Object.entries(v)] for a value with [is_object v]. *)
Definition entries (v : json) : list (string * json) :=
  match v with
  | JObj l => l
  | JArr l => indexed 0 l
  | _ => []
  end.

(** [arr.slice(offset, offset + limit)] for non-negative bounds. *)
Definition slice {A : Type} (l : list A) (offset limit : Z) : list A :=
  firstn (Z.to_nat limit) (skipn (Z.to_nat offset) l).

End Js.

(** ** The language runtime

    [JSON.parse], [JSON.stringify], string conversion of non-string values and
    numeric conversion of non-primitive values belong to the JavaScript engine,
    key patterns to the store, and the form of two replies to the version of
    the client library; the server is parametric in them. *)

Record runtime : Type := {
  (** [JSON.parse]: the message of the [SyntaxError], or the value. *)
  JSON_parse : string -> string + json;
  (** [JSON.stringify(v)] on a value other than [undefined]. *)
  JSON_stringify : json -> string;
  (** [JSON.stringify(v, null, 2)] on a value other than [undefined]. *)
  JSON_stringify_pretty : json -> string;
  (** [String(v)] for a value that is not a string. *)
  String_of : json -> string;
  (** ToNumber on strings, arrays and objects; [None] is [NaN]. *)
  Number_of : json -> option Z;
  (** Glob matching of the store's [KEYS pattern]. *)
  glob_match : string -> string -> bool;
  (** Members the server object inherits from [Object.prototype]: what a call
      with one argument returns, or the message of the error it throws. *)
  inherited_member : string -> option (string + json);
  (** Whether the client answers [EXPIRE] and [PERSIST] with the number the
      store sends (as the [redis] package does in version 5) or with a
      boolean (as it does in version 4). *)
  integer_replies : bool
}.

(** ** The external store

    The store client is an external collaborator.  Its commands are modelled
    after the Redis commands they name, on a finite map from keys to typed
    values with an optional remaining time-to-live (seconds).  Time does not
    pass in the model. *)

Inductive rval : Type :=
| RString (s : string)
| RList (l : list string)
| RSet (l : list string)
| RZSet (l : list (string * string))
| RHash (l : list (string * string)).

Record entry : Type := { val : rval; expiry : option Z }.

Module Redis.

Definition WRONGTYPE : string :=
  "WRONGTYPE Operation against a key holding the wrong kind of value".

Definition exists_ (k : string) (d : gmap string entry) : Z :=
  match d !! k with
  | Some _ => 1
  | None => 0
  end.

Definition type (k : string) (d : gmap string entry) : string :=
  match d !! k with
  | None => "none"
  | Some e =>
      match val e with
      | RString _ => "string"
      | RList _ => "list"
      | RSet _ => "set"
      | RZSet _ => "zset"
      | RHash _ => "hash"
      end
  end.

Definition ttl (k : string) (d : gmap string entry) : Z :=
  match d !! k with
  | None => -2
  | Some e =>
      match expiry e with
      | None => -1
      | Some t => t
      end
  end.

Definition get (k : string) (d : gmap string entry) : string + json :=
  match d !! k with
  | None => inr JNull
  | Some e =>
      match val e with
      | RString s => inr (JStr s)
      | _ => inl WRONGTYPE
      end
  end.

Definition set (k v : string) (d : gmap string entry) : gmap string entry :=
  <[k := {| val := RString v; expiry := None |}]> d.

Definition setEx (k : string) (t : Z) (v : string) (d : gmap string entry)
  : string + gmap string entry :=
  if 0 <? t then inr (<[k := {| val := RString v; expiry := Some t |}]> d)
  else inl "ERR invalid expire time in 'setex' command".

Definition del (k : string) (d : gmap string entry) : Z * gmap string entry :=
  match d !! k with
  | Some _ => (1, delete k d)
  | None => (0, d)
  end.

(** [EXPIRE k t]: a non-positive [t] deletes the key. *)
Definition expire (k : string) (t : Z) (d : gmap string entry)
  : Z * gmap string entry :=
  match d !! k with
  | None => (0, d)
  | Some e =>
      if 0 <? t then (1, <[k := {| val := val e; expiry := Some t |}]> d)
      else (1, delete k d)
  end.

Definition persist (k : string) (d : gmap string entry) : Z * gmap string entry :=
  match d !! k with
  | None => (0, d)
  | Some e =>
      match expiry e with
      | None => (0, d)
      | Some _ => (1, <[k := {| val := val e; expiry := None |}]> d)
      end
  end.

Definition rename (k k' : string) (d : gmap string entry)
  : string + gmap string entry :=
  match d !! k with
  | None => inl "ERR no such key"
  | Some e => inr (<[k' := e]> (delete k d))
  end.

Definition keys (matches : string -> string -> bool) (pattern : string)
  (d : gmap string entry) : list string :=
  filter (fun k => matches pattern k = true) (map fst (map_to_list d)).

End Redis.

(** ** Configuration read once at start-up *)

(** The five module constants [ALLOW_*] of [redis-connection.js]. *)
Record permissions : Type := {
  ALLOW_INSERT : bool;
  ALLOW_UPDATE : bool;
  ALLOW_DELETE : bool;
  ALLOW_CREATE : bool;
  ALLOW_DROP : bool
}.

(** [getRedisConfig()], the text of [process.env.PORT || '6379'], and
    [getLogConfig()]. *)
Record redisConfig : Type := {
  host : string;
  port : Z;
  password : option string;
  PORT : string;
  logDir : string;
  logFullPath : string
}.

(** ** The world: store, connection manager, server object, audit log *)

(** An entry of [operationLogs]; [id] and [created_at] are clock readings and
    are left out. *)
Record logEntry : Type := {
  log_method : json;
  log_params : string;
  log_result : option string;
  log_error : option string
}.

Record world : Type := {
  (** contents of the external store *)
  db : gmap string entry;
  (** whether the store server answers *)
  reachable : bool;
  (** [connectionManager.client] is not [null] *)
  client : bool;
  (** [connectionManager.isConnected] *)
  isConnected : bool;
  (** [server.initialized] *)
  initialized : bool;
  (** the in-memory ring [operationLogs], most recent first *)
  operationLogs : list logEntry;
  (** lines appended to the log file, oldest first *)
  logFile : list string;
  (** ['data'] handlers registered on stdin by [start] *)
  dataListeners : nat;
  (** intervals registered by [startHealthCheck] *)
  healthTimers : nat;
  (** the delayed [process.exit(0)] armed by [shutdown] *)
  exitTimer : bool;
  (** the objects written to standard output by [console.log(JSON.stringify(_))],
      oldest first *)
  stdout : list json
}.

Definition set_db (d : gmap string entry) (w : world) : world :=
  {| db := d; reachable := reachable w; client := client w;
     isConnected := isConnected w; initialized := initialized w;
     operationLogs := operationLogs w; logFile := logFile w;
     dataListeners := dataListeners w; healthTimers := healthTimers w;
     exitTimer := exitTimer w; stdout := stdout w |}.

Definition set_client (b : bool) (w : world) : world :=
  {| db := db w; reachable := reachable w; client := b;
     isConnected := isConnected w; initialized := initialized w;
     operationLogs := operationLogs w; logFile := logFile w;
     dataListeners := dataListeners w; healthTimers := healthTimers w;
     exitTimer := exitTimer w; stdout := stdout w |}.

Definition set_isConnected (b : bool) (w : world) : world :=
  {| db := db w; reachable := reachable w; client := client w;
     isConnected := b; initialized := initialized w;
     operationLogs := operationLogs w; logFile := logFile w;
     dataListeners := dataListeners w; healthTimers := healthTimers w;
     exitTimer := exitTimer w; stdout := stdout w |}.

Definition set_initialized (b : bool) (w : world) : world :=
  {| db := db w; reachable := reachable w; client := client w;
     isConnected := isConnected w; initialized := b;
     operationLogs := operationLogs w; logFile := logFile w;
     dataListeners := dataListeners w; healthTimers := healthTimers w;
     exitTimer := exitTimer w; stdout := stdout w |}.

Definition set_logs (l : list logEntry) (f : list string) (w : world) : world :=
  {| db := db w; reachable := reachable w; client := client w;
     isConnected := isConnected w; initialized := initialized w;
     operationLogs := l; logFile := f;
     dataListeners := dataListeners w; healthTimers := healthTimers w;
     exitTimer := exitTimer w; stdout := stdout w |}.

Definition set_handlers (listeners timers : nat) (exit : bool) (w : world) : world :=
  {| db := db w; reachable := reachable w; client := client w;
     isConnected := isConnected w; initialized := initialized w;
     operationLogs := operationLogs w; logFile := logFile w;
     dataListeners := listeners; healthTimers := timers;
     exitTimer := exit; stdout := stdout w |}.

Definition set_stdout (out : list json) (w : world) : world :=
  {| db := db w; reachable := reachable w; client := client w;
     isConnected := isConnected w; initialized := initialized w;
     operationLogs := operationLogs w; logFile := logFile w;
     dataListeners := dataListeners w; healthTimers := healthTimers w;
     exitTimer := exitTimer w; stdout := out |}.

(** ** The effect monad: state, exceptions, process exit *)

Inductive outcome (A : Type) : Type :=
| Ok (a : A)               (* normal completion *)
| Throw (message : string) (* a thrown [Error] with this [message] *)
| Exit (code : Z)          (* [process.exit(code)] *)
| Unfinished               (* the unfolding bound of the model was reached *)
| Pending.                 (* an awaited promise never settles *)

Arguments Ok {A} a.
Arguments Throw {A} message.
Arguments Exit {A} code.
Arguments Unfinished {A}.
Arguments Pending {A}.

Definition M (A : Type) : Type := world -> outcome A * world.

Definition ret {A : Type} (a : A) : M A := fun w => (Ok a, w).

Definition bind {A B : Type} (m : M A) (k : A -> M B) : M B :=
  fun w =>
    match m w with
    | (Ok a, w') => k a w'
    | (Throw e, w') => (Throw e, w')
    | (Exit c, w') => (Exit c, w')
    | (Unfinished, w') => (Unfinished, w')
    | (Pending, w') => (Pending, w')
    end.

Definition throw {A : Type} (message : string) : M A := fun w => (Throw message, w).

Definition exit {A : Type} (code : Z) : M A := fun w => (Exit code, w).

(** [try { m } catch (err) { h err.message }] *)
Definition try_catch {A : Type} (m : M A) (h : string -> M A) : M A :=
  fun w =>
    match m w with
    | (Throw e, w') => h e w'
    | r => r
    end.

Definition modify (f : world -> world) : M unit := fun w => (Ok tt, f w).

Definition gets {A : Type} (f : world -> A) : M A := fun w => (Ok (f w), w).

Notation "x <- m ;; k" := (bind m (fun x => k))
  (at level 100, m at next level, right associativity).
Notation "m ;;; k" := (bind m (fun _ => k))
  (at level 100, right associativity).

(** ** Logging (server-final.js) *)

Definition MAX_LOGS : nat := 1000.

Definition or_else (o : option string) (d : string) : string :=
  match o with
  | Some s => s
  | None => d
  end.

(** An error argument is recorded when it is truthy. *)
Definition error_field (error : option string) : option string :=
  match error with
  | Some e => if String.eqb e "" then None else Some e
  | None => None
  end.

(** ** The JSON-RPC envelopes written by [handleRequest] and by the transport *)

Definition response (id result : json) : json :=
  JObj [("jsonrpc", JStr "2.0"); ("id", id); ("result", result)].

Definition error_response (id : json) (code : Z) (message : string) : json :=
  JObj [("jsonrpc", JStr "2.0"); ("id", id);
        ("error", JObj [("code", JNum code); ("message", JStr message)])].

(** ** A sample runtime, sample configurations and sample worlds

    Used to run the model on concrete requests.  [JSON.parse] is tabulated on
    the lines the examples feed to the transport.  [JSON.stringify] is rendered
    without escapes (the sample strings need none) and, in its indented form,
    without the white space. *)

Module Sample.

Definition quote : string := String (ascii_of_nat 34) EmptyString.

(** The text of a ping request with id 1, one line of input. *)
Definition ping_line : string :=
  "{" +:+ quote +:+ "jsonrpc" +:+ quote +:+ ":" +:+ quote +:+ "2.0" +:+ quote
  +:+ "," +:+ quote +:+ "id" +:+ quote +:+ ":1,"
  +:+ quote +:+ "method" +:+ quote +:+ ":" +:+ quote +:+ "ping" +:+ quote +:+ "}".

Definition ping_request : json :=
  JObj [("jsonrpc", JStr "2.0"); ("id", JNum 1); ("method", JStr "ping")].

(** The text of a [notifications/initialized] request that carries the id 7,
    one line of input. *)
Definition initialized_line : string :=
  "{" +:+ quote +:+ "jsonrpc" +:+ quote +:+ ":" +:+ quote +:+ "2.0" +:+ quote
  +:+ "," +:+ quote +:+ "id" +:+ quote +:+ ":7,"
  +:+ quote +:+ "method" +:+ quote +:+ ":"
  +:+ quote +:+ "notifications/initialized" +:+ quote +:+ ","
  +:+ quote +:+ "params" +:+ quote +:+ ":{}}".

Definition initialized_request : json :=
  JObj [("jsonrpc", JStr "2.0"); ("id", JNum 7);
        ("method", JStr "notifications/initialized"); ("params", JObj [])].

(** The white space of the JSON grammar: tab, line feed, carriage return and
    space. *)
Fixpoint json_blank (s : string) : bool :=
  match s with
  | EmptyString => true
  | String c tl =>
      let n := nat_of_ascii c in
      (Nat.eqb n 9 || Nat.eqb n 10 || Nat.eqb n 13 || Nat.eqb n 32)
      && json_blank tl
  end.

Definition parse (line : string) : string + json :=
  if String.eqb line ping_line then inr ping_request
  else if String.eqb line initialized_line then inr initialized_request
  else if String.eqb line "{}" then inr (JObj [])
  else if String.eqb line "[]" then inr (JArr [])
  else if String.eqb line "null" then inr JNull
  else if String.eqb line "42" then inr (JNum 42)
  else if json_blank line then inl "Unexpected end of JSON input"
  else inl "Unexpected token in JSON".

Definition string_of (v : json) : string :=
  match v with
  | JUndefined => "undefined"
  | JNull => "null"
  | JBool true => "true"
  | JBool false => "false"
  | JNum n => NilZero.string_of_int (Z.to_int n)
  | JStr s => s
  | JArr _ => "[array]"
  | JObj _ => "[object Object]"
  end.

(** [JSON.stringify]: properties whose value is [undefined] are dropped,
    and [undefined] inside an array reads [null]. *)
Fixpoint render (v : json) : string :=
  match v with
  | JUndefined | JNull => "null"
  | JBool true => "true"
  | JBool false => "false"
  | JNum n => NilZero.string_of_int (Z.to_int n)
  | JStr s => quote +:+ s +:+ quote
  | JArr items =>
      "["
      +:+ (fix go (l : list json) : string :=
             match l with
             | [] => ""
             | [x] => render x
             | x :: tl => render x +:+ "," +:+ go tl
             end) items
      +:+ "]"
  | JObj fields =>
      "{"
      +:+ (fix go (first : bool) (l : list (string * json)) : string :=
             match l with
             | [] => ""
             | (_, JUndefined) :: tl => go first tl
             | (k, x) :: tl =>
                 (if first then "" else ",")
                 +:+ quote +:+ k +:+ quote +:+ ":" +:+ render x +:+ go false tl
             end) true fields
      +:+ "}"
  end.

Definition glob (pattern key : string) : bool :=
  String.eqb pattern "*" || String.eqb pattern key.

Definition inherited (key : string) : option (string + json) :=
  if String.eqb key "toString" then Some (inr (JStr "[object Object]"))
  else if String.eqb key "toLocaleString" then Some (inr (JStr "[object Object]"))
  else if String.eqb key "hasOwnProperty" then Some (inr (JBool false))
  else if String.eqb key "isPrototypeOf" then Some (inr (JBool false))
  else if String.eqb key "propertyIsEnumerable" then Some (inr (JBool false))
  else if String.eqb key "__proto__" then Some (inl "this[name] is not a function")
  else None.

Definition rt : runtime :=
  {| JSON_parse := parse;
     JSON_stringify := render;
     JSON_stringify_pretty := render;
     String_of := string_of;
     Number_of := fun _ => None;
     glob_match := glob;
     inherited_member := inherited;
     integer_replies := true |}.

(** The same runtime with a client library that answers [EXPIRE] and
    [PERSIST] with a boolean. *)
Definition rt_boolean_replies : runtime :=
  {| JSON_parse := parse;
     JSON_stringify := render;
     JSON_stringify_pretty := render;
     String_of := string_of;
     Number_of := fun _ => None;
     glob_match := glob;
     inherited_member := inherited;
     integer_replies := false |}.

Definition all_allowed : permissions :=
  {| ALLOW_INSERT := true; ALLOW_UPDATE := true; ALLOW_DELETE := true;
     ALLOW_CREATE := true; ALLOW_DROP := true |}.

Definition read_only : permissions :=
  {| ALLOW_INSERT := false; ALLOW_UPDATE := false; ALLOW_DELETE := false;
     ALLOW_CREATE := false; ALLOW_DROP := false |}.

Definition cfg : redisConfig :=
  {| host := "localhost"; port := 6379; password := None; PORT := "6379";
     logDir := "./logs"; logFullPath := "logs/mcp-redis.log" |}.

(** A freshly constructed server in front of a store holding [d]. *)
Definition fresh (d : gmap string entry) (up : bool) : world :=
  {| db := d; reachable := up; client := false; isConnected := false;
     initialized := false; operationLogs := []; logFile := [];
     dataListeners := 1; healthTimers := 1; exitTimer := false; stdout := [] |}.

(** The abstract diagnostics, for the examples. *)
Definition no_info : M json := ret (JObj []).

Definition newline : string := String (ascii_of_nat 10) EmptyString.

(** A store holding the list [a] under the key [k]. *)
Definition one_list : gmap string entry :=
  <["k" := {| val := RList ["a"]; expiry := None |}]> ∅.

(** Arguments that write the empty array as a list under [k]. *)
Definition empty_list_args : json :=
  JObj [("key", JStr "k"); ("type", JStr "list"); ("value", JArr [])].


Definition bad_envelope_notification : json :=
  JObj [("jsonrpc", JStr "1.0"); ("method", JStr "notifications/initialized")].

Definition odd_method : json :=
  JObj [("jsonrpc", JStr "2.0"); ("id", JNum 1);
        ("method", JStr "Server not initialized")].

(** Three lines: an empty object, a line of one space, an empty array. *)
Definition batch_with_blank : string :=
  "{}" +:+ newline +:+ " " +:+ newline +:+ "[]".

(** Three lines: an empty object, a malformed line, a ping. *)
Definition batch_with_malformed : string :=
  "{}" +:+ newline +:+ "{oops" +:+ newline +:+ ping_line.

Definition bad_version (id : json) : json :=
  error_response id (-32600) "Unsupported JSON-RPC version".

(** Arguments that name the key [k] and nothing else. *)
Definition key_k : json := JObj [("key", JStr "k")].

(** Stores holding, under the key [k], a string that expires in a minute, a
    hash with one field, and a sorted set with one member. *)
Definition one_string : gmap string entry :=
  <["k" := {| val := RString "old"; expiry := Some 60 |}]> ∅.

Definition one_hash : gmap string entry :=
  <["k" := {| val := RHash [("f", "1")]; expiry := None |}]> ∅.

Definition one_zset : gmap string entry :=
  <["k" := {| val := RZSet [("m", "1")]; expiry := None |}]> ∅.

End Sample.

Section Server.

Variable RT : runtime.
Variable P : permissions.
Variable CFG : redisConfig.

(** [String(v)], as in a template literal. *)
Definition to_string (v : json) : string :=
  match v with
  | JStr s => s
  | _ => String_of RT v
  end.

(** ToNumber; [None] is [NaN]. *)
Definition to_number (v : json) : option Z :=
  match v with
  | JUndefined => None
  | JNull => Some 0
  | JBool b => Some (if b then 1 else 0)
  | JNum n => Some n
  | _ => Number_of RT v
  end.

(** [v > 0] *)
Definition gt0 (v : json) : bool :=
  match to_number v with
  | Some n => 0 <? n
  | None => false
  end.

(** [ttl && ttl > 0] *)
Definition ttl_given (ttl : json) : bool := Js.truthy ttl && gt0 ttl.

(** [JSON.stringify(v, null, 2)]; [undefined] stays [undefined]. *)
Definition stringify_pretty (v : json) : json :=
  match v with
  | JUndefined => JUndefined
  | _ => JStr (JSON_stringify_pretty RT v)
  end.

(** [logRequest(method, params, result, error)] *)
Definition logRequest (method params result : json) (error : option string)
  : M unit :=
  let logEntry :=
    {| log_method := method;
       log_params := JSON_stringify RT params;
       log_result := if Js.truthy result then Some (JSON_stringify RT result) else None;
       log_error := error_field error |} in
  let logLine :=
    to_string method +:+ " | " +:+ log_params logEntry +:+ " | "
    +:+ or_else (error_field error) "SUCCESS" +:+ " | RESPONSE: "
    +:+ or_else (log_result logEntry) "null" in
  modify (fun w =>
    set_logs (firstn MAX_LOGS (logEntry :: operationLogs w))
             (logFile w ++ [logLine]) w).

(** [logRedisOperation(operation, key, result, error)]: a line of the log
    file only. *)
Definition logRedisOperation (operation : string) (key : json) (result : json)
  (error : option string) : M unit :=
  let logLine :=
    "REDIS: " +:+ operation +:+ " | KEY: " +:+ to_string key +:+ " | "
    +:+ or_else (error_field error) "SUCCESS" in
  modify (fun w => set_logs (operationLogs w) (logFile w ++ [logLine]) w).

(** *** RedisConnectionManager (redis-connection.js) *)

(** Message of the client library when a command is sent over a dead
    socket. *)
Definition SOCKET_CLOSED : string := "Socket closed unexpectedly".

(** [createClient()]: a new client object is assigned to [this.client], its
    handlers are installed and [client.connect()] is awaited.  The client is
    built without a [reconnectStrategy]: when the store does not answer, the
    ['error'] handler clears [isConnected] and the client tries again for
    ever, so [connect()] neither resolves nor rejects and the [catch] of
    [createClient] is never entered. *)
Definition createClient : M unit := fun w =>
  if client w && isConnected w then (Ok tt, w)
  else if reachable w
       then (Ok tt, set_isConnected true (set_client true w))
       else (Pending, set_isConnected false (set_client true w)).

Definition getClient : M unit := fun w =>
  if negb (client w) || negb (isConnected w) then createClient w
  else (Ok tt, w).

(** A command sent through the client: it fails, and the ['error'] handler
    clears [isConnected], when the server does not answer. *)
Definition command {A : Type}
  (f : gmap string entry -> (string + A) * gmap string entry) : M A :=
  fun w =>
    if reachable w
    then match f (db w) with
         | (inr a, d) => (Ok a, set_db d w)
         | (inl e, d) => (Throw e, set_db d w)
         end
    else (Throw SOCKET_CLOSED, set_isConnected false w).

Definition query {A : Type} (f : gmap string entry -> string + A) : M A :=
  command (fun d => (f d, d)).

Definition client_ping : M unit := query (fun _ => inr tt).

(** [connectionManager.testConnection()] *)
Definition testConnection : M bool :=
  try_catch (getClient ;;; client_ping ;;; ret true) (fun _ => ret false).

(** [connectionManager.close()]: [quit] either succeeds or fails on a
    socket that is already down; [isConnected] is false afterwards. *)
Definition close : M unit := fun w =>
  if client w then (Ok tt, set_isConnected false w) else (Ok tt, w).

Definition getConnectionInfo : M json :=
  gets (fun w =>
    JObj [("host", JStr (host CFG)); ("port", JNum (port CFG));
          ("hasPassword", JBool (bool_decide (password CFG <> None)));
          ("isConnected", JBool (isConnected w))]).

Definition getPermissions : json :=
  JObj [("allowInsert", JBool (ALLOW_INSERT P));
        ("allowUpdate", JBool (ALLOW_UPDATE P));
        ("allowDelete", JBool (ALLOW_DELETE P));
        ("allowCreate", JBool (ALLOW_CREATE P));
        ("allowDrop", JBool (ALLOW_DROP P))].

(** *** The client's commands

    The client is the one [createClient] of the [redis] package builds.  It
    passes string arguments to the store and rejects anything else before
    the command is sent; [set] also takes a number, which it sends as its
    decimal text.  It names its commands in camel case ([setEx], [dbSize],
    [lPush], [sAdd], [hSet], [lRange], ...): the lower-case names of more than
    one word that the sources call are not members of it, and calling them
    throws a [TypeError] before anything is sent. *)

Definition INVALID_ARGUMENT : string := "Invalid argument type".
Definition NOT_AN_INTEGER : string := "ERR value is not an integer or out of range".

Definition client_arg (v : json) : string + string :=
  match v with
  | JStr s => inr s
  | _ => inl INVALID_ARGUMENT
  end.

(** The value of [client.set(key, value)]:
    [typeof value === 'number' ? value.toString() : value]. *)
Definition set_arg (v : json) : string + string :=
  match v with
  | JNum _ => inr (to_string v)
  | _ => client_arg v
  end.

Definition seconds_arg (v : json) : string + Z :=
  match v with
  | JNum n => inr n
  | JStr _ =>
      match Number_of RT v with
      | Some n => inr n
      | None => inl NOT_AN_INTEGER
      end
  | _ => inl NOT_AN_INTEGER
  end.

(** The message of the [TypeError] thrown by [client.member(...)] when the
    client has no such member. *)
Definition not_a_function (member : string) : string :=
  "client." +:+ member +:+ " is not a function".

Definition missing_member {A : Type} (member : string) : M A :=
  throw (not_a_function member).

(** The reply of the client to a command that the store answers with 1 or 0
    to say whether something changed. *)
Definition change_reply (n : Z) : json :=
  if integer_replies RT then JNum n else JBool (n =? 1).

Definition client_exists (k : string) : M Z :=
  query (fun d => inr (Redis.exists_ k d)).

Definition client_type (k : string) : M string :=
  query (fun d => inr (Redis.type k d)).

Definition client_ttl (k : string) : M Z :=
  query (fun d => inr (Redis.ttl k d)).

Definition client_get (k : string) : M json := query (Redis.get k).

Definition client_set (k : string) (v : json) : M json :=
  command (fun d =>
    match set_arg v with
    | inl e => (inl e, d)
    | inr s => (inr (JStr "OK"), Redis.set k s d)
    end).

Definition client_setEx (k : string) (ttl v : json) : M json :=
  command (fun d =>
    match seconds_arg ttl, client_arg v with
    | inr t, inr s =>
        match Redis.setEx k t s d with
        | inr d' => (inr (JStr "OK"), d')
        | inl e => (inl e, d)
        end
    | _, inl e => (inl e, d)
    | inl e, _ => (inl e, d)
    end).

Definition client_del (k : string) : M Z :=
  command (fun d => let '(n, d') := Redis.del k d in (inr n, d')).

(** [client.lpush(key, ...vs)] *)
Definition client_lpush (k : string) (vs : list json) : M json :=
  missing_member "lpush".

(** [client.sadd(key, ...vs)] *)
Definition client_sadd (k : string) (vs : list json) : M json :=
  missing_member "sadd".

(** [client.hset(key, flat)] and [client.hset(key, field, value)] *)
Definition client_hset (k : string) (flat : list json) : M json :=
  missing_member "hset".

Definition client_expire (k : string) (ttl : json) : M json :=
  command (fun d =>
    match seconds_arg ttl with
    | inl e => (inl e, d)
    | inr t => let '(n, d') := Redis.expire k t d in (inr (change_reply n), d')
    end).

Definition client_persist (k : string) : M json :=
  command (fun d =>
    let '(n, d') := Redis.persist k d in (inr (change_reply n), d')).

Definition client_rename (k k' : string) : M unit :=
  command (fun d =>
    match Redis.rename k k' d with
    | inr d' => (inr tt, d')
    | inl e => (inl e, d)
    end).

Definition client_keys (pattern : string) : M (list string) :=
  query (fun d => inr (Redis.keys (glob_match RT) pattern d)).

Definition client_strlen (k : string) : M json := missing_member "strlen".
Definition client_llen (k : string) : M json := missing_member "llen".
Definition client_scard (k : string) : M json := missing_member "scard".
Definition client_zcard (k : string) : M json := missing_member "zcard".
Definition client_hlen (k : string) : M json := missing_member "hlen".

(** The reporting convention shared by get, exists, info and list:
    [ttl > 0 ? ttl : (ttl === -1 ? 'persistent' : 'expired')]. *)
Definition ttl_report (ttl : json) : json :=
  if gt0 ttl then ttl
  else match ttl with
       | JNum (-1) => JStr "persistent"
       | _ => JStr "expired"
       end.

(** [entries.flat()] *)
Definition flat_entries (es : list (string * json)) : list json :=
  flat_map (fun e => [JStr (fst e); snd e]) es.

(** The [switch (type)] of the operations. *)
Inductive type_case : Type := TString | TList | TSet | TZSet | THash | TOther.

Definition switch_type (type : json) : type_case :=
  if Js.is_str type "string" then TString
  else if Js.is_str type "list" then TList
  else if Js.is_str type "set" then TSet
  else if Js.is_str type "zset" then TZSet
  else if Js.is_str type "hash" then THash
  else TOther.

Definition client_lrange (k : string) : M json := missing_member "lrange".
Definition client_smembers (k : string) : M json := missing_member "smembers".
Definition client_zrange (k : string) : M json := missing_member "zrange".
Definition client_hgetall (k : string) : M json := missing_member "hgetall".

Fixpoint mapM {A B : Type} (f : A -> M B) (l : list A) : M (list B) :=
  match l with
  | [] => ret []
  | a :: tl => b <- f a ;; bs <- mapM f tl ;; ret (b :: bs)
  end.

Definition items_of (v : json) : list json :=
  match v with
  | JArr l => l
  | _ => []
  end.

(** *** DataOperations (data-operations.js) *)

Definition MISSING_KEY : string := "Missing or invalid key parameter".
Definition MISSING_VALUE : string := "Missing value parameter".

Definition getData (params : json) : M json :=
  let key := Js.prop params "key" in
  match Js.key_param key with
  | None => throw MISSING_KEY
  | Some k =>
      getClient ;;;
      try_catch
        (exists_ <- client_exists k ;;
         if exists_ =? 0
         then ret (JObj [("key", key); ("value", JNull); ("exists", JBool false);
                         ("type", JNull); ("ttl", JNull)])
         else
           (type <- client_type k ;;
            ttl <- client_ttl k ;;
            value <- match switch_type (JStr type) with
                     | TString => client_get k
                     | TList => (client_llen k ;;; client_lrange k)
                     | TSet => client_smembers k
                     | TZSet => client_zrange k
                     | THash => client_hgetall k
                     | TOther => client_get k
                     end ;;
            ret (JObj [("key", key); ("value", value); ("exists", JBool true);
                       ("type", JStr type); ("ttl", ttl_report (JNum ttl))])))
        (fun m => throw ("Failed to get data: " +:+ m))
  end.

Definition setData (params : json) : M json :=
  if negb (ALLOW_INSERT P) then throw "Insert operations are not allowed"
  else
    let key := Js.prop params "key" in
    let value := Js.prop params "value" in
    let ttl := Js.prop params "ttl" in
    let type := Js.default (Js.prop params "type") (JStr "string") in
    match Js.key_param key with
    | None => throw MISSING_KEY
    | Some k =>
        if Js.nullish value then throw MISSING_VALUE
        else
          getClient ;;;
          try_catch
            (result <-
               match switch_type type with
               | TString =>
                   if ttl_given ttl then client_setEx k ttl value
                   else client_set k value
               | TList =>
                   if Js.is_array value
                   then (client_del k ;;;
                         if (0 <? Z.of_nat (length (items_of value)))
                         then client_lpush k (items_of value)
                         else client_lpush k [JStr ""])
                   else client_lpush k [value]
               | TSet =>
                   if Js.is_array value
                   then (client_del k ;;;
                         if (0 <? Z.of_nat (length (items_of value)))
                         then client_sadd k (items_of value)
                         else ret JUndefined)
                   else client_sadd k [value]
               | THash =>
                   if Js.is_object value
                   then (client_del k ;;;
                         if (0 <? Z.of_nat (length (Js.entries value)))
                         then client_hset k (flat_entries (Js.entries value))
                         else ret JUndefined)
                   else throw "Hash value must be an object"
               | _ => throw ("Unsupported data type: " +:+ to_string type)
               end ;;
             (if ttl_given ttl && negb (Js.is_str type "string")
              then (client_expire k ttl ;;; ret tt)
              else ret tt) ;;;
             ret (JObj [("key", key); ("value", value); ("type", type);
                        ("ttl", Js.or ttl JNull); ("result", result)]))
            (fun m => throw ("Failed to set data: " +:+ m))
    end.

Definition updateData (params : json) : M json :=
  if negb (ALLOW_UPDATE P) then throw "Update operations are not allowed"
  else
    let key := Js.prop params "key" in
    let value := Js.prop params "value" in
    let ttl := Js.prop params "ttl" in
    match Js.key_param key with
    | None => throw MISSING_KEY
    | Some k =>
        if Js.nullish value then throw MISSING_VALUE
        else
          getClient ;;;
          try_catch
            (exists_ <- client_exists k ;;
             if exists_ =? 0 then throw ("Key '" +:+ k +:+ "' does not exist")
             else
               (type <- client_type k ;;
                result <-
                  match switch_type (JStr type) with
                  | TString =>
                      if ttl_given ttl then client_setEx k ttl value
                      else client_set k value
                  | TList =>
                      client_del k ;;;
                      if Js.is_array value
                      then (if (0 <? Z.of_nat (length (items_of value)))
                            then client_lpush k (items_of value)
                            else ret JUndefined)
                      else client_lpush k [value]
                  | TSet =>
                      client_del k ;;;
                      if Js.is_array value
                      then (if (0 <? Z.of_nat (length (items_of value)))
                            then client_sadd k (items_of value)
                            else ret JUndefined)
                      else client_sadd k [value]
                  | THash =>
                      client_del k ;;;
                      if Js.is_object value
                      then (if (0 <? Z.of_nat (length (Js.entries value)))
                            then client_hset k (flat_entries (Js.entries value))
                            else ret JUndefined)
                      else throw "Hash value must be an object"
                  | _ => throw ("Cannot update unsupported data type: " +:+ type)
                  end ;;
                (if ttl_given ttl then (client_expire k ttl ;;; ret tt) else ret tt) ;;;
                ret (JObj [("key", key); ("value", value); ("type", JStr type);
                           ("ttl", Js.or ttl JNull); ("result", result)])))
            (fun m => throw ("Failed to update data: " +:+ m))
    end.

Definition deleteData (params : json) : M json :=
  if negb (ALLOW_DELETE P) then throw "Delete operations are not allowed"
  else
    let key := Js.prop params "key" in
    match Js.key_param key with
    | None => throw MISSING_KEY
    | Some k =>
        getClient ;;;
        try_catch
          (exists_ <- client_exists k ;;
           if exists_ =? 0
           then ret (JObj [("key", key); ("deleted", JBool false);
                           ("message", JStr "Key does not exist")])
           else
             (result <- client_del k ;;
              ret (JObj [("key", key); ("deleted", JBool (0 <? result));
                         ("result", JNum result)])))
          (fun m => throw ("Failed to delete data: " +:+ m))
    end.

Definition listKeys (params : json) : M json :=
  let params := Js.or params (JObj []) in
  let pattern := Js.default (Js.prop params "pattern") (JStr "*") in
  let limit := Js.default (Js.prop params "limit") (JNum 100) in
  let offset := Js.default (Js.prop params "offset") (JNum 0) in
  match pattern with
  | JStr pat =>
      match limit with
      | JNum lim =>
          if (lim <? 1) || (10000 <? lim)
          then throw "Limit must be between 1 and 10000"
          else
            match offset with
            | JNum off =>
                if off <? 0 then throw "Offset must be >= 0"
                else
                  getClient ;;;
                  try_catch
                    (keys <- client_keys pat ;;
                     let totalKeys := Z.of_nat (length keys) in
                     keyInfo <- mapM (fun key =>
                                  type <- client_type key ;;
                                  ttl <- client_ttl key ;;
                                  ret (JObj [("key", JStr key); ("type", JStr type);
                                             ("ttl", ttl_report (JNum ttl))]))
                                  (Js.slice keys off lim) ;;
                     ret (JObj [("keys", JArr keyInfo); ("total", JNum totalKeys);
                                ("limit", limit); ("offset", offset);
                                ("hasMore", JBool (off + lim <? totalKeys));
                                ("pattern", pattern)]))
                    (fun m => throw ("Failed to list keys: " +:+ m))
            | _ => throw "Offset must be >= 0"
            end
      | _ => throw "Limit must be between 1 and 10000"
      end
  | _ => throw "Pattern must be a string"
  end.

(** *** KeyOperations (key-operations.js) *)

Definition createKey (params : json) : M json :=
  if negb (ALLOW_CREATE P) then throw "Create key operations are not allowed"
  else
    let key := Js.prop params "key" in
    let value := Js.default (Js.prop params "value") (JStr "") in
    let type := Js.default (Js.prop params "type") (JStr "string") in
    let ttl := Js.prop params "ttl" in
    match Js.key_param key with
    | None => throw MISSING_KEY
    | Some k =>
        getClient ;;;
        try_catch
          (exists_ <- client_exists k ;;
           if negb (exists_ =? 0) then throw ("Key '" +:+ k +:+ "' already exists")
           else
             (result <-
                match switch_type type with
                | TString =>
                    if ttl_given ttl then client_setEx k ttl value
                    else client_set k value
                | TList =>
                    if Js.is_array value then client_lpush k (items_of value)
                    else client_lpush k [value]
                | TSet =>
                    if Js.is_array value then client_sadd k (items_of value)
                    else client_sadd k [value]
                | THash =>
                    if Js.is_object value
                    then (if (0 <? Z.of_nat (length (Js.entries value)))
                          then client_hset k (flat_entries (Js.entries value))
                          else client_hset k [JStr "placeholder"; JStr ""])
                    else throw "Hash value must be an object"
                | _ => throw ("Unsupported key type: " +:+ to_string type)
                end ;;
              (if ttl_given ttl && negb (Js.is_str type "string")
               then (client_expire k ttl ;;; ret tt)
               else ret tt) ;;;
              ret (JObj [("key", key); ("value", value); ("type", type);
                         ("ttl", Js.or ttl JNull); ("created", JBool true);
                         ("result", result)])))
          (fun m => throw ("Failed to create key: " +:+ m))
    end.

Definition dropKey (params : json) : M json :=
  if negb (ALLOW_DROP P) then throw "Drop key operations are not allowed"
  else
    let key := Js.prop params "key" in
    match Js.key_param key with
    | None => throw MISSING_KEY
    | Some k =>
        getClient ;;;
        try_catch
          (exists_ <- client_exists k ;;
           if exists_ =? 0
           then ret (JObj [("key", key); ("dropped", JBool false);
                           ("message", JStr "Key does not exist")])
           else
             (result <- client_del k ;;
              ret (JObj [("key", key); ("dropped", JBool (0 <? result));
                         ("result", JNum result)])))
          (fun m => throw ("Failed to drop key: " +:+ m))
    end.

Definition existsKey (params : json) : M json :=
  let key := Js.prop params "key" in
  match Js.key_param key with
  | None => throw MISSING_KEY
  | Some k =>
      getClient ;;;
      try_catch
        (exists_ <- client_exists k ;;
         type <- (if negb (exists_ =? 0)
                  then (t <- client_type k ;; ret (JStr t))
                  else ret JNull) ;;
         ttl <- (if negb (exists_ =? 0)
                 then (t <- client_ttl k ;; ret (JNum t))
                 else ret JNull) ;;
         ret (JObj [("key", key); ("exists", JBool (exists_ =? 1));
                    ("type", type); ("ttl", ttl_report ttl)]))
        (fun m => throw ("Failed to check key existence: " +:+ m))
  end.

Definition getKeyInfo (params : json) : M json :=
  let key := Js.prop params "key" in
  match Js.key_param key with
  | None => throw MISSING_KEY
  | Some k =>
      getClient ;;;
      try_catch
        (exists_ <- client_exists k ;;
         if exists_ =? 0
         then ret (JObj [("key", key); ("exists", JBool false); ("type", JNull);
                         ("ttl", JNull); ("size", JNull)])
         else
           (type <- client_type k ;;
            ttl <- client_ttl k ;;
            size <- match switch_type (JStr type) with
                    | TString => client_strlen k
                    | TList => client_llen k
                    | TSet => client_scard k
                    | TZSet => client_zcard k
                    | THash => client_hlen k
                    | TOther => ret JNull
                    end ;;
            ret (JObj [("key", key); ("exists", JBool true); ("type", JStr type);
                       ("ttl", ttl_report (JNum ttl)); ("size", size)])))
        (fun m => throw ("Failed to get key info: " +:+ m))
  end.

Definition renameKey (params : json) : M json :=
  if negb (ALLOW_CREATE P) || negb (ALLOW_DROP P)
  then throw "Rename operations require both create and drop permissions"
  else
    let oldKey := Js.prop params "oldKey" in
    let newKey := Js.prop params "newKey" in
    match Js.key_param oldKey with
    | None => throw "Missing or invalid oldKey parameter"
    | Some ok =>
        match Js.key_param newKey with
        | None => throw "Missing or invalid newKey parameter"
        | Some nk =>
            getClient ;;;
            try_catch
              (exists_ <- client_exists ok ;;
               if exists_ =? 0
               then throw ("Source key '" +:+ ok +:+ "' does not exist")
               else
                 (newKeyExists <- client_exists nk ;;
                  if negb (newKeyExists =? 0)
                  then throw ("Target key '" +:+ nk +:+ "' already exists")
                  else
                    (client_rename ok nk ;;;
                     ret (JObj [("oldKey", oldKey); ("newKey", newKey);
                                ("renamed", JBool true)]))))
              (fun m => throw ("Failed to rename key: " +:+ m))
        end
    end.

Definition setTTL (params : json) : M json :=
  let key := Js.prop params "key" in
  let ttl := Js.prop params "ttl" in
  match Js.key_param key with
  | None => throw MISSING_KEY
  | Some k =>
      match ttl with
      | JNum t =>
          if t <=? 0 then throw "TTL must be a positive number"
          else
            getClient ;;;
            try_catch
              (exists_ <- client_exists k ;;
               if exists_ =? 0 then throw ("Key '" +:+ k +:+ "' does not exist")
               else
                 (result <- client_expire k ttl ;;
                  ret (JObj [("key", key); ("ttl", ttl);
                             ("set", JBool (Js.is_num result 1))])))
              (fun m => throw ("Failed to set TTL: " +:+ m))
      | _ => throw "TTL must be a positive number"
      end
  end.

Definition removeTTL (params : json) : M json :=
  let key := Js.prop params "key" in
  match Js.key_param key with
  | None => throw MISSING_KEY
  | Some k =>
      getClient ;;;
      try_catch
        (exists_ <- client_exists k ;;
         if exists_ =? 0 then throw ("Key '" +:+ k +:+ "' does not exist")
         else
           (result <- client_persist k ;;
            ret (JObj [("key", key); ("ttlRemoved", JBool (Js.is_num result 1))])))
        (fun m => throw ("Failed to remove TTL: " +:+ m))
  end.

(** *** FinalMCPServer: the tool methods (server-final.js) *)

(** The [try { result = await op; logRedisOperation(..., result); return result }
    catch (err) { logRedisOperation(..., null, err.message); throw ... }]
    shape shared by the tool methods. *)
Definition logged (operation : string) (key : json) (failure : string)
  (summary : json -> json) (op : M json) : M json :=
  try_catch
    (result <- op ;;
     logRedisOperation operation key (summary result) None ;;;
     ret result)
    (fun m =>
       logRedisOperation operation key JNull (Some m) ;;;
       throw (failure +:+ m)).

Definition get_data (params : json) : M json :=
  let key := Js.prop params "key" in
  match Js.key_param key with
  | None => throw MISSING_KEY
  | Some _ =>
      logged "GET" key "Failed to get data: " id
        (getData (JObj [("key", key)]))
  end.

Definition set_data (params : json) : M json :=
  let key := Js.prop params "key" in
  let value := Js.prop params "value" in
  let ttl := Js.prop params "ttl" in
  let type := Js.default (Js.prop params "type") (JStr "string") in
  match Js.key_param key with
  | None => throw MISSING_KEY
  | Some _ =>
      if Js.nullish value then throw MISSING_VALUE
      else
        logged "SET" key "Failed to set data: " id
          (setData (JObj [("key", key); ("value", value); ("ttl", ttl);
                          ("type", type)]))
  end.

Definition update_data (params : json) : M json :=
  let key := Js.prop params "key" in
  let value := Js.prop params "value" in
  let ttl := Js.prop params "ttl" in
  match Js.key_param key with
  | None => throw MISSING_KEY
  | Some _ =>
      if Js.nullish value then throw MISSING_VALUE
      else
        logged "UPDATE" key "Failed to update data: " id
          (updateData (JObj [("key", key); ("value", value); ("ttl", ttl)]))
  end.

Definition delete_data (params : json) : M json :=
  let key := Js.prop params "key" in
  match Js.key_param key with
  | None => throw MISSING_KEY
  | Some _ =>
      logged "DELETE" key "Failed to delete data: " id
        (deleteData (JObj [("key", key)]))
  end.

Definition list_keys (params : json) : M json :=
  let params := Js.or params (JObj []) in
  let pattern := Js.default (Js.prop params "pattern") (JStr "*") in
  let limit := Js.default (Js.prop params "limit") (JNum 100) in
  let offset := Js.default (Js.prop params "offset") (JNum 0) in
  logged "LIST_KEYS" pattern "Failed to list keys: "
    (fun result =>
       JObj [("count",
              JNum (Z.of_nat (length (items_of (Js.prop result "keys")))))])
    (listKeys (JObj [("pattern", pattern); ("limit", limit); ("offset", offset)])).

Definition create_key (params : json) : M json :=
  let key := Js.prop params "key" in
  let value := Js.default (Js.prop params "value") (JStr "") in
  let type := Js.default (Js.prop params "type") (JStr "string") in
  let ttl := Js.prop params "ttl" in
  match Js.key_param key with
  | None => throw MISSING_KEY
  | Some _ =>
      logged "CREATE_KEY" key "Failed to create key: " id
        (createKey (JObj [("key", key); ("value", value); ("type", type);
                          ("ttl", ttl)]))
  end.

Definition drop_key (params : json) : M json :=
  let key := Js.prop params "key" in
  match Js.key_param key with
  | None => throw MISSING_KEY
  | Some _ =>
      logged "DROP_KEY" key "Failed to drop key: " id
        (dropKey (JObj [("key", key)]))
  end.

Definition exists_key (params : json) : M json :=
  let key := Js.prop params "key" in
  match Js.key_param key with
  | None => throw MISSING_KEY
  | Some _ =>
      logged "EXISTS_KEY" key "Failed to check key existence: " id
        (existsKey (JObj [("key", key)]))
  end.

Definition get_key_info (params : json) : M json :=
  let key := Js.prop params "key" in
  match Js.key_param key with
  | None => throw MISSING_KEY
  | Some _ =>
      logged "GET_KEY_INFO" key "Failed to get key info: " id
        (getKeyInfo (JObj [("key", key)]))
  end.

Definition rename_key (params : json) : M json :=
  let oldKey := Js.prop params "oldKey" in
  let newKey := Js.prop params "newKey" in
  match Js.key_param oldKey with
  | None => throw "Missing or invalid oldKey parameter"
  | Some ok =>
      match Js.key_param newKey with
      | None => throw "Missing or invalid newKey parameter"
      | Some nk =>
          logged "RENAME_KEY" (JStr (ok +:+ " -> " +:+ nk))
            "Failed to rename key: " id
            (renameKey (JObj [("oldKey", oldKey); ("newKey", newKey)]))
      end
  end.

Definition set_ttl (params : json) : M json :=
  let key := Js.prop params "key" in
  let ttl := Js.prop params "ttl" in
  match Js.key_param key with
  | None => throw MISSING_KEY
  | Some _ =>
      match ttl with
      | JNum t =>
          if t <=? 0 then throw "TTL must be a positive number"
          else
            logged "SET_TTL" key "Failed to set TTL: " id
              (setTTL (JObj [("key", key); ("ttl", ttl)]))
      | _ => throw "TTL must be a positive number"
      end
  end.

Definition remove_ttl (params : json) : M json :=
  let key := Js.prop params "key" in
  match Js.key_param key with
  | None => throw MISSING_KEY
  | Some _ =>
      logged "REMOVE_TTL" key "Failed to remove TTL: " id
        (removeTTL (JObj [("key", key)]))
  end.

(** The reports of [RedisInfo] ([getRedisInfo], [getDatabaseStats],
    [getMemoryInfo]) turn the store's diagnostic text into a summary.  The
    server is parametrised by them; they are modelled further below, as
    [redisInfo_getRedisInfo] and its siblings, with the text the store
    answers as a parameter. *)
Variable getRedisInfo : M json.
Variable getDatabaseStats : M json.
Variable getMemoryInfo : M json.

(** [redisInfo.testConnection()]; the time stamp is left out. *)
Definition redisInfo_testConnection : M json :=
  isConnected <- testConnection ;;
  connectionInfo <- getConnectionInfo ;;
  ret (JObj [("connected", JBool isConnected); ("connection", connectionInfo)]).

Definition get_redis_info (params : json) : M json :=
  logged "GET_REDIS_INFO" (JStr "server") "Failed to get Redis info: " id
    getRedisInfo.

Definition get_database_stats (params : json) : M json :=
  logged "GET_DATABASE_STATS" (JStr "database") "Failed to get database stats: " id
    getDatabaseStats.

Definition get_memory_info (params : json) : M json :=
  logged "GET_MEMORY_INFO" (JStr "memory") "Failed to get memory info: " id
    getMemoryInfo.

Definition test_connection (params : json) : M json :=
  logged "TEST_CONNECTION" (JStr "connection") "Failed to test connection: " id
    redisInfo_testConnection.

Definition opt_str (o : option string) : json :=
  match o with
  | Some s => JStr s
  | None => JNull
  end.

Definition logEntry_json (e : logEntry) : json :=
  JObj [("method", log_method e); ("params", JStr (log_params e));
        ("result", opt_str (log_result e)); ("error", opt_str (log_error e))].

Definition get_operation_logs (params : json) : M json :=
  let params := Js.or params (JObj []) in
  let limit := Js.default (Js.prop params "limit") (JNum 50) in
  let offset := Js.default (Js.prop params "offset") (JNum 0) in
  match limit with
  | JNum lim =>
      if (lim <? 1) || (1000 <? lim)
      then throw "limit parameter must be between 1-1000"
      else
        match offset with
        | JNum off =>
            if off <? 0
            then throw "offset parameter must be greater than or equal to 0"
            else
              logs <- gets operationLogs ;;
              ret (JObj [("logs", JArr (map logEntry_json (Js.slice logs off lim)));
                         ("total", JNum (Z.of_nat (length logs)));
                         ("limit", limit); ("offset", offset);
                         ("hasMore", JBool (off + lim <? Z.of_nat (length logs)))])
        | _ => throw "offset parameter must be greater than or equal to 0"
        end
  | _ => throw "limit parameter must be between 1-1000"
  end.

Definition environmentVariables : list (string * json) :=
  [("ALLOW_INSERT", JBool (ALLOW_INSERT P));
   ("ALLOW_UPDATE", JBool (ALLOW_UPDATE P));
   ("ALLOW_DELETE", JBool (ALLOW_DELETE P));
   ("ALLOW_CREATE", JBool (ALLOW_CREATE P));
   ("ALLOW_DROP", JBool (ALLOW_DROP P))].

Definition config_json : json :=
  JObj [("host", JStr (host CFG)); ("port", JNum (port CFG));
        ("hasPassword", JBool (bool_decide (password CFG <> None)))].

Definition check_permissions (params : json) : M json :=
  connectionInfo <- getConnectionInfo ;;
  ret (JObj [("permissions", getPermissions); ("connection", connectionInfo);
             ("config", config_json);
             ("environmentVariables", JObj environmentVariables)]).

Definition closeConnection : M unit :=
  try_catch
    (close ;;;
     logRequest (JStr "connection_closed") (JObj [])
       (JObj [("status", JStr "closed")]) None)
    (fun m =>
       logRequest (JStr "connection_close_error") (JObj [("error", JStr m)])
         JNull (Some m)).

Definition checkConnectionHealth : M bool :=
  try_catch testConnection (fun _ => ret false).

Definition ensureConnection : M unit :=
  try_catch
    (isHealthy <- checkConnectionHealth ;;
     if negb isHealthy then close else ret tt)
    (fun m => throw m).

(** *** The capability manifest of [tools/list] *)

Record tool : Type := {
  name : string;
  description : string;
  inputSchema : json
}.

Definition typed (ty d : string) : json :=
  JObj [("type", JStr ty); ("description", JStr d)].

Definition untyped (d : string) : json := JObj [("description", JStr d)].

Definition schema (properties : list (string * json)) (required : list string) : json :=
  JObj [("type", JStr "object"); ("properties", JObj properties);
        ("required", JArr (map JStr required))].

Definition schema_open (properties : list (string * json)) : json :=
  JObj [("type", JStr "object"); ("properties", JObj properties)].

(** Always available tools (read-only and info). *)
Definition read_tools : list tool :=
  [ {| name := "get_data";
       description := "Get data by key from Redis";
       inputSchema :=
         schema [("key", typed "string" "Redis key to get data from")] ["key"] |};
    {| name := "list_keys";
       description := "List Redis keys with optional pattern matching";
       inputSchema :=
         schema_open
           [("pattern", typed "string" "Key pattern to match (default: *)");
            ("limit", typed "number" "Maximum number of keys to return (default: 100)");
            ("offset", typed "number" "Number of keys to skip (default: 0)")] |};
    {| name := "exists_key";
       description := "Check if a key exists in Redis";
       inputSchema := schema [("key", typed "string" "Redis key to check")] ["key"] |};
    {| name := "get_key_info";
       description := "Get detailed information about a key";
       inputSchema :=
         schema [("key", typed "string" "Redis key to get info for")] ["key"] |};
    {| name := "get_redis_info";
       description := "Get Redis server information";
       inputSchema := schema_open [] |};
    {| name := "get_database_stats";
       description := "Get Redis database statistics";
       inputSchema := schema_open [] |};
    {| name := "get_memory_info";
       description := "Get Redis memory usage information";
       inputSchema := schema_open [] |};
    {| name := "test_connection";
       description := "Test Redis connection";
       inputSchema := schema_open [] |};
    {| name := "get_operation_logs";
       description := "Get operation logs";
       inputSchema :=
         schema_open [("limit", typed "number" "Limit count, default 50");
                      ("offset", typed "number" "Offset, default 0")] |};
    {| name := "check_permissions";
       description :=
         "Check Redis permissions for insert, update, delete, create and drop operations";
       inputSchema := schema_open [] |} ].

Definition set_data_tool : tool :=
  {| name := "set_data";
     description := "Set/insert data for a key in Redis";
     inputSchema :=
       schema [("key", typed "string" "Redis key to set data for");
               ("value", untyped "Value to set for the key");
               ("ttl", typed "number" "Time to live in seconds (optional)");
               ("type", typed "string"
                          "Data type: string, list, set, hash (default: string)")]
              ["key"; "value"] |}.

Definition update_data_tool : tool :=
  {| name := "update_data";
     description := "Update existing data for a key in Redis";
     inputSchema :=
       schema [("key", typed "string" "Redis key to update");
               ("value", untyped "New value for the key");
               ("ttl", typed "number" "Time to live in seconds (optional)")]
              ["key"; "value"] |}.

Definition delete_data_tool : tool :=
  {| name := "delete_data";
     description := "Delete data by key from Redis";
     inputSchema := schema [("key", typed "string" "Redis key to delete")] ["key"] |}.

Definition create_key_tool : tool :=
  {| name := "create_key";
     description := "Create a new key in Redis";
     inputSchema :=
       schema [("key", typed "string" "Redis key to create");
               ("value", untyped "Initial value for the key (default: empty string)");
               ("type", typed "string"
                          "Data type: string, list, set, hash (default: string)");
               ("ttl", typed "number" "Time to live in seconds (optional)")]
              ["key"] |}.

Definition drop_key_tool : tool :=
  {| name := "drop_key";
     description := "Delete a key from Redis";
     inputSchema := schema [("key", typed "string" "Redis key to delete")] ["key"] |}.

Definition rename_key_tool : tool :=
  {| name := "rename_key";
     description := "Rename a key in Redis";
     inputSchema :=
       schema [("oldKey", typed "string" "Current key name");
               ("newKey", typed "string" "New key name")]
              ["oldKey"; "newKey"] |}.

(** TTL operations (always available). *)
Definition ttl_tools : list tool :=
  [ {| name := "set_ttl";
       description := "Set time to live for a key";
       inputSchema :=
         schema [("key", typed "string" "Redis key to set TTL for");
                 ("ttl", typed "number" "Time to live in seconds")]
                ["key"; "ttl"] |};
    {| name := "remove_ttl";
       description := "Remove time to live from a key";
       inputSchema :=
         schema [("key", typed "string" "Redis key to remove TTL from")] ["key"] |} ].

(** [if (flag) tools.push(t)] *)
Definition push_if (flag : bool) (t : tool) : list tool :=
  if flag then [t] else [].

(** The array [tools] built by the [tools/list] branch. *)
Definition tools : list tool :=
  read_tools
  ++ push_if (ALLOW_INSERT P) set_data_tool
  ++ push_if (ALLOW_UPDATE P) update_data_tool
  ++ push_if (ALLOW_DELETE P) delete_data_tool
  ++ push_if (ALLOW_CREATE P) create_key_tool
  ++ push_if (ALLOW_DROP P) drop_key_tool
  ++ push_if (ALLOW_CREATE P && ALLOW_DROP P) rename_key_tool
  ++ ttl_tools.

Definition tool_json (t : tool) : json :=
  JObj [("name", JStr (name t)); ("description", JStr (description t));
        ("inputSchema", inputSchema t)].

Definition server_name : string := "redis-mcp-server".
Definition server_version : string := "1.0.0".

Definition serverInfo : json :=
  JObj [("name", JStr server_name); ("version", JStr server_version)].

Definition tools_list_result : json :=
  JObj [("tools", JArr (map tool_json tools));
        ("environment",
         JObj (environmentVariables
               ++ [("HOST", JStr (host CFG)); ("PORT", JStr (PORT CFG));
                   ("PASSWORD",
                    JStr (if bool_decide (password CFG <> None) then "***" else "none"));
                   ("serverInfo", serverInfo)]))].

(** *** [start] and [startHealthCheck]: registration of handlers *)

Definition startHealthCheck : M unit :=
  modify (fun w => set_handlers (dataListeners w) (S (healthTimers w)) (exitTimer w) w).

Definition start : M unit :=
  modify (fun w => set_handlers (S (dataListeners w)) (healthTimers w) (exitTimer w) w) ;;;
  logRequest (JStr "server_start")
    (JObj [("name", JStr server_name); ("version", JStr server_version);
           ("logDir", JStr (logDir CFG)); ("logFile", JStr (logFullPath CFG))])
    (JObj [("status", JStr "started")]) None ;;;
  startHealthCheck.

(** *** The property read [this[name]] of the [tools/call] branch *)

(** Own properties assigned by the constructor, with their truthiness. *)
Definition own_field (w : world) (key : string) : option bool :=
  if String.eqb key "name" then Some true
  else if String.eqb key "version" then Some true
  else if String.eqb key "initialized" then Some (initialized w)
  else if String.eqb key "connectionManager" then Some true
  else if String.eqb key "dataOperations" then Some true
  else if String.eqb key "keyOperations" then Some true
  else if String.eqb key "redisInfo" then Some true
  else if String.eqb key "healthCheckInterval" then Some false
  else if String.eqb key "restartCount" then Some false
  else if String.eqb key "maxRestarts" then Some true
  else None.

Definition NOT_A_FUNCTION : string := "this[name] is not a function".
Definition CLASS_CONSTRUCTOR : string :=
  "Class constructor FinalMCPServer cannot be invoked without 'new'".

(** The methods of the class; [self] stands for [handleRequest]. *)
Definition class_methods (self : json -> M json)
  : list (string * (json -> M json)) :=
  [ ("constructor", fun _ => throw CLASS_CONSTRUCTOR);
    ("get_data", get_data);
    ("set_data", set_data);
    ("update_data", update_data);
    ("delete_data", delete_data);
    ("list_keys", list_keys);
    ("create_key", create_key);
    ("drop_key", drop_key);
    ("exists_key", exists_key);
    ("get_key_info", get_key_info);
    ("rename_key", rename_key);
    ("set_ttl", set_ttl);
    ("remove_ttl", remove_ttl);
    ("get_redis_info", get_redis_info);
    ("get_database_stats", get_database_stats);
    ("get_memory_info", get_memory_info);
    ("test_connection", test_connection);
    ("get_operation_logs", get_operation_logs);
    ("check_permissions", check_permissions);
    ("closeConnection", fun _ => closeConnection ;;; ret JUndefined);
    ("checkConnectionHealth", fun _ => b <- checkConnectionHealth ;; ret (JBool b));
    ("ensureConnection", fun _ => ensureConnection ;;; ret JUndefined);
    ("handleRequest", self);
    ("start", fun _ => start ;;; ret JUndefined);
    ("startHealthCheck", fun _ => startHealthCheck ;;; ret JUndefined) ].

Fixpoint find_method (key : string) (l : list (string * (json -> M json)))
  : option (json -> M json) :=
  match l with
  | [] => None
  | (k, f) :: tl => if String.eqb key k then Some f else find_method key tl
  end.

(** [this[name]]: [None] when the value is falsy or missing, otherwise what
    calling it does. *)
Definition this_member (self : json -> M json) (w : world) (key : string)
  : option (json -> M json) :=
  match own_field w key with
  | Some true => Some (fun _ => throw NOT_A_FUNCTION)
  | Some false => None
  | None =>
      match find_method key (class_methods self) with
      | Some f => Some f
      | None =>
          match inherited_member RT key with
          | Some (inr v) => Some (fun _ => ret v)
          | Some (inl e) => Some (fun _ => throw e)
          | None => None
          end
      end
  end.

(** *** [handleRequest] *)

(** The code selection of the outer [catch]. *)
Definition errorCode (message : string) : Z :=
  if Js.includes "Server not initialized" message then -32002
  else if Js.includes "Unknown method" message then -32601
  else if Js.includes "Unsupported JSON-RPC version" message then -32600
  else -32603.

Definition listChanged_false : json := JObj [("listChanged", JBool false)].

Definition mirror (capabilities : json) (key : string) : list (string * json) :=
  if Js.truthy (Js.prop capabilities key) then [(key, listChanged_false)] else [].

Definition initialize (params : json) : M json :=
  let protocolVersion := Js.or (Js.prop params "protocolVersion") (JStr "2025-06-18") in
  let capabilities := Js.prop params "capabilities" in
  already <- gets initialized ;;
  (if negb already
   then (modify (set_initialized true) ;;;
         logRequest (JStr "initialize")
           (JObj [("protocolVersion", protocolVersion);
                  ("capabilities", Js.or capabilities (JObj []));
                  ("clientInfo", Js.or (Js.prop params "clientInfo") (JObj []))])
           JNull None)
   else ret tt) ;;;
  ret (JObj [("protocolVersion", protocolVersion);
             ("capabilities",
              JObj ([("tools", listChanged_false)]
                    ++ mirror capabilities "prompts"
                    ++ mirror capabilities "resources"
                    ++ mirror capabilities "logging"
                    ++ mirror capabilities "roots"));
             ("serverInfo", serverInfo)]).

Definition unsupported (text : string) : json :=
  JObj [("contents",
         JArr [JObj [("uri", JStr "error://unsupported"); ("text", JStr text)]])].

Definition tools_call (self : json -> M json) (params : json) : M json :=
  let params := Js.or params (JObj []) in
  let name := Js.prop params "name" in
  let args := Js.prop params "arguments" in
  if negb (Js.truthy name) then throw "Missing tool name"
  else
    member <- gets (fun w => this_member self w (to_string name)) ;;
    match member with
    | None => throw ("Unknown tool: " +:+ to_string name)
    | Some f =>
        result <- f (Js.or args (JObj [])) ;;
        ret (JObj [("content",
                    JArr [JObj [("type", JStr "text");
                                ("text", stringify_pretty result)]])])
    end.

Definition notifications_initialized : M json :=
  try_catch
    (isConnected <- checkConnectionHealth ;;
     if isConnected
     then logRequest (JStr "redis_connection_test") config_json
            (JObj [("status", JStr "success")]) None
     else logRequest (JStr "redis_connection_test") config_json JNull
            (Some "Connection test failed"))
    (fun m =>
       logRequest (JStr "redis_connection_error") (JObj [("error", JStr m)])
         JNull (Some m)) ;;;
  ret JNull.

(** The chain of [if (method === ...)]: the value left in [result]. *)
Definition dispatch (self : json -> M json) (method params : json) : M json :=
  if Js.is_str method "initialize" then initialize params
  else if Js.is_str method "tools/list" then ret tools_list_result
  else if Js.is_str method "prompts/list" then ret (JObj [("prompts", JArr [])])
  else if Js.is_str method "prompts/call" then
    ret (JObj [("messages",
                JArr [JObj [("role", JStr "assistant");
                            ("content",
                             JArr [JObj [("type", JStr "text");
                                         ("text", JStr "Unsupported prompts call")]])]])])
  else if Js.is_str method "resources/list" then ret (JObj [("resources", JArr [])])
  else if Js.is_str method "resources/read" then ret (unsupported "Unsupported resources read")
  else if Js.is_str method "logging/list" then ret (JObj [("logs", JArr [])])
  else if Js.is_str method "logging/read" then ret (unsupported "Unsupported logging read")
  else if Js.is_str method "roots/list" then ret (JObj [("roots", JArr [])])
  else if Js.is_str method "roots/read" then ret (unsupported "Unsupported roots read")
  else if Js.is_str method "tools/call" then tools_call self params
  else if Js.is_str method "ping" then
    (logRequest (JStr "ping") (JObj []) (JObj [("status", JStr "pong")]) None ;;;
     ret (JObj [("pong", JBool true)]))
  else if Js.is_str method "shutdown" then
    (closeConnection ;;;
     modify (fun w => set_handlers (dataListeners w) (healthTimers w) true w) ;;;
     ret JNull)
  else if Js.is_str method "notifications/initialized" then notifications_initialized
  else if Js.is_str method "notifications/exit" then (closeConnection ;;; exit 0)
  else throw ("Unknown method: " +:+ to_string method).

(** [try { m } catch (err) { error = err.message; throw err }
     finally { logRequest(method, params || {}, result, error) }]:
    [result] is still [null] when [m] throws. *)
Definition logging_dispatch (m : M json) (method params : json) : M json :=
  fun w =>
    match m w with
    | (Ok result, w') =>
        (logRequest method (Js.or params (JObj [])) result None ;;; ret result) w'
    | (Throw e, w') =>
        (logRequest method (Js.or params (JObj [])) JNull (Some e) ;;; throw e) w'
    | r => r
    end.

Definition destructure_null (v : json) : string :=
  "Cannot destructure property 'jsonrpc' of 'request' as it is "
  +:+ (match v with JNull => "null" | _ => "undefined" end) +:+ ".".

Definition read_of_null (v : json) : string :=
  "Cannot read properties of "
  +:+ (match v with JNull => "null" | _ => "undefined" end) +:+ " (reading 'id')".

(** The outer [try] block of [handleRequest]; [self] is the method itself,
    reached again when a [tools/call] names [handleRequest]. *)
Definition attempt (self : json -> M json) (request : json) : M json :=
  if Js.nullish request then throw (destructure_null request)
  else
    let jsonrpc := Js.prop request "jsonrpc" in
    let id := Js.prop request "id" in
    let method := Js.prop request "method" in
    let params := Js.prop request "params" in
    if negb (Js.is_str jsonrpc "2.0")
    then (logRequest (JStr "Unsupported JSON-RPC version")
            (JObj [("jsonrpc", jsonrpc)]) JNull
            (Some "Unsupported JSON-RPC version") ;;;
          throw "Unsupported JSON-RPC version")
    else
      (result <- logging_dispatch (dispatch self method params) method params ;;
       if Js.is_str method "notifications/initialized"
          || Js.is_str method "notifications/exit"
       then ret JNull
       else if Js.is_str method "shutdown" then ret (response id JNull)
       else ret (response id result)).

(** The outer [catch (error)] block.  The [stack] text it logs is
    engine-specific and left out of the log entry. *)
Definition recover (request : json) (message : string) : M json :=
  logRequest (JStr "error") (JObj [("error", JStr message)]) JNull
    (Some message) ;;;
  if Js.nullish request then throw (read_of_null request)
  else ret (error_response (Js.prop request "id") (errorCode message) message).

Definition handleRequest_body (self : json -> M json) (request : json) : M json :=
  try_catch (attempt self request) (recover request).

(** [handleRequest] unfolded at most [fuel] times through [tools/call]. *)
Fixpoint handleRequest (fuel : nat) (request : json) : M json :=
  handleRequest_body
    (match fuel with
     | O => fun _ w => (Unfinished, w)
     | S fuel' => handleRequest fuel'
     end)
    request.

(** *** The stdin handler installed by [start] *)

(** [console.log(JSON.stringify(v))] *)
Definition console_log (v : json) : M unit :=
  modify (fun w => set_stdout (stdout w ++ [v]) w).

(** The response written when a line cannot be processed. *)
Definition internal_error (message : string) : json :=
  error_response JNull (-32603) ("Internal error: " +:+ message).

(** The body of [for (const line of lines)]. *)
Definition handle_line (fuel : nat) (line : string) : M unit :=
  if String.eqb (Js.trim line) "" then ret tt
  else
    try_catch
      (match JSON_parse RT line with
       | inl e => throw e
       | inr request =>
           response <- handleRequest fuel request ;;
           if Js.truthy response then console_log response else ret tt
       end)
      (fun m => console_log (internal_error m)).

Fixpoint for_each (fuel : nat) (lines : list string) : M unit :=
  match lines with
  | [] => ret tt
  | line :: rest => handle_line fuel line ;;; for_each fuel rest
  end.

(** [process.stdin.on('data', async (data) => ...)] *)
Definition on_data (fuel : nat) (data : string) : M unit :=
  try_catch
    (for_each fuel (Js.split_lines (Js.trim data)))
    (fun m =>
       logRequest (JStr "data_processing_error") (JObj [("error", JStr m)])
         JNull (Some m)).

(** *** RedisInfo (redis-info.js)

    The reports are built from the text the store returns for [INFO]; the
    text is a parameter of the model.  The objects that collect the parsed
    fields are only read by name and are finite maps. *)

Definition CR : ascii := ascii_of_nat 13.
Definition LF : ascii := ascii_of_nat 10.

(** [s.split(c)] for a separator [c] of one character: at least one piece. *)
Fixpoint split_char (sep : ascii) (s : string) : list string :=
  match s with
  | EmptyString => [EmptyString]
  | String c tl =>
      if Ascii.eqb c sep then EmptyString :: split_char sep tl
      else match split_char sep tl with
           | [] => [String c EmptyString]
           | l :: ls => String c l :: ls
           end
  end.

(** [s.split('\r\n')] *)
Fixpoint split_crlf (s : string) : list string :=
  match s with
  | EmptyString => [EmptyString]
  | String c tl =>
      match tl with
      | String c' tl' =>
          if Ascii.eqb c CR && Ascii.eqb c' LF
          then EmptyString :: split_crlf tl'
          else match split_crlf tl with
               | [] => [String c EmptyString]
               | l :: ls => String c l :: ls
               end
      | EmptyString => [String c EmptyString]
      end
  end.

(** [line.startsWith(c)] for one character. *)
Definition starts_with (c : ascii) (line : string) : bool :=
  match line with
  | String c' _ => Ascii.eqb c' c
  | EmptyString => false
  end.

(** The body of [for (const line of infoLines)] in [getRedisInfo] and
    [getMemoryInfo]:
    [if (line && !line.startsWith('#')) { const [key, value] = line.split(':');
     if (key && value !== undefined) { serverInfo[key] = value; } }]
    Assigning a string to [__proto__] leaves the object as it is. *)
Definition info_line (serverInfo : gmap string string) (line : string)
  : gmap string string :=
  if String.eqb line "" || starts_with "#" line then serverInfo
  else match split_char ":" line with
       | key :: value :: _ =>
           if String.eqb key "" || String.eqb key "__proto__" then serverInfo
           else <[key := value]> serverInfo
       | _ => serverInfo
       end.

Definition parse_info (info : string) : gmap string string :=
  fold_left info_line (split_crlf info) ∅.

(** [serverInfo.name] for a name the reports read, none of which an object
    inherits: [undefined] when the field was not parsed. *)
Definition info_field (serverInfo : gmap string string) (name : string) : json :=
  match serverInfo !! name with
  | Some v => JStr v
  | None => JUndefined
  end.

(** [client.info(section)] answers with the text [reply]; [client.dbSize()]
    counts the keys. *)
Definition client_info (reply : string) : M string := query (fun _ => inr reply).
Definition client_dbSize : M Z := query (fun d => inr (Z.of_nat (size d))).

(** [redisInfo.getRedisInfo()] *)
Definition redisInfo_getRedisInfo (reply : string) : M json :=
  getClient ;;;
  try_catch
    (info <- client_info reply ;;
     dbSize <- client_dbSize ;;
     connectionInfo <- getConnectionInfo ;;
     let parsed := parse_info info in
     ret (JObj [("connection", connectionInfo);
                ("permissions", getPermissions);
                ("database", JObj [("size", JNum dbSize)]);
                ("server",
                 JObj [("version", info_field parsed "redis_version");
                       ("mode", info_field parsed "redis_mode");
                       ("os", info_field parsed "os");
                       ("archBits", info_field parsed "arch_bits");
                       ("uptime", info_field parsed "uptime_in_seconds");
                       ("connectedClients", info_field parsed "connected_clients");
                       ("usedMemory", info_field parsed "used_memory_human");
                       ("maxMemory", info_field parsed "maxmemory_human");
                       ("totalCommandsProcessed",
                        info_field parsed "total_commands_processed");
                       ("instantaneousOpsPerSec",
                        info_field parsed "instantaneous_ops_per_sec");
                       ("keyspaceHits", info_field parsed "keyspace_hits");
                       ("keyspaceMisses", info_field parsed "keyspace_misses")])]))
    (fun m => throw ("Failed to get Redis info: " +:+ m)).

(** [redisInfo.getMemoryInfo()] *)
Definition redisInfo_getMemoryInfo (reply : string) : M json :=
  getClient ;;;
  try_catch
    (info <- client_info reply ;;
     let memoryInfo := parse_info info in
     ret (JObj [("usedMemory", info_field memoryInfo "used_memory");
                ("usedMemoryHuman", info_field memoryInfo "used_memory_human");
                ("usedMemoryRss", info_field memoryInfo "used_memory_rss");
                ("usedMemoryRssHuman", info_field memoryInfo "used_memory_rss_human");
                ("usedMemoryPeak", info_field memoryInfo "used_memory_peak");
                ("usedMemoryPeakHuman",
                 info_field memoryInfo "used_memory_peak_human");
                ("maxMemory", info_field memoryInfo "maxmemory");
                ("maxMemoryHuman", info_field memoryInfo "maxmemory_human");
                ("memFragmentationRatio",
                 info_field memoryInfo "mem_fragmentation_ratio")]))
    (fun m => throw ("Failed to get memory info: " +:+ m)).

(** [parseInt(s)] without a radix, on ASCII text; [None] is [NaN].  The
    result is exact where a double is, below 2^53 in absolute value. *)
Definition is_digit (c : ascii) : bool :=
  let n := nat_of_ascii c in (Nat.leb 48 n && Nat.leb n 57)%bool.

Fixpoint digits_prefix (s : string) : string :=
  match s with
  | EmptyString => EmptyString
  | String c tl => if is_digit c then String c (digits_prefix tl) else EmptyString
  end.

Definition decimal_value (s : string) : option Z :=
  match digits_prefix s with
  | EmptyString => None
  | d => option_map (fun u => Z.of_N (N.of_uint u)) (NilEmpty.uint_of_string d)
  end.

Definition hex_digit (c : ascii) : option Z :=
  let n := nat_of_ascii c in
  if (Nat.leb 48 n && Nat.leb n 57)%bool then Some (Z.of_nat (n - 48))
  else if (Nat.leb 97 n && Nat.leb n 102)%bool then Some (Z.of_nat (n - 87))
  else if (Nat.leb 65 n && Nat.leb n 70)%bool then Some (Z.of_nat (n - 55))
  else None.

Fixpoint hex_value (s : string) (acc : option Z) : option Z :=
  match s with
  | EmptyString => acc
  | String c tl =>
      match hex_digit c with
      | Some d =>
          hex_value tl (Some (16 * match acc with Some a => a | None => 0 end + d))
      | None => acc
      end
  end.

Definition parseInt (s : string) : option Z :=
  let s := Js.trim_start s in
  let '(negative, s) :=
    match s with
    | String "-" tl => (true, tl)
    | String "+" tl => (false, tl)
    | _ => (false, s)
    end in
  let magnitude :=
    match s with
    | String "0" (String "x" tl) | String "0" (String "X" tl) => hex_value tl None
    | _ => decimal_value s
    end in
  option_map (fun n => if negative then - n else n) magnitude.

(** A property name that is an array index: the canonical decimal text of a
    number below 2^32 - 1.  Such names come first among the own properties
    of an object, in ascending order. *)
Definition array_index (k : string) : option N :=
  match NilEmpty.uint_of_string k with
  | Some u =>
      let n := N.of_uint u in
      if String.eqb (NilEmpty.string_of_uint (N.to_uint n)) k
         && (n <=? 4294967294)%N
      then Some n
      else None
  | None => None
  end.

Definition precedes (k k' : string) : bool :=
  match array_index k, array_index k' with
  | Some n, Some n' => (n <? n')%N
  | Some _, None => true
  | None, _ => false
  end.

(** [o[k] = v] on an object made by assignments only: an existing property
    keeps its place, a new one goes after the indices below it if it is an
    index, and last otherwise. *)
Fixpoint assign (k : string) (v : json) (o : list (string * json))
  : list (string * json) :=
  match o with
  | [] => [(k, v)]
  | (k', v') :: tl =>
      if String.eqb k k' then (k, v) :: tl
      else if precedes k k' then (k, v) :: o
      else (k', v') :: assign k v tl
  end.

(** The body of [for (const pair of statPairs)] in [getDatabaseStats]:
    [const [key, value] = pair.split('=');
     if (key && value !== undefined) { dbStats[key] = parseInt(value) || value; }]
    Assigning a number or a string to [__proto__] leaves the object as it
    is. *)
Definition stat_pair (dbStats : list (string * json)) (pair : string)
  : list (string * json) :=
  match split_char "=" pair with
  | key :: value :: _ =>
      if String.eqb key "" || String.eqb key "__proto__" then dbStats
      else assign key
             (match parseInt value with
              | Some n => if n =? 0 then JStr value else JNum n
              | None => JStr value
              end)
             dbStats
  | _ => dbStats
  end.

Definition parse_stats (stats : string) : list (string * json) :=
  fold_left stat_pair (split_char "," stats) [].

(** The body of [for (const line of infoLines)] in [getDatabaseStats]:
    [if (line && line.startsWith('db')) { const [dbName, stats] = line.split(':');
     if (dbName && stats) { ...; keyspaceInfo[dbName] = dbStats; } }] *)
Definition keyspace_line (keyspaceInfo : list (string * json)) (line : string)
  : list (string * json) :=
  if String.prefix "db" line
  then match split_char ":" line with
       | dbName :: stats :: _ =>
           if String.eqb dbName "" || String.eqb stats "" then keyspaceInfo
           else assign dbName (JObj (parse_stats stats)) keyspaceInfo
       | _ => keyspaceInfo
       end
  else keyspaceInfo.

Definition parse_keyspace (info : string) : list (string * json) :=
  fold_left keyspace_line (split_crlf info) [].

(** [redisInfo.getDatabaseStats()] *)
Definition redisInfo_getDatabaseStats (reply : string) : M json :=
  getClient ;;;
  try_catch
    (dbSize <- client_dbSize ;;
     info <- client_info reply ;;
     ret (JObj [("totalKeys", JNum dbSize);
                ("databases", JObj (parse_keyspace info))]))
    (fun m => throw ("Failed to get database stats: " +:+ m)).

(** ** Vocabulary of the properties *)

(** The tools that are listed whatever the flags are. *)
Definition unconditional : list string :=
  ["get_data"; "list_keys"; "exists_key"; "get_key_info"; "get_redis_info";
   "get_database_stats"; "get_memory_info"; "test_connection";
   "get_operation_logs"; "check_permissions"; "set_ttl"; "remove_ttl"].

(** The names a response to [tools/list] lists: the member [name] of each
    element of the array [result.tools]. *)
Definition listed_names (r : json) : list json :=
  map (fun t => Js.prop t "name")
    (items_of (Js.prop (Js.prop r "result") "tools")).

(** A [tools/list] request with any id and any parameters. *)
Definition tools_list_request (id params : json) : json :=
  JObj [("jsonrpc", JStr "2.0"); ("id", id); ("method", JStr "tools/list");
        ("params", params)].

(** What [handleRequest] calls itself with at a given unfolding bound. *)
Definition self_of (fuel : nat) : json -> M json :=
  match fuel with
  | O => fun _ w => (Unfinished, w)
  | S fuel' => handleRequest fuel'
  end.

(** A [tools/call] request naming [tool], with any id and arguments. *)
Definition tools_call_request (id : json) (tool : string) (args : json) : json :=
  JObj [("jsonrpc", JStr "2.0"); ("id", id); ("method", JStr "tools/call");
        ("params", JObj [("name", JStr tool); ("arguments", args)])].

(** The wrapping of a tool result as one text content block. *)
Definition content (result : json) : json :=
  JObj [("content",
         JArr [JObj [("type", JStr "text"); ("text", stringify_pretty result)]])].

(** The two log entries written when a dispatch fails. *)
Definition log_failure (method params : json) (e : string) : M unit :=
  logRequest method (Js.or params (JObj [])) JNull (Some e) ;;;
  logRequest (JStr "error") (JObj [("error", JStr e)]) JNull (Some e).

Definition call_params (tool : string) (args : json) : json :=
  JObj [("name", JStr tool); ("arguments", args)].

(** Nothing was sent to the store and no client was acquired. *)
Definition same_store (w w' : world) : Prop :=
  db w' = db w /\ reachable w' = reachable w /\ client w' = client w
  /\ isConnected w' = isConnected w.

Inductive mutating : Type :=
| SetData | UpdateData | DeleteData | CreateKey | DropKey | RenameKey.

Definition tool_of (m : mutating) : string :=
  match m with
  | SetData => "set_data"
  | UpdateData => "update_data"
  | DeleteData => "delete_data"
  | CreateKey => "create_key"
  | DropKey => "drop_key"
  | RenameKey => "rename_key"
  end.

Definition allowed (m : mutating) : bool :=
  match m with
  | SetData => ALLOW_INSERT P
  | UpdateData => ALLOW_UPDATE P
  | DeleteData => ALLOW_DELETE P
  | CreateKey => ALLOW_CREATE P
  | DropKey => ALLOW_DROP P
  | RenameKey => ALLOW_CREATE P && ALLOW_DROP P
  end.

(** The operation-layer method behind each tool, and the server method. *)
Definition operation (m : mutating) : json -> M json :=
  match m with
  | SetData => setData
  | UpdateData => updateData
  | DeleteData => deleteData
  | CreateKey => createKey
  | DropKey => dropKey
  | RenameKey => renameKey
  end.

Definition method_of (m : mutating) : json -> M json :=
  match m with
  | SetData => set_data
  | UpdateData => update_data
  | DeleteData => delete_data
  | CreateKey => create_key
  | DropKey => drop_key
  | RenameKey => rename_key
  end.

(** The fixed message of the permission check, and the prefix the server
    method puts in front of it. *)
Definition not_allowed (m : mutating) : string :=
  match m with
  | SetData => "Insert operations are not allowed"
  | UpdateData => "Update operations are not allowed"
  | DeleteData => "Delete operations are not allowed"
  | CreateKey => "Create key operations are not allowed"
  | DropKey => "Drop key operations are not allowed"
  | RenameKey => "Rename operations require both create and drop permissions"
  end.

Definition failure (m : mutating) : string :=
  match m with
  | SetData => "Failed to set data: "
  | UpdateData => "Failed to update data: "
  | DeleteData => "Failed to delete data: "
  | CreateKey => "Failed to create key: "
  | DropKey => "Failed to drop key: "
  | RenameKey => "Failed to rename key: "
  end.

Definition denied (m : mutating) : string := failure m +:+ not_allowed m.

(** The message of the server method's own argument validation, if the
    arguments do not pass it. *)
Definition rejected_arguments (m : mutating) (args : json) : option string :=
  let bad_key :=
    match Js.key_param (Js.prop args "key") with
    | None => Some MISSING_KEY
    | Some _ => None
    end in
  let bad_key_or_value :=
    match Js.key_param (Js.prop args "key") with
    | None => Some MISSING_KEY
    | Some _ => if Js.nullish (Js.prop args "value") then Some MISSING_VALUE else None
    end in
  match m with
  | SetData | UpdateData => bad_key_or_value
  | DeleteData | CreateKey | DropKey => bad_key
  | RenameKey =>
      match Js.key_param (Js.prop args "oldKey") with
      | None => Some "Missing or invalid oldKey parameter"
      | Some _ =>
          match Js.key_param (Js.prop args "newKey") with
          | None => Some "Missing or invalid newKey parameter"
          | Some _ => None
          end
      end
  end.

(** Everything but the connection manager's two fields is unchanged. *)
Definition same_but_connection (w w' : world) : Prop :=
  db w' = db w /\ reachable w' = reachable w /\ initialized w' = initialized w
  /\ operationLogs w' = operationLogs w /\ logFile w' = logFile w
  /\ stdout w' = stdout w.





(** Methods of the server class that are not tools. *)
Definition internal_methods : list string :=
  ["closeConnection"; "checkConnectionHealth"; "ensureConnection";
   "handleRequest"; "start"; "startHealthCheck"].

(** [needle] occurs in [hay]. *)
Definition contains (needle hay : string) : Prop :=
  exists pre post : string, hay = pre +:+ needle +:+ post.

(** What [get] reports for a key that is not in the store. *)
Definition absent_report (k : string) : json :=
  JObj [("key", JStr k); ("value", JNull); ("exists", JBool false);
        ("type", JNull); ("ttl", JNull)].

(** What [exists_key] reports for a key that is not in the store. *)
Definition absent_exists_report (k : string) : json :=
  JObj [("key", JStr k); ("exists", JBool false); ("type", JNull);
        ("ttl", JStr "expired")].

(** The key holds a value after the run, and the store still answers. *)
Definition written (k : string) (w' : world) : Prop :=
  reachable w' = true /\ is_Some (db w' !! k).

Definition already_exists (k : string) : string :=
  "Key '" +:+ k +:+ "' already exists".

(** A computation that leaves the contents of the store as they are, whatever
    its outcome. *)
Definition preserves_db {A : Type} (m : M A) : Prop :=
  forall (w w' : world) (r : outcome A), m w = (r, w') -> db w' = db w.

(** The tools that only read. *)
Definition reading_tools : list string :=
  ["get_data"; "list_keys"; "exists_key"; "get_key_info"; "test_connection";
   "get_operation_logs"; "check_permissions"].

(** The name the store gives to the type of a value. *)
Definition type_name (v : rval) : string :=
  match v with
  | RString _ => "string"
  | RList _ => "list"
  | RSet _ => "set"
  | RZSet _ => "zset"
  | RHash _ => "hash"
  end.

(** The remaining time-to-live as the reports print it. *)
Definition ttl_marker (e : entry) : json :=
  ttl_report (JNum (match expiry e with
                    | None => -1
                    | Some t => t
                    end)).

(** An optional time-to-live as it appears among the arguments. *)
Definition ttl_param (t : option Z) : json :=
  match t with
  | Some n => JNum n
  | None => JUndefined
  end.

(** A given time-to-live is positive. *)
Definition positive_ttl (t : option Z) : Prop :=
  match t with
  | Some n => 0 < n
  | None => True
  end.

(** The entry [list_keys] returns for a key. *)
Definition key_summary (d : gmap string entry) (key : string) : json :=
  JObj [("key", JStr key); ("type", JStr (Redis.type key d));
        ("ttl", ttl_report (JNum (Redis.ttl key d)))].

(** The three arguments of [listKeys] after the defaults are applied. *)
Definition pattern_of (params : json) : json :=
  Js.default (Js.prop (Js.or params (JObj [])) "pattern") (JStr "*").

Definition limit_of (params : json) : json :=
  Js.default (Js.prop (Js.or params (JObj [])) "limit") (JNum 100).

Definition offset_of (params : json) : json :=
  Js.default (Js.prop (Js.or params (JObj [])) "offset") (JNum 0).

(** What a step may do to the audit trail and to standard output: the
    in-memory ring stays within its bound, the log file keeps the lines it
    has, and nothing is written to standard output. *)
Definition audit_step (w w' : world) : Prop :=
  ((length (operationLogs w) <= MAX_LOGS)%nat ->
   (length (operationLogs w') <= MAX_LOGS)%nat)
  /\ (exists added, logFile w' = logFile w ++ added)
  /\ stdout w' = stdout w.

(** A computation all of whose runs are such steps, whatever its outcome. *)
Definition respects {A : Type} (m : M A) : Prop :=
  forall w, audit_step w (snd (m w)).

(** An [initialize] and a [shutdown] request with any id and parameters. *)
Definition initialize_request (id params : json) : json :=
  JObj [("jsonrpc", JStr "2.0"); ("id", id); ("method", JStr "initialize");
        ("params", params)].

Definition shutdown_request (id params : json) : json :=
  JObj [("jsonrpc", JStr "2.0"); ("id", id); ("method", JStr "shutdown");
        ("params", params)].

(** The capabilities the server declares only when the client does. *)
Definition mirrored : list string := ["prompts"; "resources"; "logging"; "roots"].

(** The character [c] does not occur in [s]. *)
Fixpoint free_of (c : ascii) (s : string) : bool :=
  match s with
  | EmptyString => true
  | String c' tl => negb (Ascii.eqb c' c) && free_of c tl
  end.

(** The lines of an [INFO] text, joined by CR LF. *)
Definition join_crlf (lines : list string) : string :=
  String.concat (String CR (String LF EmptyString)) lines.

(** The names [getRedisInfo] and [getMemoryInfo] read from the parsed text. *)
Definition report_fields : list string :=
  ["redis_version"; "redis_mode"; "os"; "arch_bits"; "uptime_in_seconds";
   "connected_clients"; "used_memory_human"; "maxmemory_human";
   "total_commands_processed"; "instantaneous_ops_per_sec"; "keyspace_hits";
   "keyspace_misses"; "used_memory"; "used_memory_rss"; "used_memory_rss_human";
   "used_memory_peak"; "used_memory_peak_human"; "maxmemory";
   "mem_fragmentation_ratio"].

(** The line begins with [key] followed by a colon. *)
Definition defines (key line : string) : Prop :=
  exists post, line = key +:+ ":" +:+ post.

(** The decimal text of a number, as the store prints a counter. *)
Definition decimal (n : N) : string := NilEmpty.string_of_uint (N.to_uint n).

Fixpoint all_digits (s : string) : bool :=
  match s with
  | EmptyString => true
  | String c tl => is_digit c && all_digits tl
  end.

(** A statistic [name=count] of a keyspace line, and how it is reported. *)
Definition stat_text (p : string * N) : string :=
  fst p +:+ "=" +:+ decimal (snd p).

Definition stat_json (p : string * N) : string * json :=
  (fst p, if (snd p =? 0)%N then JStr "0" else JNum (Z.of_N (snd p))).

(** The name of a statistic: not empty, not [__proto__], not an array index,
    without comma or equals sign. *)
Definition stat_name (k : string) : Prop :=
  k <> "" /\ k <> "__proto__" /\ array_index k = None
  /\ free_of "," k = true /\ free_of "=" k = true.

(** The tools that report the store's diagnostics. *)
Definition diagnostic_tools : list string :=
  ["get_redis_info"; "get_database_stats"; "get_memory_info"].

(** ** Properties *)

(** *** Running the monad *)

Lemma bind_ok {A B : Type} (m : M A) (k : A -> M B) (w w' : world) (a : A) :
  m w = (Ok a, w') -> bind m k w = k a w'.
Proof. intros H. unfold bind. rewrite H. reflexivity. Qed.

Lemma bind_throw {A B : Type} (m : M A) (k : A -> M B) (w w' : world) (e : string) :
  m w = (Throw e, w') -> bind m k w = (Throw e, w').
Proof. intros H. unfold bind. rewrite H. reflexivity. Qed.

Lemma try_catch_ok {A : Type} (m : M A) (h : string -> M A) (w w' : world) (a : A) :
  m w = (Ok a, w') -> try_catch m h w = (Ok a, w').
Proof. intros H. unfold try_catch. rewrite H. reflexivity. Qed.

Lemma try_catch_throw {A : Type} (m : M A) (h : string -> M A) (w w' : world)
  (e : string) :
  m w = (Throw e, w') -> try_catch m h w = h e w'.
Proof. intros H. unfold try_catch. rewrite H. reflexivity. Qed.

(** *** The manifest *)

Lemma in_push_if (b : bool) (t : tool) (n : string) :
  In n (map name (push_if b t)) <-> n = name t /\ b = true.
Proof.
  destruct b; simpl.
  - split; [intros [H | []]; auto | intros [H _]; auto].
  - split; [intros [] | intros [_ H]; discriminate].
Qed.

Lemma names_of_tools :
  map name tools =
  map name read_tools
  ++ map name (push_if (ALLOW_INSERT P) set_data_tool)
  ++ map name (push_if (ALLOW_UPDATE P) update_data_tool)
  ++ map name (push_if (ALLOW_DELETE P) delete_data_tool)
  ++ map name (push_if (ALLOW_CREATE P) create_key_tool)
  ++ map name (push_if (ALLOW_DROP P) drop_key_tool)
  ++ map name (push_if (ALLOW_CREATE P && ALLOW_DROP P) rename_key_tool)
  ++ map name ttl_tools.
Proof. unfold tools. rewrite !map_app. reflexivity. Qed.

Lemma unconditional_split :
  unconditional = map name read_tools ++ map name ttl_tools.
Proof. reflexivity. Qed.

Lemma tools_membership (n : string) :
  In n (map name tools) <->
  In n unconditional
  \/ (n = "set_data" /\ ALLOW_INSERT P = true)
  \/ (n = "update_data" /\ ALLOW_UPDATE P = true)
  \/ (n = "delete_data" /\ ALLOW_DELETE P = true)
  \/ (n = "create_key" /\ ALLOW_CREATE P = true)
  \/ (n = "drop_key" /\ ALLOW_DROP P = true)
  \/ (n = "rename_key" /\ ALLOW_CREATE P = true /\ ALLOW_DROP P = true).
Proof.
  rewrite names_of_tools, unconditional_split.
  rewrite !in_app_iff, !in_push_if, andb_true_iff.
  change (name set_data_tool) with "set_data".
  change (name update_data_tool) with "update_data".
  change (name delete_data_tool) with "delete_data".
  change (name create_key_tool) with "create_key".
  change (name drop_key_tool) with "drop_key".
  change (name rename_key_tool) with "rename_key".
  tauto.
Qed.

Lemma tools_names_NoDup : NoDup (map name tools).
Proof.
  rewrite names_of_tools.
  destruct (ALLOW_INSERT P), (ALLOW_UPDATE P), (ALLOW_DELETE P),
    (ALLOW_CREATE P), (ALLOW_DROP P);
    apply (bool_decide_unpack _); vm_compute; exact I.
Qed.

Lemma handle_tools_list (fuel : nat) (id params : json) (w : world) :
  handleRequest fuel (tools_list_request id params) w =
  (Ok (response id tools_list_result),
   snd (logRequest (JStr "tools/list") (Js.or params (JObj [])) tools_list_result
          None w)).
Proof. destruct fuel; reflexivity. Qed.

(** *** Dispatch of a [tools/call] *)

Lemma handleRequest_unfold (fuel : nat) (request : json) :
  handleRequest fuel request = handleRequest_body (self_of fuel) request.
Proof. destruct fuel; reflexivity. Qed.

Lemma handle_tools_call (fuel : nat) (id : json) (tool : string) (args : json)
  (w : world) (f : json -> M json) :
  tool <> "" ->
  this_member (self_of fuel) w tool = Some f ->
  handleRequest fuel (tools_call_request id tool args) w =
  match f (Js.or args (JObj [])) w with
  | (Ok result, w1) =>
      (Ok (response id (content result)),
       snd (logRequest (JStr "tools/call") (call_params tool args)
              (content result) None w1))
  | (Throw e, w1) =>
      (Ok (error_response id (errorCode e) e),
       snd (log_failure (JStr "tools/call") (call_params tool args) e w1))
  | (Exit c, w1) => (Exit c, w1)
  | (Unfinished, w1) => (Unfinished, w1)
  | (Pending, w1) => (Pending, w1)
  end.
Proof.
  intros Hne Hm.
  rewrite handleRequest_unfold.
  unfold handleRequest_body, attempt, recover, tools_call_request.
  cbn [Js.nullish Js.prop Js.assoc Js.is_str String.eqb Ascii.eqb Bool.eqb
       negb andb orb].
  unfold try_catch at 1.
  unfold bind at 1.
  unfold logging_dispatch.
  unfold dispatch.
  cbn [Js.nullish Js.prop Js.assoc Js.is_str String.eqb Ascii.eqb Bool.eqb
       negb andb orb].
  unfold tools_call.
  cbn [Js.or Js.truthy Js.prop Js.assoc String.eqb Ascii.eqb Bool.eqb to_string].
  assert (Ht : negb (negb (String.eqb tool "")) = false).
  { destruct (String.eqb_spec tool ""); [contradiction | reflexivity]. }
  unfold call_params.
  destruct (String.eqb tool "") eqn:E; [discriminate Ht |].
  cbn [negb Js.prop Js.assoc String.eqb Ascii.eqb Bool.eqb].
  unfold log_failure, bind, gets.
  rewrite Hm.
  destruct (f (Js.or args (JObj [])) w) as [[result | e | c | |] w1]; reflexivity.
Qed.

(** *** Store and connection left untouched *)

Lemma same_store_refl (w : world) : same_store w w.
Proof. repeat split. Qed.

Lemma same_store_trans (w1 w2 w3 : world) :
  same_store w1 w2 -> same_store w2 w3 -> same_store w1 w3.
Proof.
  intros (A1 & A2 & A3 & A4) (B1 & B2 & B3 & B4).
  repeat split; congruence.
Qed.

Lemma logRequest_run (method params result : json) (error : option string)
  (w : world) :
  exists l f, logRequest method params result error w = (Ok tt, set_logs l f w).
Proof. unfold logRequest, modify. eauto. Qed.

Lemma logRedisOperation_run (operation : string) (key result : json)
  (error : option string) (w : world) :
  exists l f,
    logRedisOperation operation key result error w = (Ok tt, set_logs l f w).
Proof. unfold logRedisOperation, modify. eauto. Qed.

Lemma same_store_logs (l : list logEntry) (f : list string) (w : world) :
  same_store w (set_logs l f w).
Proof. repeat split. Qed.

Lemma same_store_logRequest (method params result : json)
  (error : option string) (w : world) :
  same_store w (snd (logRequest method params result error w)).
Proof. apply same_store_logs. Qed.

Lemma same_store_log_failure (method params : json) (e : string) (w : world) :
  same_store w (snd (log_failure method params e w)).
Proof. repeat split. Qed.

(** A method that throws after logging one store-operation line. *)
Lemma logged_throw (operation : string) (key : json) (failure : string)
  (summary : json -> json) (op : M json) (w : world) (e : string) :
  op w = (Throw e, w) ->
  exists w',
    logged operation key failure summary op w = (Throw (failure +:+ e), w')
    /\ same_store w w'.
Proof.
  intros H. unfold logged.
  erewrite try_catch_throw by (apply bind_throw; exact H).
  unfold bind, logRedisOperation, modify, throw.
  eexists. split; [reflexivity | apply same_store_logs].
Qed.

(** *** The mutating tools and their permission flags *)

Lemma member_of_tool (self : json -> M json) (w : world) (m : mutating) :
  this_member self w (tool_of m) = Some (method_of m).
Proof. destruct m; reflexivity. Qed.

Lemma tool_of_nonempty (m : mutating) : tool_of m <> "".
Proof. destruct m; discriminate. Qed.

(** The permission check is the first statement of every operation-layer
    method. *)
Lemma operation_denied (m : mutating) (params : json) (w : world) :
  allowed m = false -> operation m params w = (Throw (not_allowed m), w).
Proof.
  destruct m; cbn [allowed operation not_allowed]; intros H.
  - unfold setData. rewrite H. reflexivity.
  - unfold updateData. rewrite H. reflexivity.
  - unfold deleteData. rewrite H. reflexivity.
  - unfold createKey. rewrite H. reflexivity.
  - unfold dropKey. rewrite H. reflexivity.
  - unfold renameKey.
    replace (negb (ALLOW_CREATE P) || negb (ALLOW_DROP P)) with true;
      [reflexivity |].
    destruct (ALLOW_CREATE P), (ALLOW_DROP P); try reflexivity; discriminate.
Qed.

(** The server method validates its arguments before it reaches the
    operation layer. *)
Lemma method_denied (m : mutating) (args : json) (w : world) :
  allowed m = false ->
  exists w',
    method_of m args w =
    (Throw (match rejected_arguments m args with
            | Some e => e
            | None => denied m
            end), w')
    /\ same_store w w'.
Proof.
  intros H.
  pose proof (operation_denied m) as Hop.
  destruct m; cbn [operation not_allowed method_of rejected_arguments denied failure] in *.
  - unfold set_data.
    destruct (Js.key_param (Js.prop args "key"));
      [| eexists; split; [reflexivity | apply same_store_refl]].
    destruct (Js.nullish (Js.prop args "value"));
      [eexists; split; [reflexivity | apply same_store_refl] |].
    apply logged_throw. apply (Hop _ _ H).
  - unfold update_data.
    destruct (Js.key_param (Js.prop args "key"));
      [| eexists; split; [reflexivity | apply same_store_refl]].
    destruct (Js.nullish (Js.prop args "value"));
      [eexists; split; [reflexivity | apply same_store_refl] |].
    apply logged_throw. apply (Hop _ _ H).
  - unfold delete_data.
    destruct (Js.key_param (Js.prop args "key"));
      [| eexists; split; [reflexivity | apply same_store_refl]].
    apply logged_throw. apply (Hop _ _ H).
  - unfold create_key.
    destruct (Js.key_param (Js.prop args "key"));
      [| eexists; split; [reflexivity | apply same_store_refl]].
    apply logged_throw. apply (Hop _ _ H).
  - unfold drop_key.
    destruct (Js.key_param (Js.prop args "key"));
      [| eexists; split; [reflexivity | apply same_store_refl]].
    apply logged_throw. apply (Hop _ _ H).
  - unfold rename_key.
    destruct (Js.key_param (Js.prop args "oldKey"));
      [| eexists; split; [reflexivity | apply same_store_refl]].
    destruct (Js.key_param (Js.prop args "newKey"));
      [| eexists; split; [reflexivity | apply same_store_refl]].
    apply logged_throw. apply (Hop _ _ H).
Qed.

Lemma errorCode_rejection (m : mutating) (args : json) :
  errorCode (match rejected_arguments m args with
             | Some e => e
             | None => denied m
             end) = -32603.
Proof.
  destruct m; cbn [rejected_arguments];
    try destruct (Js.key_param (Js.prop args "key"));
    try destruct (Js.nullish (Js.prop args "value"));
    try destruct (Js.key_param (Js.prop args "oldKey"));
    try destruct (Js.key_param (Js.prop args "newKey"));
    vm_compute; reflexivity.
Qed.

Lemma listed_names_manifest (id : json) :
  listed_names (response id tools_list_result) = map JStr (map name tools).
Proof.
  unfold listed_names.
  change (Js.prop (Js.prop (response id tools_list_result) "result") "tools")
    with (JArr (map tool_json tools)).
  cbn [items_of]. rewrite !List.map_map. reflexivity.
Qed.

Lemma NoDup_map_JStr (l : list string) : NoDup l -> NoDup (map JStr l).
Proof.
  induction 1 as [| x l Hx _ IH]; cbn [map]; constructor; [| exact IH].
  intros Hin. apply list_elem_of_In, in_map_iff in Hin as (y & [= ->] & Hy).
  apply list_elem_of_In in Hy. contradiction.
Qed.

Lemma In_map_JStr (s : string) (l : list string) :
  In (JStr s) (map JStr l) <-> In s l.
Proof.
  rewrite in_map_iff. split.
  - intros (y & [= ->] & Hy). exact Hy.
  - intros H. exists s. split; [reflexivity | exact H].
Qed.

(** C1.  Whatever the five permission flags are, a [tools/list] request is
    answered, under the request's id, with a result whose member [tools] is
    an array of objects that each carry a string as [name]; a name is listed
    in that array exactly when it is one of the twelve unconditional tools,
    or [set_data] with insert allowed, [update_data] with update allowed,
    [delete_data] with delete allowed, [create_key] with create allowed,
    [drop_key] with drop allowed, or [rename_key] with both create and drop
    allowed; no name is listed twice. *)
Theorem C1_tools_list_manifest (fuel : nat) (id params : json) (w : world) :
  exists r w',
    handleRequest fuel (tools_list_request id params) w = (Ok r, w')
    /\ Js.prop r "id" = id
    /\ Js.is_array (Js.prop (Js.prop r "result") "tools") = true
    /\ Forall (fun n => exists s : string, n = JStr s) (listed_names r)
    /\ NoDup (listed_names r)
    /\ forall n : string,
        In (JStr n) (listed_names r) <->
        In n unconditional
        \/ (n = "set_data" /\ ALLOW_INSERT P = true)
        \/ (n = "update_data" /\ ALLOW_UPDATE P = true)
        \/ (n = "delete_data" /\ ALLOW_DELETE P = true)
        \/ (n = "create_key" /\ ALLOW_CREATE P = true)
        \/ (n = "drop_key" /\ ALLOW_DROP P = true)
        \/ (n = "rename_key" /\ ALLOW_CREATE P = true /\ ALLOW_DROP P = true).
Proof.
  eexists _, _. split; [apply handle_tools_list |].
  split; [reflexivity |]. split; [reflexivity |].
  rewrite listed_names_manifest.
  split; [| split].
  - apply List.Forall_forall. intros n Hn.
    apply in_map_iff in Hn as (s & <- & _). exists s. reflexivity.
  - apply NoDup_map_JStr, tools_names_NoDup.
  - intros n. rewrite In_map_JStr. apply tools_membership.
Qed.

(** C2, as amended.  For each mutating tool whose permission flag is false:
    the operation-layer method fails on its first statement with the fixed
    permission message, for any parameters and without touching the world;
    and a [tools/call] of the tool fails with code -32603, leaves store and
    connection untouched, and reports the message of the server method's own
    argument validation when the arguments do not pass it, otherwise the
    fixed permission message behind the method's failure prefix. *)
Theorem C2_denied_without_store_access (m : mutating) (fuel : nat)
  (id args : json) (w : world) :
  allowed m = false ->
  (forall (params : json) (w0 : world),
      operation m params w0 = (Throw (not_allowed m), w0))
  /\ exists w',
      handleRequest fuel (tools_call_request id (tool_of m) args) w =
      (Ok (error_response id (-32603)
             (match rejected_arguments m (Js.or args (JObj [])) with
              | Some e => e
              | None => denied m
              end)), w')
      /\ same_store w w'.
Proof.
  intros H. split.
  - intros params w0. apply operation_denied, H.
  - rewrite (handle_tools_call fuel id (tool_of m) args w (method_of m)
               (tool_of_nonempty m) (member_of_tool _ _ m)).
    destruct (method_denied m (Js.or args (JObj [])) w H) as (w1 & Hrun & Hsame).
    rewrite Hrun, errorCode_rejection.
    eexists. split; [reflexivity |].
    eapply same_store_trans; [exact Hsame | apply same_store_log_failure].
Qed.

(** *** The health probe *)

Lemma same_but_connection_refl (w : world) : same_but_connection w w.
Proof. repeat split. Qed.



Lemma in_firstn_first {A : Type} (a : A) (l : list A) : In a (firstn MAX_LOGS (a :: l)).
Proof. left. reflexivity. Qed.


(** *** Notifications *)


Lemma closeConnection_run (w : world) :
  exists w',
    closeConnection w = (Ok tt, w')
    /\ stdout w' = stdout w
    /\ db w' = db w
    /\ isConnected w' = isConnected w && negb (client w)
    /\ operationLogs w' =
       firstn MAX_LOGS
         ({| log_method := JStr "connection_closed";
             log_params := JSON_stringify RT (JObj []);
             log_result := Some (JSON_stringify RT (JObj [("status", JStr "closed")]));
             log_error := None |} :: operationLogs w).
Proof.
  unfold closeConnection, try_catch, bind, close, logRequest, modify.
  destruct (client w) eqn:Hc; cbn;
    eexists; (split; [reflexivity |]); cbn; repeat split.
  - rewrite andb_false_r. reflexivity.
  - rewrite andb_true_r. reflexivity.
Qed.



(** *** Names that [tools/call] dispatches *)

Lemma manifest_dispatchable (self : json -> M json) (w : world) :
  Forall (fun n => exists f, this_member self w n = Some f) (map name tools).
Proof.
  rewrite names_of_tools.
  destruct (ALLOW_INSERT P), (ALLOW_UPDATE P), (ALLOW_DELETE P),
    (ALLOW_CREATE P), (ALLOW_DROP P); cbn [push_if andb map app];
    repeat (constructor; [eexists; reflexivity |]); constructor.
Qed.

Lemma internal_not_listed :
  Forall (fun n => ~ In n (map name tools)) internal_methods.
Proof.
  unfold internal_methods.
  repeat (constructor;
          [rewrite tools_membership; unfold unconditional; simpl;
           intuition discriminate |]).
  constructor.
Qed.

Lemma internal_dispatchable (self : json -> M json) (w : world) :
  Forall (fun n => exists f, this_member self w n = Some f) internal_methods.
Proof. repeat (constructor; [eexists; reflexivity |]); constructor. Qed.

(** C4.  Every name of the manifest resolves to a member of the server object,
    and so do [closeConnection], [checkConnectionHealth], [ensureConnection],
    [handleRequest], [start] and [startHealthCheck], which no manifest lists
    whatever the permission flags are; [handleRequest] resolves to the
    dispatcher itself and [start] to the start-up method.  A [tools/call] naming
    [closeConnection] is not refused as an unknown tool: the method runs (the
    connection is closed and [connection_closed] is logged) and the call is
    answered with a success response wrapping [undefined]. *)
Theorem C4_dispatch_reaches_internal_methods (fuel : nat) (id args : json)
  (w : world) :
  Forall (fun n => exists f, this_member (self_of fuel) w n = Some f)
    (map name tools)
  /\ Forall (fun n => ~ In n (map name tools)) internal_methods
  /\ Forall (fun n => exists f, this_member (self_of fuel) w n = Some f)
       internal_methods
  /\ this_member (self_of fuel) w "handleRequest" = Some (self_of fuel)
  /\ this_member (self_of fuel) w "start" = Some (fun _ => start ;;; ret JUndefined)
  /\ exists w',
      handleRequest fuel (tools_call_request id "closeConnection" args) w
      = (Ok (response id (content JUndefined)), w')
      /\ isConnected w' = isConnected w && negb (client w)
      /\ exists e, In e (operationLogs w')
                   /\ log_method e = JStr "connection_closed".
Proof.
  split; [apply manifest_dispatchable |].
  split; [apply internal_not_listed |].
  split; [apply internal_dispatchable |].
  split; [reflexivity |].
  split; [reflexivity |].
  rewrite (handle_tools_call fuel id "closeConnection" args w
             (fun _ => closeConnection ;;; ret JUndefined));
    [| discriminate | reflexivity].
  destruct (closeConnection_run w) as (w1 & Hc & _ & _ & Hi & Hl).
  unfold bind at 1. rewrite Hc. unfold ret.
  eexists. split; [reflexivity |]. cbn.
  split; [exact Hi |].
  eexists. split; [right; rewrite Hl; left; reflexivity | reflexivity].
Qed.

(** *** Substrings and the error code *)

Lemma append_assoc (a b c : string) : (a +:+ b) +:+ c = a +:+ b +:+ c.
Proof.
  induction a as [| x a IH]; [reflexivity |].
  change (String x ((a +:+ b) +:+ c) = String x (a +:+ b +:+ c)).
  rewrite IH. reflexivity.
Qed.

Lemma contains_prepend (p n h : string) :
  contains n h -> contains n (p +:+ h).
Proof.
  intros (pre & post & ->). exists (p +:+ pre), post.
  rewrite append_assoc. reflexivity.
Qed.

Lemma prefix_spec (n h : string) :
  String.prefix n h = true <-> exists post, h = n +:+ post.
Proof.
  revert h. induction n as [| c n IH]; intros h.
  - split; [intros _; exists h; reflexivity | intros _; destruct h; reflexivity].
  - destruct h as [| c' h]; simpl.
    + split; [discriminate | intros [post H]; discriminate].
    + destruct (ascii_dec c c') as [-> | Hne].
      * rewrite IH. split; intros [post H]; exists post.
        -- rewrite H. reflexivity.
        -- injection H as H. exact H.
      * split; [discriminate |].
        intros [post H]. injection H as H1 H2. congruence.
Qed.

Lemma includes_nil (n : string) :
  Js.includes n "" = if String.prefix n "" then true else false.
Proof. reflexivity. Qed.

Lemma includes_cons (n : string) (c : ascii) (h : string) :
  Js.includes n (String c h)
  = if String.prefix n (String c h) then true else Js.includes n h.
Proof. reflexivity. Qed.

Lemma includes_spec (n h : string) :
  Js.includes n h = true <-> contains n h.
Proof.
  unfold contains. induction h as [| c h IH].
  - rewrite includes_nil. destruct (String.prefix n "") eqn:E.
    + split; [intros _ | reflexivity].
      apply prefix_spec in E as [post E]. exists "", post. exact E.
    + split; [discriminate |].
      intros (pre & post & H).
      destruct pre; [| discriminate].
      assert (String.prefix n "" = true) as F
          by (apply prefix_spec; exists post; exact H).
      congruence.
  - rewrite includes_cons. destruct (String.prefix n (String c h)) eqn:E.
    + split; [intros _ | reflexivity].
      apply prefix_spec in E as [post E]. exists "", post. exact E.
    + rewrite IH. split.
      * intros (pre & post & H). exists (String c pre), post.
        simpl. rewrite H. reflexivity.
      * intros (pre & post & H). destruct pre as [| c' pre].
        -- assert (String.prefix n (String c h) = true) as F
               by (apply prefix_spec; exists post; exact H).
           congruence.
        -- simpl in H. injection H as _ H. exists pre, post. exact H.
Qed.

Lemma includes_false (n h : string) :
  Js.includes n h = false <-> ~ contains n h.
Proof.
  rewrite <- includes_spec. destruct (Js.includes n h); split; intros H;
    try reflexivity; try discriminate; try (intros F; discriminate);
    exfalso; apply H; reflexivity.
Qed.

(** The code is chosen by the first marker, in this order, that occurs in the
    message. *)
Lemma errorCode_spec (message : string) :
  (contains "Server not initialized" message -> errorCode message = -32002)
  /\ (~ contains "Server not initialized" message ->
      contains "Unknown method" message -> errorCode message = -32601)
  /\ (~ contains "Server not initialized" message ->
      ~ contains "Unknown method" message ->
      contains "Unsupported JSON-RPC version" message ->
      errorCode message = -32600)
  /\ (~ contains "Server not initialized" message ->
      ~ contains "Unknown method" message ->
      ~ contains "Unsupported JSON-RPC version" message ->
      errorCode message = -32603).
Proof.
  unfold errorCode.
  repeat split; intros;
    repeat match goal with
           | H : contains _ _ |- _ => apply includes_spec in H; rewrite H
           | H : ~ contains _ _ |- _ => apply includes_false in H; rewrite H
           end; reflexivity.
Qed.

(** A value returned by the [try] block is [null] or a result response. *)
Lemma attempt_ok_shape (self : json -> M json) (request : json) (w w1 : world)
  (r : json) :
  attempt self request w = (Ok r, w1) -> Js.prop r "error" = JUndefined.
Proof.
  unfold attempt.
  destruct (Js.nullish request); [discriminate |].
  destruct (negb (Js.is_str (Js.prop request "jsonrpc") "2.0")).
  - unfold bind, logRequest, modify, throw. discriminate.
  - unfold bind.
    destruct (logging_dispatch _ _ _ w) as [[result | e | c | |] w0];
      try discriminate.
    destruct (Js.is_str (Js.prop request "method") "notifications/initialized"
              || Js.is_str (Js.prop request "method") "notifications/exit").
    + intros [= <- _]. reflexivity.
    + destruct (Js.is_str (Js.prop request "method") "shutdown");
        intros [= <- _]; reflexivity.
Qed.

(** C5, as amended.  For a request that is not [null]: when its dispatch
    fails with a message, the response is the error response with the
    request's id, the message unchanged, and the code chosen by the first of
    the markers [Server not initialized] (-32002), [Unknown method] (-32601),
    [Unsupported JSON-RPC version] (-32600), in this order, that occurs in the
    message, and -32603 when none occurs; when it does not fail, the value
    returned carries no error. *)
Theorem C5_error_code_by_first_marker (fuel : nat) (request : json) (w : world) :
  Js.nullish request = false ->
  (forall (message : string) (w1 : world),
      attempt (self_of fuel) request w = (Throw message, w1) ->
      exists w2,
        handleRequest fuel request w
        = (Ok (error_response (Js.prop request "id") (errorCode message) message),
           w2))
  /\ (forall (r : json) (w1 : world),
         attempt (self_of fuel) request w = (Ok r, w1) ->
         handleRequest fuel request w = (Ok r, w1)
         /\ Js.prop r "error" = JUndefined)
  /\ forall message : string,
      (contains "Server not initialized" message -> errorCode message = -32002)
      /\ (~ contains "Server not initialized" message ->
          contains "Unknown method" message -> errorCode message = -32601)
      /\ (~ contains "Server not initialized" message ->
          ~ contains "Unknown method" message ->
          contains "Unsupported JSON-RPC version" message ->
          errorCode message = -32600)
      /\ (~ contains "Server not initialized" message ->
          ~ contains "Unknown method" message ->
          ~ contains "Unsupported JSON-RPC version" message ->
          errorCode message = -32603).
Proof.
  intros Hreq. rewrite handleRequest_unfold. unfold handleRequest_body.
  split; [| split].
  - intros message w1 H.
    erewrite try_catch_throw by exact H.
    unfold recover, bind, logRequest, modify, ret. rewrite Hreq.
    eexists. reflexivity.
  - intros r w1 H. split.
    + apply try_catch_ok, H.
    + eapply attempt_ok_shape, H.
  - apply errorCode_spec.
Qed.

(** *** The transport *)

Lemma handle_line_malformed (fuel : nat) (line message : string) (w : world) :
  Js.trim line <> "" ->
  JSON_parse RT line = inl message ->
  handle_line fuel line w = console_log (internal_error message) w.
Proof.
  intros Hb Hp. unfold handle_line.
  destruct (String.eqb_spec (Js.trim line) ""); [contradiction |].
  rewrite Hp. reflexivity.
Qed.

Lemma handle_line_blank (fuel : nat) (line : string) (w : world) :
  Js.trim line = "" -> handle_line fuel line w = (Ok tt, w).
Proof. intros H. unfold handle_line. rewrite H. reflexivity. Qed.

(** The handler of a line catches every error. *)
Lemma handle_line_no_throw (fuel : nat) (line : string) (w w' : world)
  (e : string) :
  handle_line fuel line w <> (Throw e, w').
Proof.
  unfold handle_line.
  destruct (String.eqb (Js.trim line) ""); [discriminate |].
  unfold try_catch.
  destruct (match JSON_parse RT line with
            | inl e0 => throw e0
            | inr request =>
                response <- handleRequest fuel request ;;
                if Js.truthy response then console_log response else ret tt
            end w) as [[[] | e0 | c | |] w0]; discriminate.
Qed.

Lemma for_each_no_throw (fuel : nat) (lines : list string) (w w' : world)
  (e : string) :
  for_each fuel lines w <> (Throw e, w').
Proof.
  revert w. induction lines as [| line rest IH]; intros w; cbn [for_each].
  - discriminate.
  - unfold bind.
    destruct (handle_line fuel line w) as [[[] | e0 | c | |] w0] eqn:E;
      try discriminate.
    + apply IH.
    + exfalso. exact (handle_line_no_throw _ _ _ _ _ E).
Qed.

Lemma for_each_app (fuel : nat) (pre post : list string) (w : world) :
  for_each fuel (pre ++ post) w = (for_each fuel pre ;;; for_each fuel post) w.
Proof.
  revert w. induction pre as [| line pre IH]; intros w; cbn [for_each app].
  - reflexivity.
  - unfold bind.
    destruct (handle_line fuel line w) as [[[] | e0 | c | |] w0]; try reflexivity.
    rewrite IH. reflexivity.
Qed.

Lemma on_data_for_each (fuel : nat) (data : string) (w : world) :
  on_data fuel data w = for_each fuel (Js.split_lines (Js.trim data)) w.
Proof.
  unfold on_data, try_catch.
  destruct (for_each fuel (Js.split_lines (Js.trim data)) w)
    as [[[] | e | c | |] w0] eqn:E; try reflexivity.
  exfalso. exact (for_each_no_throw _ _ _ _ _ E).
Qed.

(** C8, as amended.  For every line of a batch that is not blank and that
    [JSON.parse] rejects, the handler writes exactly one response, with id
    [null], code -32603 and the parser's message behind [Internal error: ],
    changes nothing else, and goes on with the remaining lines: the batch
    behaves as the lines before it, that one write, then the lines after it. *)
Theorem C8_malformed_line_is_answered_once (fuel : nat) (data : string)
  (pre post : list string) (line message : string) (w : world) :
  Js.split_lines (Js.trim data) = pre ++ line :: post ->
  Js.trim line <> "" ->
  JSON_parse RT line = inl message ->
  handle_line fuel line w
  = (Ok tt,
     set_stdout
       (stdout w
        ++ [JObj [("jsonrpc", JStr "2.0"); ("id", JNull);
                  ("error",
                   JObj [("code", JNum (-32603));
                         ("message", JStr ("Internal error: " +:+ message))])]])
       w)
  /\ on_data fuel data w
     = (for_each fuel pre ;;;
        console_log (internal_error message) ;;;
        for_each fuel post) w.
Proof.
  intros Hs Hb Hp. split.
  - rewrite (handle_line_malformed fuel line message w Hb Hp). reflexivity.
  - rewrite on_data_for_each, Hs, for_each_app.
    unfold bind.
    destruct (for_each fuel pre w) as [[[] | e | c | |] w0]; try reflexivity.
    cbn [for_each]. unfold bind.
    rewrite (handle_line_malformed fuel line message w0 Hb Hp). reflexivity.
Qed.

(** *** Reading an absent key *)

Lemma set_db_same (w : world) : set_db (db w) w = w.
Proof. destruct w; reflexivity. Qed.

Lemma getClient_reachable (w : world) :
  reachable w = true ->
  exists w', getClient w = (Ok tt, w') /\ same_but_connection w w'.
Proof.
  intros Hr. unfold getClient, createClient.
  destruct (client w) eqn:Hc, (isConnected w) eqn:Hi; cbn;
    rewrite ?Hc, ?Hi, ?Hr; cbn;
    eexists; (split; [reflexivity | repeat split]).
Qed.

Lemma query_ok {A : Type} (f : gmap string entry -> string + A) (w : world)
  (a : A) :
  reachable w = true -> f (db w) = inr a -> query f w = (Ok a, w).
Proof.
  intros Hr Hf. unfold query, command. rewrite Hr, Hf, set_db_same.
  reflexivity.
Qed.

Lemma key_param_some (v : json) (k : string) :
  Js.key_param v = Some k -> v = JStr k /\ k <> "".
Proof.
  destruct v; try discriminate. cbn.
  destruct (String.eqb_spec s ""); [discriminate |].
  intros [= ->]. split; [reflexivity | assumption].
Qed.

(** Arguments that carry a key are an object, hence truthy. *)
Lemma args_with_key (args : json) (k : string) :
  Js.key_param (Js.prop args "key") = Some k -> Js.or args (JObj []) = args.
Proof. destruct args; try discriminate; reflexivity. Qed.

Lemma exists_absent (k : string) (w : world) :
  reachable w = true -> db w !! k = None -> client_exists k w = (Ok 0, w).
Proof.
  intros Hr Hk. apply query_ok; [exact Hr |].
  unfold Redis.exists_. rewrite Hk. reflexivity.
Qed.

Lemma getData_absent (params : json) (k : string) (w : world) :
  Js.key_param (Js.prop params "key") = Some k ->
  reachable w = true ->
  db w !! k = None ->
  exists w',
    getData params w = (Ok (absent_report k), w') /\ same_but_connection w w'.
Proof.
  intros Hk Hr Hd. unfold getData. rewrite Hk.
  destruct (key_param_some _ _ Hk) as [-> _].
  destruct (getClient_reachable w Hr) as (w1 & Hg & Hs).
  pose proof Hs as (Hdb & Hr1 & _).
  erewrite bind_ok by exact Hg.
  erewrite try_catch_ok; [eexists; split; [reflexivity | exact Hs] |].
  erewrite bind_ok by (apply exists_absent; congruence).
  reflexivity.
Qed.

Lemma existsKey_absent (params : json) (k : string) (w : world) :
  Js.key_param (Js.prop params "key") = Some k ->
  reachable w = true ->
  db w !! k = None ->
  exists w',
    existsKey params w = (Ok (absent_exists_report k), w')
    /\ same_but_connection w w'.
Proof.
  intros Hk Hr Hd. unfold existsKey. rewrite Hk.
  destruct (key_param_some _ _ Hk) as [-> _].
  destruct (getClient_reachable w Hr) as (w1 & Hg & Hs).
  pose proof Hs as (Hdb & Hr1 & _).
  erewrite bind_ok by exact Hg.
  erewrite try_catch_ok; [eexists; split; [reflexivity | exact Hs] |].
  erewrite bind_ok by (apply exists_absent; congruence).
  reflexivity.
Qed.

(** A tool method that succeeds logs one store-operation line. *)
Lemma logged_ok (operation : string) (key : json) (failure : string)
  (summary : json -> json) (op : M json) (w w1 : world) (result : json) :
  op w = (Ok result, w1) ->
  logged operation key failure summary op w
  = (Ok result, snd (logRedisOperation operation key (summary result) None w1)).
Proof.
  intros H. unfold logged.
  erewrite try_catch_ok; [reflexivity |].
  erewrite bind_ok by exact H. reflexivity.
Qed.

Lemma key_only (v : json) : Js.prop (JObj [("key", v)]) "key" = v.
Proof. reflexivity. Qed.

(** C9.  For a key that is a non-empty string and is not in the store, with
    the store reachable, a [tools/call] of [get_data] is answered, whatever
    else the arguments hold (a requested type included), with the report
    [{key, value: null, exists: false, type: null, ttl: null}] as its text
    content; nothing is thrown and the store is unchanged.  The operation
    [getData] returns the same report. *)
Theorem C9_get_absent_key (fuel : nat) (id args : json) (k : string) (w : world) :
  Js.key_param (Js.prop args "key") = Some k ->
  reachable w = true ->
  db w !! k = None ->
  (exists w',
      handleRequest fuel (tools_call_request id "get_data" args) w
      = (Ok (response id (content (absent_report k))), w')
      /\ db w' = db w)
  /\ (exists w', getData args w = (Ok (absent_report k), w'))
  /\ absent_report k
     = JObj [("key", JStr k); ("value", JNull); ("exists", JBool false);
             ("type", JNull); ("ttl", JNull)].
Proof.
  intros Hk Hr Hd. split; [| split; [| reflexivity]].
  - rewrite (handle_tools_call fuel id "get_data" args w get_data);
      [| discriminate | reflexivity].
    rewrite (args_with_key _ _ Hk).
    unfold get_data. rewrite Hk.
    destruct (getData_absent (JObj [("key", Js.prop args "key")]) k w)
      as (w1 & Hg & Hs); [rewrite key_only; exact Hk | exact Hr | exact Hd |].
    rewrite (logged_ok _ _ _ _ _ _ _ _ Hg).
    eexists. split; [reflexivity |]. cbn. apply Hs.
  - destruct (getData_absent args k w Hk Hr Hd) as (w1 & Hg & _).
    exists w1. exact Hg.
Qed.

(** C10.  For a key that is a non-empty string and is not in the store, with
    the store reachable, a [tools/call] of [exists_key] succeeds and reports
    [exists: false] and [type: null], but its [ttl] is the marker [expired]
    (the [null] ttl falls through the reporting conditional), where [get_data]
    reports [ttl: null] for the same key. *)
Theorem C10_exists_key_reports_expired (fuel : nat) (id args : json) (k : string)
  (w : world) :
  Js.key_param (Js.prop args "key") = Some k ->
  reachable w = true ->
  db w !! k = None ->
  (exists w',
      handleRequest fuel (tools_call_request id "exists_key" args) w
      = (Ok (response id (content (absent_exists_report k))), w')
      /\ db w' = db w)
  /\ Js.prop (absent_exists_report k) "exists" = JBool false
  /\ Js.prop (absent_exists_report k) "type" = JNull
  /\ Js.prop (absent_exists_report k) "ttl" = JStr "expired"
  /\ ttl_report JNull = JStr "expired"
  /\ exists w',
      handleRequest fuel (tools_call_request id "get_data" args) w
      = (Ok (response id (content (absent_report k))), w')
      /\ Js.prop (absent_report k) "ttl" = JNull.
Proof.
  intros Hk Hr Hd.
  split; [| split; [reflexivity | split; [reflexivity | split; [reflexivity |
    split; [reflexivity |]]]]].
  - rewrite (handle_tools_call fuel id "exists_key" args w exists_key);
      [| discriminate | reflexivity].
    rewrite (args_with_key _ _ Hk).
    unfold exists_key. rewrite Hk.
    destruct (existsKey_absent (JObj [("key", Js.prop args "key")]) k w)
      as (w1 & Hg & Hs); [rewrite key_only; exact Hk | exact Hr | exact Hd |].
    rewrite (logged_ok _ _ _ _ _ _ _ _ Hg).
    eexists. split; [reflexivity |]. cbn. apply Hs.
  - rewrite (handle_tools_call fuel id "get_data" args w get_data);
      [| discriminate | reflexivity].
    rewrite (args_with_key _ _ Hk).
    unfold get_data. rewrite Hk.
    destruct (getData_absent (JObj [("key", Js.prop args "key")]) k w)
      as (w1 & Hg & Hs); [rewrite key_only; exact Hk | exact Hr | exact Hd |].
    rewrite (logged_ok _ _ _ _ _ _ _ _ Hg).
    eexists. split; [reflexivity | reflexivity].
Qed.

(** *** Inversion of successful runs *)

Lemma bind_ok_inv {A B : Type} (m : M A) (k : A -> M B) (w w' : world) (b : B) :
  bind m k w = (Ok b, w') ->
  exists a w1, m w = (Ok a, w1) /\ k a w1 = (Ok b, w').
Proof.
  unfold bind. destruct (m w) as [[a | e | c | |] w1]; try discriminate.
  intros H. exists a, w1. split; [reflexivity | exact H].
Qed.

(** A [try] whose [catch] rethrows succeeds only if its body does. *)
Lemma try_rethrow_ok_inv {A : Type} (m : M A) (prefix : string) (w w' : world)
  (a : A) :
  try_catch m (fun e => throw (prefix +:+ e)) w = (Ok a, w') ->
  m w = (Ok a, w').
Proof.
  unfold try_catch, throw.
  destruct (m w) as [[a0 | e | c | |] w1]; try discriminate. auto.
Qed.

Lemma command_ok_inv {A : Type}
  (f : gmap string entry -> (string + A) * gmap string entry)
  (w w' : world) (a : A) :
  command f w = (Ok a, w') ->
  reachable w = true /\ exists d, f (db w) = (inr a, d) /\ w' = set_db d w.
Proof.
  unfold command. destruct (reachable w); [| discriminate].
  destruct (f (db w)) as [[e | a0] d]; [discriminate |].
  intros [= -> <-]. split; [reflexivity |]. exists d. split; reflexivity.
Qed.

Lemma getClient_ok_inv (w w' : world) :
  getClient w = (Ok tt, w') -> db w' = db w /\ reachable w' = reachable w.
Proof.
  unfold getClient, createClient.
  destruct (negb (client w) || negb (isConnected w)).
  - destruct (client w && isConnected w).
    + intros [= <-]. split; reflexivity.
    + destruct (reachable w) eqn:Hr; [| discriminate].
      intros [= <-]. split; [reflexivity | exact Hr].
  - intros [= <-]. split; reflexivity.
Qed.

(** *** Writes leave the key in the store *)

Lemma client_set_written (k : string) (v r : json) (w w' : world) :
  client_set k v w = (Ok r, w') -> written k w'.
Proof.
  intros H. apply command_ok_inv in H as (Hr & d & Hf & ->).
  destruct (set_arg v); [discriminate |].
  injection Hf as _ <-. split; [exact Hr |].
  cbn. unfold Redis.set. rewrite lookup_insert_eq. eauto.
Qed.

Lemma client_setEx_written (k : string) (ttl v r : json) (w w' : world) :
  client_setEx k ttl v w = (Ok r, w') -> written k w'.
Proof.
  intros H. apply command_ok_inv in H as (Hr & d & Hf & ->).
  destruct (seconds_arg ttl) as [e | t], (client_arg v) as [e' | s];
    try discriminate.
  unfold Redis.setEx in Hf. destruct (0 <? t); [| discriminate].
  injection Hf as _ <-. split; [exact Hr |].
  cbn. rewrite lookup_insert_eq. eauto.
Qed.

(** A time-to-live that passes [ttl && ttl > 0] and that the client accepts
    is positive. *)
Lemma ttl_given_positive (ttl : json) (t : Z) :
  ttl_given ttl = true -> seconds_arg ttl = inr t -> 0 < t.
Proof.
  unfold ttl_given, gt0, seconds_arg, to_number.
  destruct ttl; try discriminate.
  - intros H [= <-]. apply andb_true_iff in H as [_ H]. lia.
  - destruct (Number_of RT (JStr s)); [| discriminate].
    intros H [= <-]. apply andb_true_iff in H as [_ H]. lia.
Qed.

Lemma client_expire_written (k : string) (ttl : json) (n : json) (w w' : world) :
  ttl_given ttl = true ->
  written k w ->
  client_expire k ttl w = (Ok n, w') -> written k w'.
Proof.
  intros Ht [_ [e He]] H.
  apply command_ok_inv in H as (Hr & d & Hf & ->).
  destruct (seconds_arg ttl) as [e' | t] eqn:Es; [discriminate |].
  pose proof (ttl_given_positive _ _ Ht Es) as Hpos.
  unfold Redis.expire in Hf. rewrite He in Hf.
  destruct (0 <? t) eqn:E; [| lia].
  injection Hf as _ <-. split; [exact Hr |].
  cbn. rewrite lookup_insert_eq. eauto.
Qed.

(** *** Creating a key twice *)

Lemma same_store_logRedisOperation (operation : string) (key result : json)
  (error : option string) (w : world) :
  same_store w (snd (logRedisOperation operation key result error w)).
Proof. apply same_store_logs. Qed.

Lemma written_same_store (k : string) (w w' : world) :
  same_store w w' -> written k w -> written k w'.
Proof. intros (Hd & Hr & _) [H1 H2]. split; congruence. Qed.

Lemma logged_ok_inv (operation : string) (key : json) (failure : string)
  (summary : json -> json) (op : M json) (w w' : world) (result : json) :
  logged operation key failure summary op w = (Ok result, w') ->
  exists w1,
    op w = (Ok result, w1)
    /\ w' = snd (logRedisOperation operation key (summary result) None w1).
Proof.
  unfold logged, try_catch, bind.
  destruct (op w) as [[r | e | c | |] w1]; try discriminate.
  intros [= <- <-]. exists w1. split; reflexivity.
Qed.

Lemma logged_throw_from (operation : string) (key : json) (failure : string)
  (summary : json -> json) (op : M json) (w w1 : world) (e : string) :
  op w = (Throw e, w1) ->
  logged operation key failure summary op w
  = (Throw (failure +:+ e),
     snd (logRedisOperation operation key JNull (Some e) w1)).
Proof.
  intros H. unfold logged.
  erewrite try_catch_throw by (apply bind_throw; exact H).
  reflexivity.
Qed.

(** A successful [createKey] was permitted and leaves the key in the store. *)
Lemma createKey_ok_inv (params : json) (k : string) (result : json)
  (w w' : world) :
  Js.key_param (Js.prop params "key") = Some k ->
  createKey params w = (Ok result, w') ->
  ALLOW_CREATE P = true /\ written k w'.
Proof.
  intros Hk. unfold createKey.
  destruct (ALLOW_CREATE P); [| discriminate]. cbn [negb].
  rewrite Hk. intros H. split; [reflexivity |].
  apply bind_ok_inv in H as ([] & wa & _ & H).
  apply try_rethrow_ok_inv in H.
  apply bind_ok_inv in H as (n & wb & _ & H).
  destruct (negb (n =? 0)); [discriminate |].
  apply bind_ok_inv in H as (r & wc & Hw & H).
  apply bind_ok_inv in H as ([] & wd & Ht & H).
  injection H as _ <-.
  assert (written k wc) as Hwc.
  { destruct (switch_type _).
    - destruct (ttl_given _);
        [eapply client_setEx_written | eapply client_set_written]; exact Hw.
    - destruct (Js.is_array _); discriminate Hw.
    - destruct (Js.is_array _); discriminate Hw.
    - discriminate.
    - destruct (Js.is_object _); [| discriminate].
      destruct (0 <? _); discriminate Hw.
    - discriminate. }
  destruct (ttl_given (Js.prop params "ttl")) eqn:Hg; cbn [andb] in Ht.
  - destruct (negb _).
    + apply bind_ok_inv in Ht as (m & we & He & Ht).
      injection Ht as <-.
      eapply client_expire_written; [exact Hg | exact Hwc | exact He].
    + injection Ht as <-. exact Hwc.
  - injection Ht as <-. exact Hwc.
Qed.

(** [createKey] on a key that is in the store fails after the existence
    check, before any write. *)
Lemma createKey_conflict (params : json) (k : string) (w : world) :
  ALLOW_CREATE P = true ->
  Js.key_param (Js.prop params "key") = Some k ->
  written k w ->
  exists w',
    createKey params w
    = (Throw ("Failed to create key: " +:+ already_exists k), w')
    /\ same_but_connection w w'.
Proof.
  intros Ha Hk [Hr [e He]]. unfold createKey. rewrite Ha, Hk. cbn [negb].
  destruct (getClient_reachable w Hr) as (w1 & Hg & Hs).
  pose proof Hs as (Hdb & Hr1 & _).
  erewrite bind_ok by exact Hg.
  assert (client_exists k w1 = (Ok 1, w1)) as Hex.
  { apply query_ok; [congruence |].
    unfold Redis.exists_. rewrite Hdb, He. reflexivity. }
  erewrite try_catch_throw
    by (erewrite bind_ok by exact Hex; reflexivity).
  eexists. split; [reflexivity | exact Hs].
Qed.

Lemma arguments_or_empty (args : json) (k : string) :
  Js.key_param (Js.prop (Js.or args (JObj [])) "key") = Some k ->
  Js.key_param (Js.prop args "key") = Some k.
Proof.
  unfold Js.or. destruct (Js.truthy args); [auto | discriminate].
Qed.

(** C7.  When a [tools/call] of [create_key] has succeeded, the same call
    repeated on the resulting state fails: the response is an error whose
    message is the conflict message [Key '<key>' already exists] behind the
    two failure prefixes, and the store after the failing call equals the
    store after the first call. *)
Theorem C7_second_create_conflicts (fuel : nat) (id args : json)
  (r1 : json) (w w1 : world) :
  handleRequest fuel (tools_call_request id "create_key" args) w = (Ok r1, w1) ->
  Js.prop r1 "error" = JUndefined ->
  exists (k : string) (w2 : world),
    Js.key_param (Js.prop args "key") = Some k
    /\ handleRequest fuel (tools_call_request id "create_key" args) w1
       = (Ok (error_response id
                (errorCode ("Failed to create key: Failed to create key: "
                            +:+ already_exists k))
                ("Failed to create key: Failed to create key: "
                 +:+ already_exists k)), w2)
    /\ contains "already exists"
         ("Failed to create key: Failed to create key: " +:+ already_exists k)
    /\ db w2 = db w1.
Proof.
  intros H1 Hok.
  rewrite (handle_tools_call fuel id "create_key" args w create_key) in H1;
    [| discriminate | reflexivity].
  destruct (create_key (Js.or args (JObj [])) w) as [[result | e | c | |] w0] eqn:E;
    try discriminate.
  2:{ injection H1 as <- _. discriminate Hok. }
  apply pair_equal_spec in H1 as [_ Hw1].
  unfold create_key in E.
  destruct (Js.key_param (Js.prop (Js.or args (JObj [])) "key")) as [k |] eqn:Hk;
    [| discriminate].
  apply logged_ok_inv in E as (w0' & Hc & ->).
  apply createKey_ok_inv with (k := k) in Hc as [Ha Hw]; [| exact Hk].
  exists k.
  assert (written k w1) as Hwr.
  { rewrite <- Hw1. eapply written_same_store; [| exact Hw].
    eapply same_store_trans;
      [apply same_store_logRedisOperation | apply same_store_logRequest]. }
  rewrite (handle_tools_call fuel id "create_key" args w1 create_key);
    [| discriminate | reflexivity].
  unfold create_key. rewrite Hk.
  destruct (createKey_conflict
              (JObj [("key", Js.prop (Js.or args (JObj [])) "key");
                     ("value", Js.default (Js.prop (Js.or args (JObj [])) "value")
                                 (JStr ""));
                     ("type", Js.default (Js.prop (Js.or args (JObj [])) "type")
                                (JStr "string"));
                     ("ttl", Js.prop (Js.or args (JObj [])) "ttl")]) k w1 Ha Hk Hwr)
    as (w2 & Hthrow & Hs).
  rewrite (logged_throw_from _ _ _ _ _ _ _ _ Hthrow).
  eexists. split; [apply arguments_or_empty, Hk |].
  split; [reflexivity |].
  split.
  - unfold already_exists.
    do 3 apply contains_prepend. exists "' ", "". reflexivity.
  - cbn. apply Hs.
Qed.

(** *** Replacing a list by the empty array *)

Lemma command_run {A : Type}
  (f : gmap string entry -> (string + A) * gmap string entry)
  (w : world) (a : A) (d : gmap string entry) :
  reachable w = true -> f (db w) = (inr a, d) -> command f w = (Ok a, set_db d w).
Proof. intros Hr Hf. unfold command. rewrite Hr, Hf. reflexivity. Qed.

(** [updateData] on a key that holds a list, with the empty array as the new
    value and no time-to-live: the key is deleted, nothing is pushed, and the
    call returns normally. *)
Lemma updateData_empty_array_deletes (params : json) (k : string) (e : entry)
  (l : list string) (w : world) :
  ALLOW_UPDATE P = true ->
  Js.key_param (Js.prop params "key") = Some k ->
  Js.prop params "value" = JArr [] ->
  ttl_given (Js.prop params "ttl") = false ->
  reachable w = true ->
  db w !! k = Some e ->
  val e = RList l ->
  exists w',
    updateData params w
    = (Ok (JObj [("key", JStr k); ("value", JArr []); ("type", JStr "list");
                 ("ttl", Js.or (Js.prop params "ttl") JNull);
                 ("result", JUndefined)]), w')
    /\ db w' = delete k (db w).
Proof.
  intros Ha Hk Hv Ht Hr He Hl. unfold updateData.
  rewrite Ha, Hk, Hv, Ht. cbn [negb Js.nullish].
  destruct (key_param_some _ _ Hk) as [-> _].
  destruct (getClient_reachable w Hr) as (w1 & Hg & Hs).
  pose proof Hs as (Hdb & Hr1 & _).
  erewrite bind_ok by exact Hg.
  assert (client_exists k w1 = (Ok 1, w1)) as Hex.
  { apply query_ok; [congruence |].
    unfold Redis.exists_. rewrite Hdb, He. reflexivity. }
  assert (client_type k w1 = (Ok "list", w1)) as Hty.
  { apply query_ok; [congruence |].
    unfold Redis.type. rewrite Hdb, He, Hl. reflexivity. }
  assert (client_del k w1 = (Ok 1, set_db (delete k (db w)) w1)) as Hdel.
  { apply command_run; [congruence |].
    unfold Redis.del. rewrite Hdb, He. reflexivity. }
  erewrite try_catch_ok; [eexists; split; [reflexivity |] |].
  2:{ erewrite bind_ok by exact Hex. cbn [Z.eqb Pos.eqb].
      erewrite bind_ok by exact Hty.
      change (switch_type (JStr "list")) with TList. cbv iota.
      erewrite bind_ok
        by (erewrite bind_ok by exact Hdel; reflexivity).
      reflexivity. }
  reflexivity.
Qed.

(** *** Computations that leave the store as it is *)

Lemma preserves_ret {A : Type} (a : A) : preserves_db (ret a).
Proof. intros w w' r [= <- <-]. reflexivity. Qed.

Lemma preserves_throw {A : Type} (e : string) : preserves_db (@throw A e).
Proof. intros w w' r [= <- <-]. reflexivity. Qed.

Lemma preserves_gets {A : Type} (f : world -> A) : preserves_db (gets f).
Proof. intros w w' r [= <- <-]. reflexivity. Qed.

Lemma preserves_bind {A B : Type} (m : M A) (k : A -> M B) :
  preserves_db m -> (forall a, preserves_db (k a)) -> preserves_db (bind m k).
Proof.
  intros Hm Hk w w' r. unfold bind.
  destruct (m w) as [[a | e | c | |] w1] eqn:E.
  - intros H. etransitivity; [exact (Hk a _ _ _ H) | exact (Hm _ _ _ E)].
  - intros [= <- <-]. exact (Hm _ _ _ E).
  - intros [= <- <-]. exact (Hm _ _ _ E).
  - intros [= <- <-]. exact (Hm _ _ _ E).
  - intros [= <- <-]. exact (Hm _ _ _ E).
Qed.

Lemma preserves_try_catch {A : Type} (m : M A) (h : string -> M A) :
  preserves_db m -> (forall e, preserves_db (h e)) -> preserves_db (try_catch m h).
Proof.
  intros Hm Hh w w' r. unfold try_catch.
  destruct (m w) as [[a | e | c | |] w1] eqn:E.
  - intros [= <- <-]. exact (Hm _ _ _ E).
  - intros H. etransitivity; [exact (Hh e _ _ _ H) | exact (Hm _ _ _ E)].
  - intros [= <- <-]. exact (Hm _ _ _ E).
  - intros [= <- <-]. exact (Hm _ _ _ E).
  - intros [= <- <-]. exact (Hm _ _ _ E).
Qed.

Lemma preserves_query {A : Type} (f : gmap string entry -> string + A) :
  preserves_db (query f).
Proof.
  intros w w' r. unfold query, command.
  destruct (reachable w); [| intros [= <- <-]; reflexivity].
  destruct (f (db w)); intros [= <- <-]; reflexivity.
Qed.

Lemma preserves_getClient : preserves_db getClient.
Proof.
  intros w w' r. unfold getClient, createClient.
  destruct (negb (client w) || negb (isConnected w));
    [destruct (client w && isConnected w); [| destruct (reachable w)] |];
    intros [= <- <-]; reflexivity.
Qed.

Lemma preserves_logRedisOperation (operation : string) (key result : json)
  (error : option string) :
  preserves_db (logRedisOperation operation key result error).
Proof. intros w w' r [= <- <-]. reflexivity. Qed.

Lemma preserves_logRequest (method params result : json) (error : option string) :
  preserves_db (logRequest method params result error).
Proof. intros w w' r [= <- <-]. reflexivity. Qed.

Lemma preserves_mapM {A B : Type} (f : A -> M B) (l : list A) :
  (forall a, preserves_db (f a)) -> preserves_db (mapM f l).
Proof.
  intros Hf. induction l as [| a l IH]; cbn [mapM].
  - apply preserves_ret.
  - apply preserves_bind; [apply Hf | intros b].
    apply preserves_bind; [exact IH | intros bs]. apply preserves_ret.
Qed.

Lemma preserves_logged (operation : string) (key : json) (failure : string)
  (summary : json -> json) (op : M json) :
  preserves_db op -> preserves_db (logged operation key failure summary op).
Proof.
  intros H. unfold logged. apply preserves_try_catch.
  - apply preserves_bind; [exact H | intros result].
    apply preserves_bind; [apply preserves_logRedisOperation | intros _].
    apply preserves_ret.
  - intros e.
    apply preserves_bind; [apply preserves_logRedisOperation | intros _].
    apply preserves_throw.
Qed.

(** One step of a proof that a computation leaves the store as it is. *)
Ltac preserve_step :=
  match goal with
  | |- preserves_db (ret _) => apply preserves_ret
  | |- preserves_db (throw _) => apply preserves_throw
  | |- preserves_db (gets _) => apply preserves_gets
  | |- preserves_db getClient => apply preserves_getClient
  | |- preserves_db (query _) => apply preserves_query
  | |- preserves_db (logged _ _ _ _ _) => apply preserves_logged
  | |- preserves_db (logRedisOperation _ _ _ _) => apply preserves_logRedisOperation
  | |- preserves_db (logRequest _ _ _ _) => apply preserves_logRequest
  | |- preserves_db (mapM _ _) => apply preserves_mapM; intros
  | |- preserves_db (bind _ _) => apply preserves_bind; [| intros]
  | |- preserves_db (try_catch _ _) => apply preserves_try_catch; [| intros]
  | |- preserves_db (if ?b then _ else _) => destruct b
  | |- preserves_db (match ?x with _ => _ end) => destruct x
  end.

Ltac preserve := repeat preserve_step.

Lemma preserves_getData (params : json) : preserves_db (getData params).
Proof.
  unfold getData, client_exists, client_type, client_ttl, client_get,
    client_llen, client_lrange, client_smembers, client_zrange, client_hgetall,
    missing_member.
  preserve.
Qed.

Lemma preserves_existsKey (params : json) : preserves_db (existsKey params).
Proof. unfold existsKey, client_exists, client_type, client_ttl. preserve. Qed.

Lemma preserves_getKeyInfo (params : json) : preserves_db (getKeyInfo params).
Proof.
  unfold getKeyInfo, client_exists, client_type, client_ttl, client_strlen,
    client_llen, client_scard, client_zcard, client_hlen, missing_member.
  preserve.
Qed.

Lemma preserves_listKeys (params : json) : preserves_db (listKeys params).
Proof.
  unfold listKeys, client_keys.
  preserve; unfold client_type, client_ttl; preserve.
Qed.

Lemma preserves_testConnection : preserves_db testConnection.
Proof. unfold testConnection, client_ping. preserve. Qed.

Lemma preserves_reading_tool (self : json -> M json) (w0 : world) (tool : string)
  (f : json -> M json) (args : json) :
  In tool reading_tools ->
  this_member self w0 tool = Some f ->
  preserves_db (f args).
Proof.
  unfold reading_tools. cbn [In].
  intros [<- | [<- | [<- | [<- | [<- | [<- | [<- | []]]]]]]] [= <-].
  - unfold get_data. preserve. apply preserves_getData.
  - unfold list_keys. preserve. apply preserves_listKeys.
  - unfold exists_key. preserve. apply preserves_existsKey.
  - unfold get_key_info. preserve. apply preserves_getKeyInfo.
  - unfold test_connection, redisInfo_testConnection, getConnectionInfo.
    preserve. apply preserves_testConnection.
  - unfold get_operation_logs. preserve.
  - unfold check_permissions, getConnectionInfo. preserve.
Qed.

(** X1.  A [tools/call] of a tool that only reads ([get_data], [list_keys],
    [exists_key], [get_key_info], [test_connection], [get_operation_logs],
    [check_permissions]) leaves the contents of the store as they were,
    whatever the arguments, the state of the connection and the outcome of the
    call. *)
Theorem X1_reading_tools_leave_store (fuel : nat) (id args : json) (w : world) :
  Forall
    (fun tool =>
       db (snd (handleRequest fuel (tools_call_request id tool args) w)) = db w)
    reading_tools.
Proof.
  apply List.Forall_forall. intros tool Hin.
  assert (exists f, this_member (self_of fuel) w tool = Some f) as [f Hf].
  { unfold reading_tools in Hin. cbn [In] in Hin.
    destruct Hin as [<- | [<- | [<- | [<- | [<- | [<- | [<- | []]]]]]]];
      eexists; reflexivity. }
  assert (tool <> "") as Hne.
  { intros ->. unfold reading_tools in Hin. cbn [In] in Hin.
    repeat destruct Hin as [Hin | Hin]; try discriminate; contradiction. }
  rewrite (handle_tools_call fuel id tool args w f Hne Hf).
  pose proof (preserves_reading_tool _ _ _ _ (Js.or args (JObj [])) Hin Hf) as Hp.
  destruct (f (Js.or args (JObj [])) w) as [[result | e | c | |] w1] eqn:E;
    cbn [snd]; exact (Hp _ _ _ E).
Qed.

(** *** Reading a key that is in the store *)

Lemma exists_present (k : string) (e : entry) (w : world) :
  reachable w = true -> db w !! k = Some e -> client_exists k w = (Ok 1, w).
Proof.
  intros Hr Hk. apply query_ok; [exact Hr |].
  unfold Redis.exists_. rewrite Hk. reflexivity.
Qed.

Lemma type_present (k : string) (e : entry) (w : world) :
  reachable w = true -> db w !! k = Some e ->
  client_type k w = (Ok (type_name (val e)), w).
Proof.
  intros Hr Hk. apply query_ok; [exact Hr |].
  unfold Redis.type. rewrite Hk. destruct (val e); reflexivity.
Qed.

Lemma ttl_present (k : string) (e : entry) (w : world) :
  reachable w = true -> db w !! k = Some e ->
  client_ttl k w
  = (Ok (match expiry e with None => -1 | Some t => t end), w).
Proof.
  intros Hr Hk. apply query_ok; [exact Hr |].
  unfold Redis.ttl. rewrite Hk. reflexivity.
Qed.

(** What [getData] comes to for a key that holds [e]: the report of a string,
    or the failure of the first call the branch of the type makes, on a
    member the client does not have. *)
Lemma getData_present (params : json) (k : string) (e : entry) (w : world) :
  Js.key_param (Js.prop params "key") = Some k ->
  reachable w = true ->
  db w !! k = Some e ->
  exists w',
    getData params w
    = (match val e with
       | RString s =>
           Ok (JObj [("key", JStr k); ("value", JStr s); ("exists", JBool true);
                     ("type", JStr "string"); ("ttl", ttl_marker e)])
       | RList _ => Throw "Failed to get data: client.llen is not a function"
       | RSet _ => Throw "Failed to get data: client.smembers is not a function"
       | RZSet _ => Throw "Failed to get data: client.zrange is not a function"
       | RHash _ => Throw "Failed to get data: client.hgetall is not a function"
       end, w')
    /\ same_but_connection w w'.
Proof.
  intros Hk Hr He. unfold getData. rewrite Hk.
  destruct (key_param_some _ _ Hk) as [-> _].
  destruct (getClient_reachable w Hr) as (w1 & Hg & Hs).
  pose proof Hs as (Hdb & Hr1 & _).
  assert (reachable w1 = true) as Hr' by congruence.
  assert (db w1 !! k = Some e) as He' by congruence.
  erewrite bind_ok by exact Hg.
  unfold ttl_marker.
  destruct (val e) eqn:Ev.
  - erewrite try_catch_ok; [eexists; split; [reflexivity | exact Hs] |].
    erewrite bind_ok by (eapply exists_present; eassumption).
    cbn [Z.eqb Pos.eqb].
    erewrite bind_ok by (eapply type_present; eassumption).
    erewrite bind_ok by (eapply ttl_present; eassumption).
    rewrite Ev. cbn [type_name].
    change (switch_type (JStr "string")) with TString. cbv iota.
    erewrite bind_ok; [reflexivity |].
    apply query_ok; [exact Hr' |]. unfold Redis.get. rewrite He', Ev. reflexivity.
  - erewrite try_catch_throw; [eexists; split; [reflexivity | exact Hs] |].
    erewrite bind_ok by (eapply exists_present; eassumption).
    cbn [Z.eqb Pos.eqb].
    erewrite bind_ok by (eapply type_present; eassumption).
    erewrite bind_ok by (eapply ttl_present; eassumption).
    rewrite Ev. reflexivity.
  - erewrite try_catch_throw; [eexists; split; [reflexivity | exact Hs] |].
    erewrite bind_ok by (eapply exists_present; eassumption).
    cbn [Z.eqb Pos.eqb].
    erewrite bind_ok by (eapply type_present; eassumption).
    erewrite bind_ok by (eapply ttl_present; eassumption).
    rewrite Ev. reflexivity.
  - erewrite try_catch_throw; [eexists; split; [reflexivity | exact Hs] |].
    erewrite bind_ok by (eapply exists_present; eassumption).
    cbn [Z.eqb Pos.eqb].
    erewrite bind_ok by (eapply type_present; eassumption).
    erewrite bind_ok by (eapply ttl_present; eassumption).
    rewrite Ev. reflexivity.
  - erewrite try_catch_throw; [eexists; split; [reflexivity | exact Hs] |].
    erewrite bind_ok by (eapply exists_present; eassumption).
    cbn [Z.eqb Pos.eqb].
    erewrite bind_ok by (eapply type_present; eassumption).
    erewrite bind_ok by (eapply ttl_present; eassumption).
    rewrite Ev. reflexivity.
Qed.

(** X2.  For a key that is a non-empty string and is in a reachable store,
    [getData] returns the value only when the key holds a string: the report
    has [exists: true], type [string], the string and the time-to-live marker.
    For a key that holds a list, a set, a sorted set or a hash it fails, with
    the message of the [TypeError] of the first call of its branch behind the
    prefix of the operation, because the client has no member [llen],
    [smembers], [zrange] or [hgetall].  The store is unchanged in every
    case. *)
Theorem X2_get_present_key (params : json) (k : string) (e : entry) (w : world) :
  Js.key_param (Js.prop params "key") = Some k ->
  reachable w = true ->
  db w !! k = Some e ->
  exists w',
    getData params w
    = (match val e with
       | RString s =>
           Ok (JObj [("key", JStr k); ("value", JStr s); ("exists", JBool true);
                     ("type", JStr "string"); ("ttl", ttl_marker e)])
       | RList _ => Throw "Failed to get data: client.llen is not a function"
       | RSet _ => Throw "Failed to get data: client.smembers is not a function"
       | RZSet _ => Throw "Failed to get data: client.zrange is not a function"
       | RHash _ => Throw "Failed to get data: client.hgetall is not a function"
       end, w')
    /\ db w' = db w.
Proof.
  intros Hk Hr He.
  destruct (getData_present params k e w Hk Hr He) as (w' & H & Hs).
  exists w'. split; [exact H | apply Hs].
Qed.

(** *** Writes and the values read back *)

Lemma client_del_run (k : string) (w : world) :
  reachable w = true ->
  client_del k w = (Ok (Redis.exists_ k (db w)), set_db (delete k (db w)) w).
Proof.
  intros Hr. apply command_run; [exact Hr |].
  unfold Redis.del, Redis.exists_.
  destruct (db w !! k) eqn:E; [reflexivity |].
  rewrite (delete_id _ _ E). reflexivity.
Qed.

Lemma ttl_given_param (t : option Z) :
  positive_ttl t ->
  ttl_given (ttl_param t) = match t with Some _ => true | None => false end.
Proof.
  destruct t as [n |]; cbn; [| reflexivity].
  intros H. unfold ttl_given, gt0. cbn.
  destruct (Z.eqb_spec n 0); [lia |].
  destruct (Z.ltb_spec 0 n); [reflexivity | lia].
Qed.

Lemma ttl_param_or_null (t : option Z) :
  positive_ttl t ->
  Js.or (ttl_param t) JNull = match t with Some n => JNum n | None => JNull end.
Proof.
  destruct t as [n |]; cbn; [| reflexivity].
  intros H. unfold Js.or. cbn. destruct (Z.eqb_spec n 0); [lia | reflexivity].
Qed.

Lemma client_set_run (k v : string) (w : world) :
  reachable w = true ->
  client_set k (JStr v) w
  = (Ok (JStr "OK"),
     set_db (<[k := {| val := RString v; expiry := None |}]> (db w)) w).
Proof. intros Hr. apply command_run; [exact Hr | reflexivity]. Qed.

Lemma client_setEx_run (k v : string) (n : Z) (w : world) :
  reachable w = true ->
  0 < n ->
  client_setEx k (JNum n) (JStr v) w
  = (Ok (JStr "OK"),
     set_db (<[k := {| val := RString v; expiry := Some n |}]> (db w)) w).
Proof.
  intros Hr Hn. apply command_run; [exact Hr |].
  cbn [seconds_arg client_arg]. unfold Redis.setEx.
  destruct (Z.ltb_spec 0 n); [reflexivity | lia].
Qed.

Lemma client_expire_run (k : string) (n : Z) (e : entry) (w : world) :
  reachable w = true ->
  db w !! k = Some e ->
  0 < n ->
  client_expire k (JNum n) w
  = (Ok (change_reply 1),
     set_db (<[k := {| val := val e; expiry := Some n |}]> (db w)) w).
Proof.
  intros Hr He Hn. apply command_run; [exact Hr |].
  cbn [seconds_arg]. unfold Redis.expire. rewrite He.
  destruct (Z.ltb_spec 0 n); [reflexivity | lia].
Qed.

Lemma setData_string (params : json) (k v : string) (t : option Z) (w : world) :
  ALLOW_INSERT P = true ->
  Js.key_param (Js.prop params "key") = Some k ->
  Js.prop params "value" = JStr v ->
  Js.default (Js.prop params "type") (JStr "string") = JStr "string" ->
  Js.prop params "ttl" = ttl_param t ->
  positive_ttl t ->
  reachable w = true ->
  exists w',
    setData params w
    = (Ok (JObj [("key", JStr k); ("value", JStr v); ("type", JStr "string");
                 ("ttl", match t with Some n => JNum n | None => JNull end);
                 ("result", JStr "OK")]), w')
    /\ reachable w' = true
    /\ db w' = <[k := {| val := RString v; expiry := t |}]> (db w).
Proof.
  intros Ha Hk Hv Hty Httl Ht Hr. unfold setData.
  rewrite Ha, Hk, Hv, Hty, Httl. cbn [negb Js.nullish].
  destruct (key_param_some _ _ Hk) as [-> _].
  destruct (getClient_reachable w Hr) as (w1 & Hg & Hs).
  pose proof Hs as (Hdb & Hr1 & _).
  assert (reachable w1 = true) as Hr' by congruence.
  erewrite bind_ok by exact Hg.
  change (switch_type (JStr "string")) with TString. cbv iota.
  change (Js.is_str (JStr "string") "string") with true. cbn [negb].
  rewrite andb_false_r, (ttl_given_param t Ht), (ttl_param_or_null t Ht).
  destruct t as [n |]; cbn [ttl_param].
  - erewrite try_catch_ok.
    2:{ erewrite bind_ok by (apply client_setEx_run; [exact Hr' | exact Ht]).
        reflexivity. }
    eexists. split; [reflexivity |]. split; [exact Hr' |].
    cbn. rewrite Hdb. reflexivity.
  - erewrite try_catch_ok.
    2:{ erewrite bind_ok by (apply client_set_run; exact Hr'). reflexivity. }
    eexists. split; [reflexivity |]. split; [exact Hr' |].
    cbn. rewrite Hdb. reflexivity.
Qed.

(** X3.  With insert allowed and the store reachable, [setData] of a string
    value under a non-empty key, with type [string] (or none) and an optional
    positive time-to-live, answers [OK] and makes the key hold exactly that
    string, replacing whatever was there; a following [getData] of the key
    returns the same string, with type [string] and the time-to-live that was
    given, or the marker [persistent] when none was. *)
Theorem X3_set_then_get_string (params : json) (k v : string) (t : option Z)
  (w : world) :
  ALLOW_INSERT P = true ->
  Js.key_param (Js.prop params "key") = Some k ->
  Js.prop params "value" = JStr v ->
  Js.default (Js.prop params "type") (JStr "string") = JStr "string" ->
  Js.prop params "ttl" = ttl_param t ->
  positive_ttl t ->
  reachable w = true ->
  exists w1 w2,
    setData params w
    = (Ok (JObj [("key", JStr k); ("value", JStr v); ("type", JStr "string");
                 ("ttl", match t with Some n => JNum n | None => JNull end);
                 ("result", JStr "OK")]), w1)
    /\ db w1 = <[k := {| val := RString v; expiry := t |}]> (db w)
    /\ getData (JObj [("key", JStr k)]) w1
       = (Ok (JObj [("key", JStr k); ("value", JStr v); ("exists", JBool true);
                    ("type", JStr "string");
                    ("ttl", match t with
                            | Some n => JNum n
                            | None => JStr "persistent"
                            end)]), w2)
    /\ db w2 = db w1.
Proof.
  intros Ha Hk Hv Hty Httl Ht Hr.
  destruct (setData_string params k v t w Ha Hk Hv Hty Httl Ht Hr)
    as (w1 & Hset & Hr1 & Hd1).
  destruct (getData_present (JObj [("key", JStr k)]) k
              {| val := RString v; expiry := t |} w1) as (w2 & Hget & Hs).
  - cbn. destruct (key_param_some _ _ Hk) as [_ Hne].
    destruct (String.eqb_spec k ""); [contradiction | reflexivity].
  - exact Hr1.
  - rewrite Hd1. apply lookup_insert_eq.
  - exists w1, w2. split; [exact Hset |]. split; [exact Hd1 |].
    split; [| apply Hs].
    rewrite Hget. unfold ttl_marker. cbn [val expiry].
    destruct t as [n |]; [| reflexivity].
    cbn in Ht. unfold ttl_report, gt0. cbn [to_number].
    destruct (Z.ltb_spec 0 n); [reflexivity | lia].
Qed.

(** *** Writes of lists, sets and hashes

    The branches of [setData] for the types [list], [set] and [hash] end in a
    call of [client.lpush], [client.sadd] or [client.hset], which the client
    does not have. *)

(** X4.  With insert allowed and the store reachable, [setData] with type
    [list] and an array as the value, empty or not, deletes the key and then
    fails with [Failed to set data: client.lpush is not a function]: no list
    is written, and what the key held is lost. *)
Theorem X4_set_list_array_deletes_and_fails (params : json) (k : string)
  (items : list json) (w : world) :
  ALLOW_INSERT P = true ->
  Js.key_param (Js.prop params "key") = Some k ->
  Js.prop params "value" = JArr items ->
  Js.prop params "type" = JStr "list" ->
  reachable w = true ->
  exists w',
    setData params w
    = (Throw "Failed to set data: client.lpush is not a function", w')
    /\ db w' = delete k (db w)
    /\ db w' !! k = None.
Proof.
  intros Ha Hk Hv Hty Hr. unfold setData.
  rewrite Ha, Hk, Hv, Hty. cbn [negb Js.nullish Js.default Js.is_array items_of].
  destruct (getClient_reachable w Hr) as (w1 & Hg & Hs).
  pose proof Hs as (Hdb & Hr1 & _).
  assert (reachable w1 = true) as Hr' by congruence.
  erewrite bind_ok by exact Hg.
  change (switch_type (JStr "list")) with TList. cbv iota.
  erewrite try_catch_throw.
  2:{ apply bind_throw.
      erewrite bind_ok by (apply client_del_run; exact Hr').
      destruct (0 <? Z.of_nat (length items)); reflexivity. }
  eexists. split; [reflexivity |]. cbn. rewrite Hdb.
  split; [reflexivity | apply lookup_delete_eq].
Qed.

(** X5.  With insert allowed and the store reachable, [setData] with type
    [set] and an array with at least one element deletes the key and then
    fails with [Failed to set data: client.sadd is not a function]: no set is
    written, and what the key held is lost. *)
Theorem X5_set_set_array_deletes_and_fails (params : json) (k : string)
  (item : json) (items : list json) (w : world) :
  ALLOW_INSERT P = true ->
  Js.key_param (Js.prop params "key") = Some k ->
  Js.prop params "value" = JArr (item :: items) ->
  Js.prop params "type" = JStr "set" ->
  reachable w = true ->
  exists w',
    setData params w
    = (Throw "Failed to set data: client.sadd is not a function", w')
    /\ db w' = delete k (db w)
    /\ db w' !! k = None.
Proof.
  intros Ha Hk Hv Hty Hr. unfold setData.
  rewrite Ha, Hk, Hv, Hty. cbn [negb Js.nullish Js.default Js.is_array items_of].
  destruct (getClient_reachable w Hr) as (w1 & Hg & Hs).
  pose proof Hs as (Hdb & Hr1 & _).
  assert (reachable w1 = true) as Hr' by congruence.
  erewrite bind_ok by exact Hg.
  change (switch_type (JStr "set")) with TSet. cbv iota.
  erewrite try_catch_throw.
  2:{ apply bind_throw.
      erewrite bind_ok by (apply client_del_run; exact Hr').
      assert ((0 <? Z.of_nat (length (item :: items))) = true) as ->
          by (apply Z.ltb_lt; cbn [length]; lia).
      reflexivity. }
  eexists. split; [reflexivity |]. cbn. rewrite Hdb.
  split; [reflexivity | apply lookup_delete_eq].
Qed.

(** X6.  With insert allowed and the store reachable, [setData] with type
    [hash] and an object with at least one field deletes the key and then
    fails with [Failed to set data: client.hset is not a function]: no hash is
    written, and what the key held is lost. *)
Theorem X6_set_hash_object_deletes_and_fails (params : json) (k : string)
  (field : string * json) (fields : list (string * json)) (w : world) :
  ALLOW_INSERT P = true ->
  Js.key_param (Js.prop params "key") = Some k ->
  Js.prop params "value" = JObj (field :: fields) ->
  Js.prop params "type" = JStr "hash" ->
  reachable w = true ->
  exists w',
    setData params w
    = (Throw "Failed to set data: client.hset is not a function", w')
    /\ db w' = delete k (db w)
    /\ db w' !! k = None.
Proof.
  intros Ha Hk Hv Hty Hr. unfold setData.
  rewrite Ha, Hk, Hv, Hty.
  cbn [negb Js.nullish Js.default Js.is_object Js.entries].
  destruct (getClient_reachable w Hr) as (w1 & Hg & Hs).
  pose proof Hs as (Hdb & Hr1 & _).
  assert (reachable w1 = true) as Hr' by congruence.
  erewrite bind_ok by exact Hg.
  change (switch_type (JStr "hash")) with THash. cbv iota.
  erewrite try_catch_throw.
  2:{ apply bind_throw.
      erewrite bind_ok by (apply client_del_run; exact Hr').
      assert ((0 <? Z.of_nat (length (field :: fields))) = true) as ->
          by (apply Z.ltb_lt; cbn [length]; lia).
      reflexivity. }
  eexists. split; [reflexivity |]. cbn. rewrite Hdb.
  split; [reflexivity | apply lookup_delete_eq].
Qed.

(** *** Deleting, dropping and updating *)

Lemma deleteData_run (params : json) (k : string) (w : world) :
  ALLOW_DELETE P = true ->
  Js.key_param (Js.prop params "key") = Some k ->
  reachable w = true ->
  exists w',
    deleteData params w
    = (Ok (match db w !! k with
           | Some _ =>
               JObj [("key", JStr k); ("deleted", JBool true); ("result", JNum 1)]
           | None =>
               JObj [("key", JStr k); ("deleted", JBool false);
                     ("message", JStr "Key does not exist")]
           end), w')
    /\ db w' = delete k (db w).
Proof.
  intros Ha Hk Hr. unfold deleteData. rewrite Ha, Hk. cbn [negb].
  destruct (key_param_some _ _ Hk) as [-> _].
  destruct (getClient_reachable w Hr) as (w1 & Hg & Hs).
  pose proof Hs as (Hdb & Hr1 & _).
  assert (reachable w1 = true) as Hr' by congruence.
  erewrite bind_ok by exact Hg.
  destruct (db w !! k) as [e |] eqn:He.
  - erewrite try_catch_ok.
    2:{ erewrite bind_ok
          by (eapply exists_present; [exact Hr' | rewrite Hdb; exact He]).
        cbn [Z.eqb Pos.eqb].
        erewrite bind_ok by (apply client_del_run; exact Hr').
        unfold Redis.exists_. rewrite Hdb, He. reflexivity. }
    eexists. split; [reflexivity |]. cbn. rewrite ?Hdb. reflexivity.
  - erewrite try_catch_ok.
    2:{ erewrite bind_ok
          by (eapply exists_absent; [exact Hr' | rewrite Hdb; exact He]).
        reflexivity. }
    eexists. split; [reflexivity |]. rewrite Hdb. symmetry. apply delete_id, He.
Qed.

Lemma dropKey_run (params : json) (k : string) (w : world) :
  ALLOW_DROP P = true ->
  Js.key_param (Js.prop params "key") = Some k ->
  reachable w = true ->
  exists w',
    dropKey params w
    = (Ok (match db w !! k with
           | Some _ =>
               JObj [("key", JStr k); ("dropped", JBool true); ("result", JNum 1)]
           | None =>
               JObj [("key", JStr k); ("dropped", JBool false);
                     ("message", JStr "Key does not exist")]
           end), w')
    /\ db w' = delete k (db w).
Proof.
  intros Ha Hk Hr. unfold dropKey. rewrite Ha, Hk. cbn [negb].
  destruct (key_param_some _ _ Hk) as [-> _].
  destruct (getClient_reachable w Hr) as (w1 & Hg & Hs).
  pose proof Hs as (Hdb & Hr1 & _).
  assert (reachable w1 = true) as Hr' by congruence.
  erewrite bind_ok by exact Hg.
  destruct (db w !! k) as [e |] eqn:He.
  - erewrite try_catch_ok.
    2:{ erewrite bind_ok
          by (eapply exists_present; [exact Hr' | rewrite Hdb; exact He]).
        cbn [Z.eqb Pos.eqb].
        erewrite bind_ok by (apply client_del_run; exact Hr').
        unfold Redis.exists_. rewrite Hdb, He. reflexivity. }
    eexists. split; [reflexivity |]. cbn. rewrite ?Hdb. reflexivity.
  - erewrite try_catch_ok.
    2:{ erewrite bind_ok
          by (eapply exists_absent; [exact Hr' | rewrite Hdb; exact He]).
        reflexivity. }
    eexists. split; [reflexivity |]. rewrite Hdb. symmetry. apply delete_id, He.
Qed.

(** X7.  With the permission given and the store reachable, [deleteData] and
    [dropKey] of a non-empty key never raise: on a key that is in the store
    they remove it and report [deleted: true] (resp. [dropped: true]) with
    result 1; on a key that is not, they report [deleted: false] (resp.
    [dropped: false]) with the message [Key does not exist] and change
    nothing.  In both cases the key is not in the store afterwards and every
    other key is as before. *)
Theorem X7_delete_and_drop (params : json) (k : string) (w : world) :
  Js.key_param (Js.prop params "key") = Some k ->
  reachable w = true ->
  (ALLOW_DELETE P = true ->
   exists w',
     deleteData params w
     = (Ok (match db w !! k with
            | Some _ =>
                JObj [("key", JStr k); ("deleted", JBool true); ("result", JNum 1)]
            | None =>
                JObj [("key", JStr k); ("deleted", JBool false);
                      ("message", JStr "Key does not exist")]
            end), w')
     /\ db w' !! k = None
     /\ forall k', k' <> k -> db w' !! k' = db w !! k')
  /\ (ALLOW_DROP P = true ->
      exists w',
        dropKey params w
        = (Ok (match db w !! k with
               | Some _ =>
                   JObj [("key", JStr k); ("dropped", JBool true); ("result", JNum 1)]
               | None =>
                   JObj [("key", JStr k); ("dropped", JBool false);
                         ("message", JStr "Key does not exist")]
               end), w')
        /\ db w' !! k = None
        /\ forall k', k' <> k -> db w' !! k' = db w !! k').
Proof.
  intros Hk Hr. split; intros Ha.
  - destruct (deleteData_run params k w Ha Hk Hr) as (w' & H & Hd).
    exists w'. split; [exact H |]. rewrite Hd.
    split; [apply lookup_delete_eq |].
    intros k' Hne. apply lookup_delete_ne. congruence.
  - destruct (dropKey_run params k w Ha Hk Hr) as (w' & H & Hd).
    exists w'. split; [exact H |]. rewrite Hd.
    split; [apply lookup_delete_eq |].
    intros k' Hne. apply lookup_delete_ne. congruence.
Qed.

(** X8.  With update allowed and the store reachable, [updateData] on a key
    that is not in the store fails with [Failed to update data: Key '<key>'
    does not exist] after the existence check, and the store is unchanged. *)
Theorem X8_update_absent_key (params : json) (k : string) (w : world) :
  ALLOW_UPDATE P = true ->
  Js.key_param (Js.prop params "key") = Some k ->
  Js.nullish (Js.prop params "value") = false ->
  reachable w = true ->
  db w !! k = None ->
  exists w',
    updateData params w
    = (Throw ("Failed to update data: Key '" +:+ k +:+ "' does not exist"), w')
    /\ db w' = db w.
Proof.
  intros Ha Hk Hv Hr He. unfold updateData. rewrite Ha, Hk, Hv. cbn [negb].
  destruct (getClient_reachable w Hr) as (w1 & Hg & Hs).
  pose proof Hs as (Hdb & Hr1 & _).
  erewrite bind_ok by exact Hg.
  erewrite try_catch_throw.
  2:{ erewrite bind_ok by (eapply exists_absent; congruence). reflexivity. }
  eexists. split; [reflexivity | exact Hdb].
Qed.

(** X9.  With update allowed and the store reachable, [updateData] on a key
    that holds a hash, with a new value that is not an object (a string, a
    number, a boolean), fails with [Failed to update data: Hash value must be
    an object]; the key has been deleted before the value is inspected, so
    after the failed call the key is no longer in the store. *)
Theorem X9_update_hash_with_scalar_deletes (params : json) (k : string)
  (e : entry) (h : list (string * string)) (w : world) :
  ALLOW_UPDATE P = true ->
  Js.key_param (Js.prop params "key") = Some k ->
  Js.nullish (Js.prop params "value") = false ->
  Js.is_object (Js.prop params "value") = false ->
  reachable w = true ->
  db w !! k = Some e ->
  val e = RHash h ->
  exists w',
    updateData params w
    = (Throw "Failed to update data: Hash value must be an object", w')
    /\ db w' = delete k (db w)
    /\ db w' !! k = None.
Proof.
  intros Ha Hk Hv Ho Hr He Hh. unfold updateData. rewrite Ha, Hk, Hv, Ho.
  cbn [negb].
  destruct (getClient_reachable w Hr) as (w1 & Hg & Hs).
  pose proof Hs as (Hdb & Hr1 & _).
  assert (reachable w1 = true) as Hr' by congruence.
  assert (db w1 !! k = Some e) as He' by congruence.
  erewrite bind_ok by exact Hg.
  erewrite try_catch_throw.
  2:{ erewrite bind_ok by (eapply exists_present; eassumption).
      cbn [Z.eqb Pos.eqb].
      erewrite bind_ok by (eapply type_present; eassumption).
      rewrite Hh. cbn [type_name].
      change (switch_type (JStr "hash")) with THash. cbv iota.
      erewrite bind_throw; [reflexivity |].
      erewrite bind_ok by (apply client_del_run; exact Hr').
      reflexivity. }
  eexists. split; [reflexivity |]. cbn. rewrite Hdb.
  split; [reflexivity | apply lookup_delete_eq].
Qed.

(** *** Creating and renaming keys *)

(** X10.  With create allowed, the store reachable and the key not in the
    store: [createKey] with nothing but the key creates the key holding the
    empty string and reports [created: true]; [createKey] with type [list] or
    [set], whatever the value, or with type [hash] and an object, empty or
    not, fails with the message of the [TypeError] of [client.lpush],
    [client.sadd] or [client.hset] behind the prefix of the operation, and no
    key is created. *)
Theorem X10_create_defaults (params : json) (k : string) (w : world) :
  ALLOW_CREATE P = true ->
  Js.key_param (Js.prop params "key") = Some k ->
  Js.prop params "ttl" = JUndefined ->
  reachable w = true ->
  db w !! k = None ->
  (Js.prop params "value" = JUndefined ->
   Js.prop params "type" = JUndefined ->
   exists w',
     createKey params w
     = (Ok (JObj [("key", JStr k); ("value", JStr ""); ("type", JStr "string");
                  ("ttl", JNull); ("created", JBool true);
                  ("result", JStr "OK")]), w')
     /\ db w' = <[k := {| val := RString ""; expiry := None |}]> (db w))
  /\ forall member,
      (Js.prop params "type" = JStr "list" /\ member = "lpush")
      \/ (Js.prop params "type" = JStr "set" /\ member = "sadd")
      \/ (Js.prop params "type" = JStr "hash" /\ member = "hset"
          /\ Js.is_object (Js.default (Js.prop params "value") (JStr "")) = true) ->
      exists w',
        createKey params w
        = (Throw ("Failed to create key: client." +:+ member
                  +:+ " is not a function"), w')
        /\ db w' = db w.
Proof.
  intros Ha Hk Httl Hr He.
  destruct (key_param_some _ _ Hk) as [Hkey _].
  destruct (getClient_reachable w Hr) as (w1 & Hg & Hs).
  pose proof Hs as (Hdb & Hr1 & _).
  assert (reachable w1 = true) as Hr' by congruence.
  assert (db w1 !! k = None) as He' by congruence.
  split.
  - intros Hv Hty. unfold createKey.
    rewrite Ha, Hk, Hv, Hty, Httl, Hkey. cbn [negb Js.default].
    erewrite bind_ok by exact Hg.
    erewrite try_catch_ok.
    2:{ erewrite bind_ok by (eapply exists_absent; eassumption).
        cbn [Z.eqb negb].
        change (switch_type (JStr "string")) with TString. cbv iota.
        change (ttl_given JUndefined) with false. cbv iota. cbn [andb].
        erewrite bind_ok by (apply client_set_run; exact Hr').
        reflexivity. }
    eexists. split; [reflexivity |]. cbn. rewrite Hdb. reflexivity.
  - intros member Hcase. unfold createKey. rewrite Ha, Hk, Httl.
    cbn [negb]. erewrite bind_ok by exact Hg.
    destruct Hcase as [[Hty ->] | [[Hty ->] | (Hty & -> & Hobj)]];
      rewrite Hty; cbn [Js.default].
    + change (switch_type (JStr "list")) with TList. cbv iota.
      erewrite try_catch_throw.
      2:{ erewrite bind_ok by (eapply exists_absent; eassumption).
          cbn [Z.eqb negb]. apply bind_throw.
          destruct (Js.is_array _); reflexivity. }
      eexists. split; [reflexivity | exact Hdb].
    + change (switch_type (JStr "set")) with TSet. cbv iota.
      erewrite try_catch_throw.
      2:{ erewrite bind_ok by (eapply exists_absent; eassumption).
          cbn [Z.eqb negb]. apply bind_throw.
          destruct (Js.is_array _); reflexivity. }
      eexists. split; [reflexivity | exact Hdb].
    + change (switch_type (JStr "hash")) with THash. cbv iota.
      rewrite Hobj.
      erewrite try_catch_throw.
      2:{ erewrite bind_ok by (eapply exists_absent; eassumption).
          cbn [Z.eqb negb]. apply bind_throw.
          destruct (0 <? _); reflexivity. }
      eexists. split; [reflexivity | exact Hdb].
Qed.

(** X11.  With create and drop allowed and the store reachable, [renameKey]
    of two non-empty keys: fails with [Source key '<old>' does not exist] when
    the old key is not in the store, and with [Target key '<new>' already
    exists] when the new key is (renaming a key onto itself included), the
    store being unchanged in both cases; otherwise it reports [renamed: true],
    the new key holds what the old key held, time-to-live included, and the
    old key is gone. *)
Theorem X11_rename_key (params : json) (old new : string) (w : world) :
  ALLOW_CREATE P = true ->
  ALLOW_DROP P = true ->
  Js.key_param (Js.prop params "oldKey") = Some old ->
  Js.key_param (Js.prop params "newKey") = Some new ->
  reachable w = true ->
  exists w',
    renameKey params w
    = (match db w !! old, db w !! new with
       | None, _ =>
           Throw ("Failed to rename key: Source key '" +:+ old
                  +:+ "' does not exist")
       | Some _, Some _ =>
           Throw ("Failed to rename key: Target key '" +:+ new
                  +:+ "' already exists")
       | Some _, None =>
           Ok (JObj [("oldKey", JStr old); ("newKey", JStr new);
                     ("renamed", JBool true)])
       end, w')
    /\ db w'
       = match db w !! old, db w !! new with
         | Some e, None => <[new := e]> (delete old (db w))
         | _, _ => db w
         end.
Proof.
  intros Hc Hd Ho Hn Hr. unfold renameKey. rewrite Hc, Hd, Ho, Hn.
  cbn [negb orb].
  destruct (key_param_some _ _ Ho) as [-> _].
  destruct (key_param_some _ _ Hn) as [-> _].
  destruct (getClient_reachable w Hr) as (w1 & Hg & Hs).
  pose proof Hs as (Hdb & Hr1 & _).
  assert (reachable w1 = true) as Hr' by congruence.
  erewrite bind_ok by exact Hg.
  destruct (db w !! old) as [e |] eqn:Eo.
  - destruct (db w !! new) as [e' |] eqn:En.
    + erewrite try_catch_throw.
      2:{ erewrite bind_ok
            by (eapply exists_present; [exact Hr' | rewrite Hdb; exact Eo]).
          cbn [Z.eqb Pos.eqb].
          erewrite bind_ok
            by (eapply exists_present; [exact Hr' | rewrite Hdb; exact En]).
          reflexivity. }
      eexists. split; [reflexivity | exact Hdb].
    + erewrite try_catch_ok.
      2:{ erewrite bind_ok
            by (eapply exists_present; [exact Hr' | rewrite Hdb; exact Eo]).
          cbn [Z.eqb Pos.eqb].
          erewrite bind_ok
            by (eapply exists_absent; [exact Hr' | rewrite Hdb; exact En]).
          cbn [Z.eqb negb].
          erewrite bind_ok.
          2:{ apply command_run; [exact Hr' |].
              unfold Redis.rename. rewrite Hdb, Eo. reflexivity. }
          reflexivity. }
      eexists. split; [reflexivity |]. reflexivity.
  - erewrite try_catch_throw.
    2:{ erewrite bind_ok
          by (eapply exists_absent; [exact Hr' | rewrite Hdb; exact Eo]).
        reflexivity. }
    eexists. split; [reflexivity | exact Hdb].
Qed.

(** *** Time-to-live and key information *)

(** [result === 1] on the reply to [EXPIRE] or [PERSIST]: true only of a
    client that answers with the store's number. *)
Lemma change_reply_is_one (n : Z) :
  Js.is_num (change_reply n) 1 = integer_replies RT && (n =? 1).
Proof. unfold change_reply. destruct (integer_replies RT); reflexivity. Qed.

(** X12.  [setTTL] of a non-empty key with a numeric time-to-live: a value
    that is not positive is refused with [TTL must be a positive number]
    before the connection is touched; with a positive value and the store
    reachable, a key that is not in the store gives [Failed to set TTL: Key
    '<key>' does not exist] and no change, and a key that is gets that
    time-to-live, its value being kept.  The report compares the reply with
    the number 1: it says [set: true] with a client that answers [EXPIRE]
    with the store's number, and [set: false], although the time-to-live is
    set, with a client that answers with a boolean. *)
Theorem X12_set_ttl (params : json) (k : string) (n : Z) (w : world) :
  Js.key_param (Js.prop params "key") = Some k ->
  Js.prop params "ttl" = JNum n ->
  (n <= 0 -> setTTL params w = (Throw "TTL must be a positive number", w))
  /\ (0 < n ->
      reachable w = true ->
      exists w',
        setTTL params w
        = (match db w !! k with
           | None =>
               Throw ("Failed to set TTL: Key '" +:+ k +:+ "' does not exist")
           | Some _ =>
               Ok (JObj [("key", JStr k); ("ttl", JNum n);
                         ("set", JBool (integer_replies RT))])
           end, w')
        /\ db w'
           = match db w !! k with
             | None => db w
             | Some e => <[k := {| val := val e; expiry := Some n |}]> (db w)
             end).
Proof.
  intros Hk Ht. unfold setTTL. rewrite Hk, Ht.
  destruct (key_param_some _ _ Hk) as [-> _].
  split.
  - intros Hn. destruct (Z.leb_spec n 0); [reflexivity | lia].
  - intros Hn Hr. destruct (Z.leb_spec n 0); [lia |].
    destruct (getClient_reachable w Hr) as (w1 & Hg & Hs).
    pose proof Hs as (Hdb & Hr1 & _).
    assert (reachable w1 = true) as Hr' by congruence.
    erewrite bind_ok by exact Hg.
    destruct (db w !! k) as [e |] eqn:He.
    + erewrite try_catch_ok.
      2:{ erewrite bind_ok
            by (eapply exists_present; [exact Hr' | rewrite Hdb; exact He]).
          cbn [Z.eqb Pos.eqb].
          erewrite bind_ok
            by (eapply client_expire_run;
                [exact Hr' | rewrite Hdb; exact He | exact Hn]).
          rewrite change_reply_is_one. cbn [Z.eqb Pos.eqb]. rewrite andb_true_r.
          reflexivity. }
      eexists. split; [reflexivity |]. cbn. rewrite Hdb. reflexivity.
    + erewrite try_catch_throw.
      2:{ erewrite bind_ok
            by (eapply exists_absent; [exact Hr' | rewrite Hdb; exact He]).
          reflexivity. }
      eexists. split; [reflexivity | exact Hdb].
Qed.

(** X13.  With the store reachable, [removeTTL] of a non-empty key: a key that
    is not in the store gives [Failed to remove TTL: Key '<key>' does not
    exist]; a key that is in the store keeps its value and never expires
    afterwards.  The report compares the reply with the number 1: it says
    [ttlRemoved: true] only if the key had a time-to-live and the client
    answers [PERSIST] with the store's number; with a client that answers
    with a boolean it says [ttlRemoved: false] even when a time-to-live was
    removed. *)
Theorem X13_remove_ttl (params : json) (k : string) (w : world) :
  Js.key_param (Js.prop params "key") = Some k ->
  reachable w = true ->
  exists w',
    removeTTL params w
    = (match db w !! k with
       | None =>
           Throw ("Failed to remove TTL: Key '" +:+ k +:+ "' does not exist")
       | Some e =>
           Ok (JObj [("key", JStr k);
                     ("ttlRemoved",
                      JBool (integer_replies RT
                             && match expiry e with
                                | Some _ => true
                                | None => false
                                end))])
       end, w')
    /\ db w'
       = match db w !! k with
         | None => db w
         | Some e => <[k := {| val := val e; expiry := None |}]> (db w)
         end.
Proof.
  intros Hk Hr. unfold removeTTL. rewrite Hk.
  destruct (key_param_some _ _ Hk) as [-> _].
  destruct (getClient_reachable w Hr) as (w1 & Hg & Hs).
  pose proof Hs as (Hdb & Hr1 & _).
  assert (reachable w1 = true) as Hr' by congruence.
  erewrite bind_ok by exact Hg.
  destruct (db w !! k) as [e |] eqn:He.
  - destruct e as [v [t |]]; cbn [expiry val].
    + erewrite try_catch_ok.
      2:{ erewrite bind_ok
            by (eapply exists_present; [exact Hr' | rewrite Hdb; exact He]).
          cbn [Z.eqb Pos.eqb].
          erewrite bind_ok.
          2:{ apply command_run; [exact Hr' |].
              unfold Redis.persist. rewrite Hdb, He. reflexivity. }
          rewrite change_reply_is_one. reflexivity. }
      eexists. split; [reflexivity |]. reflexivity.
    + erewrite try_catch_ok.
      2:{ erewrite bind_ok
            by (eapply exists_present; [exact Hr' | rewrite Hdb; exact He]).
          cbn [Z.eqb Pos.eqb].
          erewrite bind_ok.
          2:{ apply command_run; [exact Hr' |].
              unfold Redis.persist. rewrite Hdb, He. reflexivity. }
          rewrite change_reply_is_one. cbn [Z.eqb]. reflexivity. }
      eexists. split; [reflexivity |]. cbn.
      symmetry. apply insert_id. exact He.
  - erewrite try_catch_throw.
    2:{ erewrite bind_ok
          by (eapply exists_absent; [exact Hr' | rewrite Hdb; exact He]).
        reflexivity. }
    eexists. split; [reflexivity | exact Hdb].
Qed.

(** X14.  With the store reachable, [getKeyInfo] of a non-empty key: for a key
    that is not in the store it reports [exists: false] with type,
    time-to-live and size [null]; for a key that is in the store it fails,
    whatever the type of the value, with the message of the [TypeError] of the
    call that would read the size behind the prefix of the operation, because
    the client has no member [strlen], [llen], [scard], [zcard] or [hlen].
    The store is unchanged. *)
Theorem X14_get_key_info (params : json) (k : string) (w : world) :
  Js.key_param (Js.prop params "key") = Some k ->
  reachable w = true ->
  exists w',
    getKeyInfo params w
    = (match db w !! k with
       | None =>
           Ok (JObj [("key", JStr k); ("exists", JBool false); ("type", JNull);
                     ("ttl", JNull); ("size", JNull)])
       | Some e =>
           Throw ("Failed to get key info: client."
                  +:+ match val e with
                      | RString _ => "strlen"
                      | RList _ => "llen"
                      | RSet _ => "scard"
                      | RZSet _ => "zcard"
                      | RHash _ => "hlen"
                      end
                  +:+ " is not a function")
       end, w')
    /\ db w' = db w.
Proof.
  intros Hk Hr. unfold getKeyInfo. rewrite Hk.
  destruct (key_param_some _ _ Hk) as [-> _].
  destruct (getClient_reachable w Hr) as (w1 & Hg & Hs).
  pose proof Hs as (Hdb & Hr1 & _).
  assert (reachable w1 = true) as Hr' by congruence.
  erewrite bind_ok by exact Hg.
  destruct (db w !! k) as [e |] eqn:He.
  - assert (db w1 !! k = Some e) as He' by congruence.
    erewrite try_catch_throw; [eexists; split; [reflexivity | exact Hdb] |].
    erewrite bind_ok by (eapply exists_present; eassumption).
    cbn [Z.eqb Pos.eqb].
    erewrite bind_ok by (eapply type_present; eassumption).
    erewrite bind_ok by (eapply ttl_present; eassumption).
    destruct (val e); reflexivity.
  - erewrite try_catch_ok; [eexists; split; [reflexivity | exact Hdb] |].
    erewrite bind_ok by (eapply exists_absent; [exact Hr' | congruence]).
    reflexivity.
Qed.

(** *** Listing keys *)

Lemma summaries_run (keys : list string) (w : world) :
  reachable w = true ->
  mapM (fun key =>
          type <- client_type key ;;
          ttl <- client_ttl key ;;
          ret (JObj [("key", JStr key); ("type", JStr type);
                     ("ttl", ttl_report (JNum ttl))])) keys w
  = (Ok (map (key_summary (db w)) keys), w).
Proof.
  intros Hr. induction keys as [| key keys IH]; [reflexivity |].
  cbn [mapM map].
  erewrite bind_ok.
  2:{ erewrite bind_ok by (apply query_ok; [exact Hr | reflexivity]).
      erewrite bind_ok by (apply query_ok; [exact Hr | reflexivity]).
      reflexivity. }
  erewrite bind_ok by exact IH. reflexivity.
Qed.

Lemma slice_length {A : Type} (l : list A) (offset limit : Z) :
  (length (Js.slice l offset limit) <= Z.to_nat limit)%nat.
Proof. unfold Js.slice. apply firstn_le_length. Qed.

Lemma slice_In {A : Type} (l : list A) (offset limit : Z) (x : A) :
  In x (Js.slice l offset limit) -> In x l.
Proof.
  unfold Js.slice. rewrite <- !list_elem_of_In. intros H.
  apply (subseteq_drop (Z.to_nat offset)), (subseteq_take (Z.to_nat limit)), H.
Qed.

Lemma keys_In (matches : string -> string -> bool) (pattern key : string)
  (d : gmap string entry) :
  In key (Redis.keys matches pattern d)
  <-> is_Some (d !! key) /\ matches pattern key = true.
Proof.
  unfold Redis.keys. rewrite <- list_elem_of_In, list_elem_of_filter.
  rewrite list_elem_of_In, in_map_iff. split.
  - intros [Hm ([k e] & <- & Hin)]. split; [| exact Hm].
    apply list_elem_of_In, elem_of_map_to_list in Hin. cbn. eauto.
  - intros [[e He] Hm]. split; [exact Hm |].
    exists (key, e). split; [reflexivity |].
    apply list_elem_of_In, elem_of_map_to_list, He.
Qed.

(** X15.  [listKeys] checks its arguments, after the defaults [*], 100 and 0,
    before it touches the connection: a pattern that is not a string is
    refused with [Pattern must be a string]; otherwise a limit that is not a
    number between 1 and 10000 with [Limit must be between 1 and 10000];
    otherwise an offset that is not a number at least 0 with [Offset must be
    >= 0].  The world is unchanged in the three cases. *)
Theorem X15_list_keys_validation (params : json) (w : world) :
  (Js.is_string (pattern_of params) = false ->
   listKeys params w = (Throw "Pattern must be a string", w))
  /\ (Js.is_string (pattern_of params) = true ->
      (forall n, limit_of params = JNum n -> n < 1 \/ 10000 < n) ->
      listKeys params w = (Throw "Limit must be between 1 and 10000", w))
  /\ (Js.is_string (pattern_of params) = true ->
      (exists n, limit_of params = JNum n /\ 1 <= n <= 10000) ->
      (forall n, offset_of params = JNum n -> n < 0) ->
      listKeys params w = (Throw "Offset must be >= 0", w)).
Proof.
  unfold listKeys, pattern_of, limit_of, offset_of.
  set (pattern := Js.default _ (JStr "*")).
  set (limit := Js.default _ (JNum 100)).
  set (offset := Js.default _ (JNum 0)).
  split; [| split].
  - intros Hp. destruct pattern; try reflexivity. discriminate.
  - intros Hp Hl. destruct pattern; try discriminate.
    destruct limit as [| | | n | | |]; try reflexivity.
    destruct (Hl n eq_refl) as [H | H].
    + destruct (Z.ltb_spec n 1); [reflexivity | lia].
    + destruct (Z.ltb_spec n 1); [reflexivity |].
      destruct (Z.ltb_spec 10000 n); [reflexivity | lia].
  - intros Hp (n & Hl & Hn) Ho. destruct pattern; try discriminate.
    rewrite Hl.
    destruct (Z.ltb_spec n 1); [lia |].
    destruct (Z.ltb_spec 10000 n); [lia |]. cbn [orb].
    destruct offset as [| | | m | | |]; try reflexivity.
    specialize (Ho m eq_refl).
    destruct (Z.ltb_spec m 0); [reflexivity | lia].
Qed.

(** X16.  With the store reachable, a pattern that is a string, a limit
    between 1 and 10000 and an offset of at least 0, [listKeys] returns
    normally and leaves the store unchanged: [total] is the number of keys of
    the store that match the pattern, [keys] holds at most [limit] entries,
    each the key, type and time-to-live marker of a key of the store that
    matches the pattern, taken from position [offset] on, and [hasMore] says
    whether [offset + limit] is below [total]. *)
Theorem X16_list_keys_page (params : json) (pat : string) (lim off : Z)
  (w : world) :
  pattern_of params = JStr pat ->
  limit_of params = JNum lim ->
  offset_of params = JNum off ->
  1 <= lim <= 10000 ->
  0 <= off ->
  reachable w = true ->
  let matching := Redis.keys (glob_match RT) pat (db w) in
  let page := Js.slice matching off lim in
  (exists w',
      listKeys params w
      = (Ok (JObj [("keys", JArr (map (key_summary (db w)) page));
                   ("total", JNum (Z.of_nat (length matching)));
                   ("limit", JNum lim); ("offset", JNum off);
                   ("hasMore", JBool (off + lim <? Z.of_nat (length matching)));
                   ("pattern", JStr pat)]), w')
      /\ db w' = db w)
  /\ Z.of_nat (length page) <= lim
  /\ forall key, In key page ->
                 is_Some (db w !! key) /\ glob_match RT pat key = true.
Proof.
  intros Hp Hl Ho Hlim Hoff Hr matching page.
  split; [| split].
  - unfold listKeys.
    change (Js.default (Js.prop (Js.or params (JObj [])) "pattern") (JStr "*"))
      with (pattern_of params).
    change (Js.default (Js.prop (Js.or params (JObj [])) "limit") (JNum 100))
      with (limit_of params).
    change (Js.default (Js.prop (Js.or params (JObj [])) "offset") (JNum 0))
      with (offset_of params).
    rewrite Hp, Hl, Ho.
    destruct (Z.ltb_spec lim 1); [lia |].
    destruct (Z.ltb_spec 10000 lim); [lia |]. cbn [orb].
    destruct (Z.ltb_spec off 0); [lia |].
    destruct (getClient_reachable w Hr) as (w1 & Hg & Hs).
    pose proof Hs as (Hdb & Hr1 & _).
    assert (reachable w1 = true) as Hr' by congruence.
    erewrite bind_ok by exact Hg.
    erewrite try_catch_ok; [eexists; split; [reflexivity | exact Hdb] |].
    erewrite bind_ok by (apply query_ok; [exact Hr' | reflexivity]).
    erewrite bind_ok by (apply summaries_run; exact Hr').
    rewrite Hdb. reflexivity.
  - pose proof (slice_length matching off lim) as H. unfold page. lia.
  - intros key Hin. apply slice_In in Hin. apply keys_In in Hin. exact Hin.
Qed.

(** *** Updating a key that holds a string, or a sorted set *)

(** X17.  With update allowed and the store reachable, [updateData] of a key
    that holds a string, with a new string value and an optional positive
    time-to-live, answers [OK] and makes the key hold the new string.  The
    time-to-live the key had before is discarded: afterwards the key expires
    after the time-to-live given with the update, and never when none was
    given. *)
Theorem X17_update_string_replaces_ttl (params : json) (k v s : string)
  (t : option Z) (e : entry) (w : world) :
  ALLOW_UPDATE P = true ->
  Js.key_param (Js.prop params "key") = Some k ->
  Js.prop params "value" = JStr v ->
  Js.prop params "ttl" = ttl_param t ->
  positive_ttl t ->
  reachable w = true ->
  db w !! k = Some e ->
  val e = RString s ->
  exists w',
    updateData params w
    = (Ok (JObj [("key", JStr k); ("value", JStr v); ("type", JStr "string");
                 ("ttl", match t with Some n => JNum n | None => JNull end);
                 ("result", JStr "OK")]), w')
    /\ db w' = <[k := {| val := RString v; expiry := t |}]> (db w).
Proof.
  intros Ha Hk Hv Httl Ht Hr He Hs. unfold updateData.
  rewrite Ha, Hk, Hv, Httl. cbn [negb Js.nullish].
  destruct (key_param_some _ _ Hk) as [-> _].
  destruct (getClient_reachable w Hr) as (w1 & Hg & Hst).
  pose proof Hst as (Hdb & Hr1 & _).
  assert (reachable w1 = true) as Hr' by congruence.
  assert (db w1 !! k = Some e) as He' by congruence.
  erewrite bind_ok by exact Hg.
  rewrite (ttl_given_param t Ht), (ttl_param_or_null t Ht).
  destruct t as [n |]; cbn [ttl_param].
  - erewrite try_catch_ok.
    2:{ erewrite bind_ok by (eapply exists_present; eassumption).
        cbn [Z.eqb Pos.eqb].
        erewrite bind_ok by (eapply type_present; eassumption).
        rewrite Hs. cbn [type_name].
        change (switch_type (JStr "string")) with TString. cbv iota.
        erewrite bind_ok by (apply client_setEx_run; [exact Hr' | exact Ht]).
        erewrite bind_ok.
        2:{ erewrite bind_ok; [reflexivity |].
            eapply client_expire_run; [exact Hr' | | exact Ht].
            cbn. apply lookup_insert_eq. }
        reflexivity. }
    eexists. split; [reflexivity |]. cbn. rewrite Hdb. apply insert_insert_eq.
  - erewrite try_catch_ok.
    2:{ erewrite bind_ok by (eapply exists_present; eassumption).
        cbn [Z.eqb Pos.eqb].
        erewrite bind_ok by (eapply type_present; eassumption).
        rewrite Hs. cbn [type_name].
        change (switch_type (JStr "string")) with TString. cbv iota.
        erewrite bind_ok by (apply client_set_run; exact Hr').
        reflexivity. }
    eexists. split; [reflexivity |]. cbn. rewrite Hdb. reflexivity.
Qed.

(** X18.  With update allowed and the store reachable, [updateData] of a key
    that holds a sorted set fails with [Failed to update data: Cannot update
    unsupported data type: zset], whatever the new value is, and the store is
    left as it was. *)
Theorem X18_update_sorted_set_refused (params : json) (k : string)
  (e : entry) (z : list (string * string)) (w : world) :
  ALLOW_UPDATE P = true ->
  Js.key_param (Js.prop params "key") = Some k ->
  Js.nullish (Js.prop params "value") = false ->
  reachable w = true ->
  db w !! k = Some e ->
  val e = RZSet z ->
  exists w',
    updateData params w
    = (Throw "Failed to update data: Cannot update unsupported data type: zset",
       w')
    /\ db w' = db w.
Proof.
  intros Ha Hk Hv Hr He Hz. unfold updateData. rewrite Ha, Hk, Hv.
  cbn [negb].
  destruct (getClient_reachable w Hr) as (w1 & Hg & Hs).
  pose proof Hs as (Hdb & Hr1 & _).
  assert (reachable w1 = true) as Hr' by congruence.
  assert (db w1 !! k = Some e) as He' by congruence.
  erewrite bind_ok by exact Hg.
  erewrite try_catch_throw.
  2:{ erewrite bind_ok by (eapply exists_present; eassumption).
      cbn [Z.eqb Pos.eqb].
      erewrite bind_ok by (eapply type_present; eassumption).
      rewrite Hz. cbn [type_name].
      change (switch_type (JStr "zset")) with TZSet. cbv iota.
      reflexivity. }
  eexists. split; [reflexivity | exact Hdb].
Qed.

(** *** The audit trail and standard output under any request *)

Lemma audit_step_refl (w : world) : audit_step w w.
Proof.
  split; [tauto |]. split; [| reflexivity].
  exists []. symmetry. apply app_nil_r.
Qed.

Lemma audit_step_trans (w1 w2 w3 : world) :
  audit_step w1 w2 -> audit_step w2 w3 -> audit_step w1 w3.
Proof.
  intros (Hl & [a Ha] & Ho) (Hl' & [b Hb] & Ho').
  split; [tauto |]. split; [| congruence].
  exists (a ++ b). rewrite Hb, Ha. symmetry. apply app_assoc.
Qed.

Lemma audit_step_same (w w' : world) :
  operationLogs w' = operationLogs w ->
  logFile w' = logFile w ->
  stdout w' = stdout w ->
  audit_step w w'.
Proof.
  intros Hl Hf Ho. split; [rewrite Hl; tauto |]. split; [| exact Ho].
  exists []. rewrite Hf. symmetry. apply app_nil_r.
Qed.

Lemma respects_ret {A : Type} (a : A) : respects (ret a).
Proof. intros w. apply audit_step_refl. Qed.

Lemma respects_throw {A : Type} (e : string) : respects (@throw A e).
Proof. intros w. apply audit_step_refl. Qed.

Lemma respects_exit {A : Type} (c : Z) : respects (@exit A c).
Proof. intros w. apply audit_step_refl. Qed.

Lemma respects_gets {A : Type} (f : world -> A) : respects (gets f).
Proof. intros w. apply audit_step_refl. Qed.

Lemma respects_bind {A B : Type} (m : M A) (k : A -> M B) :
  respects m -> (forall a, respects (k a)) -> respects (bind m k).
Proof.
  intros Hm Hk w. unfold bind. specialize (Hm w).
  destruct (m w) as [[a | e | c | |] w1]; cbn [snd] in *; try exact Hm.
  eapply audit_step_trans; [exact Hm | apply Hk].
Qed.

Lemma respects_try_catch {A : Type} (m : M A) (h : string -> M A) :
  respects m -> (forall e, respects (h e)) -> respects (try_catch m h).
Proof.
  intros Hm Hh w. unfold try_catch. specialize (Hm w).
  destruct (m w) as [[a | e | c | |] w1]; cbn [snd] in *; try exact Hm.
  eapply audit_step_trans; [exact Hm | apply Hh].
Qed.

Lemma respects_command {A : Type}
  (f : gmap string entry -> (string + A) * gmap string entry) :
  respects (command f).
Proof.
  intros w. unfold command.
  destruct (reachable w); [destruct (f (db w)) as [[e | a] d] |];
    apply audit_step_same; reflexivity.
Qed.

Lemma respects_createClient : respects createClient.
Proof.
  intros w. unfold createClient.
  destruct (client w && isConnected w); [| destruct (reachable w)];
    apply audit_step_same; reflexivity.
Qed.

Lemma respects_getClient : respects getClient.
Proof.
  intros w. unfold getClient.
  destruct (negb (client w) || negb (isConnected w));
    [apply respects_createClient | apply audit_step_refl].
Qed.

Lemma respects_close : respects close.
Proof.
  intros w. unfold close.
  destruct (client w); apply audit_step_same; reflexivity.
Qed.

Lemma respects_logRequest (method params result : json) (error : option string) :
  respects (logRequest method params result error).
Proof.
  intros w. unfold logRequest, modify. cbn [snd].
  split; [| split; [| reflexivity]].
  - intros _. cbn [operationLogs set_logs]. apply firstn_le_length.
  - eexists. reflexivity.
Qed.

Lemma respects_logRedisOperation (operation : string) (key result : json)
  (error : option string) :
  respects (logRedisOperation operation key result error).
Proof.
  intros w. unfold logRedisOperation, modify. cbn [snd].
  split; [tauto |]. split; [| reflexivity]. eexists. reflexivity.
Qed.

Lemma respects_set_initialized (b : bool) : respects (modify (set_initialized b)).
Proof. intros w. apply audit_step_same; reflexivity. Qed.

Lemma respects_set_handlers (f g : world -> nat) (h : world -> bool) :
  respects (modify (fun w => set_handlers (f w) (g w) (h w) w)).
Proof. intros w. apply audit_step_same; reflexivity. Qed.

Lemma respects_mapM {A B : Type} (f : A -> M B) (l : list A) :
  (forall a, respects (f a)) -> respects (mapM f l).
Proof.
  intros Hf. induction l as [| a l IH]; cbn [mapM].
  - apply respects_ret.
  - apply respects_bind; [apply Hf | intros b].
    apply respects_bind; [exact IH | intros bs]. apply respects_ret.
Qed.

Lemma respects_logging_dispatch (m : M json) (method params : json) :
  respects m -> respects (logging_dispatch m method params).
Proof.
  intros Hm w. unfold logging_dispatch. specialize (Hm w).
  destruct (m w) as [[a | e | c | |] w1]; cbn [snd] in *; try exact Hm.
  - eapply audit_step_trans; [exact Hm |].
    apply respects_bind; [apply respects_logRequest | intros _; apply respects_ret].
  - eapply audit_step_trans; [exact Hm |].
    apply respects_bind; [apply respects_logRequest | intros _; apply respects_throw].
Qed.

Ltac head_of t :=
  match t with
  | ?f _ => head_of f
  | _ => t
  end.

(** One step of a proof that a computation respects the audit trail. *)
Ltac respect_step :=
  match goal with
  | H : respects ?m |- respects ?m => exact H
  | H : forall r, respects (?f r) |- respects (?f _) => apply H
  | |- respects (ret _) => apply respects_ret
  | |- respects (throw _) => apply respects_throw
  | |- respects (exit _) => apply respects_exit
  | |- respects (gets _) => apply respects_gets
  | |- respects getClient => apply respects_getClient
  | |- respects close => apply respects_close
  | |- respects (command _) => apply respects_command
  | |- respects (logRedisOperation _ _ _ _) => apply respects_logRedisOperation
  | |- respects (logRequest _ _ _ _) => apply respects_logRequest
  | |- respects (modify (set_initialized _)) => apply respects_set_initialized
  | |- respects (modify (fun w => set_handlers _ _ _ w)) =>
      apply respects_set_handlers
  | |- respects (mapM _ _) => apply respects_mapM; intros
  | |- respects (logging_dispatch _ _ _) => apply respects_logging_dispatch
  | |- respects (bind _ _) => apply respects_bind; [| intros]
  | |- respects (try_catch _ _) => apply respects_try_catch; [| intros]
  | |- respects (if ?b then _ else _) => destruct b
  | |- respects (match ?x with _ => _ end) => destruct x
  | |- respects ?m => let h := head_of m in progress unfold h
  end.

Ltac respect := repeat respect_step.

Section Audit.

Hypothesis respects_getRedisInfo : respects getRedisInfo.
Hypothesis respects_getDatabaseStats : respects getDatabaseStats.
Hypothesis respects_getMemoryInfo : respects getMemoryInfo.

Lemma respects_method (self : json -> M json) (key : string)
  (f : json -> M json) (args : json) :
  (forall r, respects (self r)) ->
  find_method key (class_methods self) = Some f ->
  respects (f args).
Proof.
  intros Hself. unfold class_methods. cbn [find_method].
  repeat match goal with
         | |- (if ?b then _ else _) = _ -> _ =>
             destruct b; [intros [= <-]; try solve [respect] |]
         end.
  all: try discriminate.
Qed.

Lemma respects_member (self : json -> M json) (w0 : world) (key : string)
  (f : json -> M json) (args : json) :
  (forall r, respects (self r)) ->
  this_member self w0 key = Some f ->
  respects (f args).
Proof.
  intros Hself. unfold this_member.
  destruct (own_field w0 key) as [[|] |].
  - intros [= <-]. apply respects_throw.
  - discriminate.
  - destruct (find_method key (class_methods self)) as [g |] eqn:E.
    + intros [= <-]. exact (respects_method self key g args Hself E).
    + destruct (inherited_member RT key) as [[e | v] |]; intros [= <-].
      * apply respects_throw.
      * apply respects_ret.
Qed.

Lemma respects_tools_call (self : json -> M json) (params : json) :
  (forall r, respects (self r)) -> respects (tools_call self params).
Proof.
  intros Hself. unfold tools_call.
  destruct (negb (Js.truthy (Js.prop (Js.or params (JObj [])) "name")));
    [apply respects_throw |].
  intros w. unfold bind at 1, gets. cbv beta iota.
  destruct (this_member self w _) as [f |] eqn:E; [| apply audit_step_refl].
  apply respects_bind; [| intros; apply respects_ret].
  exact (respects_member self w _ f _ Hself E).
Qed.

Lemma respects_handleRequest_body (self : json -> M json) (request : json) :
  (forall r, respects (self r)) -> respects (handleRequest_body self request).
Proof.
  intros Hself. unfold handleRequest_body, attempt, recover.
  apply respects_try_catch; [| intros; respect].
  destruct (Js.nullish request); [apply respects_throw |].
  destruct (negb (Js.is_str (Js.prop request "jsonrpc") "2.0")); [respect |].
  apply respects_bind; [| intros; respect].
  apply respects_logging_dispatch. unfold dispatch.
  repeat match goal with
         | |- respects (if ?b then _ else _) => destruct b
         end;
    try apply respects_tools_call; try exact Hself; respect.
Qed.

Lemma respects_handleRequest (fuel : nat) (request : json) :
  respects (handleRequest fuel request).
Proof.
  revert request. induction fuel as [| fuel IH]; intros request; cbn [handleRequest].
  - apply respects_handleRequest_body. intros r w. apply audit_step_refl.
  - apply respects_handleRequest_body. exact IH.
Qed.

End Audit.

(** X19.  Whatever the request (any JSON value, well-formed or not), the
    state of the server and of the connection, and the outcome, one run of
    [handleRequest] keeps the in-memory audit ring within [MAX_LOGS] entries
    if it was within it, keeps every line the log file already had, and writes
    nothing to standard output.  The three reports of [RedisInfo] the server
    is parametrised by are assumed to do the same; the reports as modelled
    do. *)
Theorem X19_request_keeps_audit_trail (fuel : nat) (request : json) (w : world) :
  respects getRedisInfo -> respects getDatabaseStats -> respects getMemoryInfo ->
  audit_step w (snd (handleRequest fuel request w)).
Proof.
  intros H1 H2 H3. exact (respects_handleRequest H1 H2 H3 fuel request w).
Qed.

(** *** The handshake, the protocol tag, shutdown *)

Lemma in_mirror (capabilities : json) (key k : string) (v : json) :
  In (k, v) (mirror capabilities key)
  <-> k = key /\ v = listChanged_false
      /\ Js.truthy (Js.prop capabilities key) = true.
Proof.
  unfold mirror. destruct (Js.truthy (Js.prop capabilities key)); cbn [In].
  - split.
    + intros [[= <- <-] | []]. repeat split.
    + intros (-> & -> & _). left. reflexivity.
  - split; [intros [] | intros (_ & _ & H); discriminate H].
Qed.

(** X20.  An [initialize] request always succeeds, whether or not the server
    was initialised before, and with the same response: the protocol version
    is the one the client sent, or [2025-06-18] when it sent none; the
    capabilities are [tools] and, of [prompts], [resources], [logging] and
    [roots], exactly those the client declared, each with [listChanged:
    false].  Afterwards the server is initialised and the store is untouched.
    The first handshake writes two lines of the log, a repeated one only the
    line of the request. *)
Theorem X20_initialize_handshake (fuel : nat) (id params : json) (w : world) :
  exists caps w',
    handleRequest fuel (initialize_request id params) w
    = (Ok (response id
             (JObj [("protocolVersion",
                     Js.or (Js.prop params "protocolVersion") (JStr "2025-06-18"));
                    ("capabilities", JObj caps);
                    ("serverInfo", serverInfo)])), w')
    /\ (forall k v,
           In (k, v) caps
           <-> v = listChanged_false
               /\ (k = "tools"
                   \/ (In k mirrored
                       /\ Js.truthy (Js.prop (Js.prop params "capabilities") k)
                          = true)))
    /\ initialized w' = true
    /\ db w' = db w
    /\ length (logFile w')
       = (length (logFile w) + if initialized w then 1 else 2)%nat.
Proof.
  rewrite handleRequest_unfold.
  unfold handleRequest_body, attempt, initialize_request.
  cbn [Js.nullish Js.prop Js.assoc Js.is_str String.eqb Ascii.eqb Bool.eqb
       negb andb orb].
  unfold dispatch.
  cbn [Js.is_str String.eqb Ascii.eqb Bool.eqb negb andb orb].
  unfold initialize.
  set (caps := [("tools", listChanged_false)] ++ _).
  exists caps.
  unfold try_catch, logging_dispatch, bind, gets, modify, logRequest, ret.
  destruct (initialized w) eqn:Hi; cbn [negb];
    (eexists; split; [reflexivity |]); cbn [initialized db logFile set_logs
                                             set_initialized].
  all: split; [| split; [try exact Hi; reflexivity | split; [reflexivity |]]].
  all: try (rewrite ?length_app; cbn [length]; lia).
  all: intros k v; unfold caps;
    rewrite !in_app_iff, !in_mirror; cbn [In]; unfold mirrored; cbn [In];
    split;
    [ intros [[[= <- <-] | []] | [(-> & -> & H) | [(-> & -> & H)
              | [(-> & -> & H) | (-> & -> & H)]]]]; split; auto 10
    | intros [-> [-> | [[<- | [<- | [<- | [<- | []]]]] H]]]; auto 10 ].
Qed.

(** X21.  A request that is not [null] and whose [jsonrpc] member is anything
    but the string [2.0] is answered with the error -32600 [Unsupported
    JSON-RPC version] under the request's id, whatever its method; the method
    is not dispatched: the store, the connection and the initialisation flag
    are as before, and nothing is written to standard output. *)
Theorem X21_unsupported_protocol_tag (fuel : nat) (request : json) (w : world) :
  Js.nullish request = false ->
  Js.is_str (Js.prop request "jsonrpc") "2.0" = false ->
  exists w',
    handleRequest fuel request w
    = (Ok (error_response (Js.prop request "id") (-32600)
             "Unsupported JSON-RPC version"), w')
    /\ same_store w w'
    /\ initialized w' = initialized w
    /\ stdout w' = stdout w.
Proof.
  intros Hn Hv. rewrite handleRequest_unfold.
  unfold handleRequest_body, attempt, recover. rewrite Hn, Hv. cbn [negb].
  unfold try_catch, bind, logRequest, modify, throw, ret. rewrite ?Hn.
  eexists. split; [reflexivity |]. repeat split.
Qed.

(** X22.  For the request [null] (or [undefined]) [handleRequest] itself
    fails: the handler of the failure reads the id of the request and throws
    in turn.  The transport turns a line that parses to [null] into one
    response with id [null], code -32603 and the message [Internal error:
    Cannot read properties of null (reading 'id')], and leaves the store as it
    was. *)
Theorem X22_null_request_line (fuel : nat) (line : string) (w : world) :
  Js.trim line <> "" ->
  JSON_parse RT line = inr JNull ->
  (exists w1, handleRequest fuel JNull w = (Throw (read_of_null JNull), w1))
  /\ exists w',
      handle_line fuel line w = (Ok tt, w')
      /\ stdout w'
         = stdout w
           ++ [error_response JNull (-32603)
                 "Internal error: Cannot read properties of null (reading 'id')"]
      /\ db w' = db w.
Proof.
  intros Hb Hp.
  assert (exists w1, handleRequest fuel JNull w = (Throw (read_of_null JNull), w1)
                     /\ stdout w1 = stdout w /\ db w1 = db w) as (w1 & H & Ho & Hd).
  { rewrite handleRequest_unfold.
    unfold handleRequest_body, attempt, recover. cbn [Js.nullish].
    unfold try_catch, bind, logRequest, modify, throw.
    eexists. split; [reflexivity |]. split; reflexivity. }
  split; [exists w1; exact H |].
  unfold handle_line.
  destruct (String.eqb_spec (Js.trim line) ""); [contradiction |].
  rewrite Hp. unfold try_catch, bind. rewrite H.
  unfold console_log, modify. eexists. split; [reflexivity |].
  cbn [stdout db set_stdout]. rewrite Ho, Hd. split; reflexivity.
Qed.

(** X23.  A [shutdown] request is answered with the result [null] under the
    request's id; the connection is closed first (a client that exists is no
    longer marked connected), the delayed exit is armed, and the handler
    itself does not end the process.  The store is untouched. *)
Theorem X23_shutdown (fuel : nat) (id params : json) (w : world) :
  exists w',
    handleRequest fuel (shutdown_request id params) w
    = (Ok (response id JNull), w')
    /\ exitTimer w' = true
    /\ isConnected w' = isConnected w && negb (client w)
    /\ db w' = db w
    /\ stdout w' = stdout w.
Proof.
  rewrite handleRequest_unfold.
  unfold handleRequest_body, attempt, shutdown_request.
  cbn [Js.nullish Js.prop Js.assoc Js.is_str String.eqb Ascii.eqb Bool.eqb
       negb andb orb].
  unfold dispatch.
  cbn [Js.is_str String.eqb Ascii.eqb Bool.eqb negb andb orb].
  destruct (closeConnection_run w) as (w1 & Hc & Ho & Hdb & Hi & _).
  unfold try_catch, logging_dispatch, bind, modify, logRequest, ret.
  rewrite Hc. eexists. split; [reflexivity |].
  cbn [exitTimer isConnected db stdout set_logs set_handlers].
  repeat split; assumption.
Qed.

(** *** Writes of a single value, and writes that delete *)

Lemma client_expire_absent (k : string) (n : Z) (w : world) :
  reachable w = true ->
  db w !! k = None ->
  client_expire k (JNum n) w = (Ok (change_reply 0), w).
Proof.
  intros Hr He. unfold client_expire.
  erewrite command_run; [rewrite set_db_same; reflexivity | exact Hr |].
  cbn [seconds_arg]. unfold Redis.expire. rewrite He. reflexivity.
Qed.

(** X24.  With insert allowed and the store reachable, [setData] with type
    [list] or [set] and a single string as the value (not an array) fails
    with [Failed to set data: client.lpush is not a function] (for a set,
    [client.sadd]): on this path no key is deleted first, so the store is as
    it was, and nothing is pushed or added. *)
Theorem X24_set_scalar_into_collection_fails (params : json) (k v member : string)
  (w : world) :
  ALLOW_INSERT P = true ->
  Js.key_param (Js.prop params "key") = Some k ->
  Js.prop params "value" = JStr v ->
  (Js.prop params "type" = JStr "list" /\ member = "lpush")
  \/ (Js.prop params "type" = JStr "set" /\ member = "sadd") ->
  reachable w = true ->
  exists w',
    setData params w
    = (Throw ("Failed to set data: client." +:+ member +:+ " is not a function"),
       w')
    /\ db w' = db w.
Proof.
  intros Ha Hk Hv Hcase Hr. unfold setData.
  rewrite Ha, Hk, Hv. cbn [negb Js.nullish Js.is_array].
  destruct (getClient_reachable w Hr) as (w1 & Hg & Hs).
  pose proof Hs as (Hdb & _).
  erewrite bind_ok by exact Hg.
  destruct Hcase as [[Hty ->] | [Hty ->]]; rewrite Hty; cbn [Js.default].
  - change (switch_type (JStr "list")) with TList. cbv iota.
    erewrite try_catch_throw by (apply bind_throw; reflexivity).
    eexists. split; [reflexivity | exact Hdb].
  - change (switch_type (JStr "set")) with TSet. cbv iota.
    erewrite try_catch_throw by (apply bind_throw; reflexivity).
    eexists. split; [reflexivity | exact Hdb].
Qed.

(** X25.  With insert allowed and the store reachable, [setData] with type
    [set] and the empty array, or with type [hash] and the empty object,
    returns normally with no [result], and the key is not in the store
    afterwards: what the key held has been deleted and nothing is written in
    its place, with or without a time-to-live. *)
Theorem X25_set_empty_collection_deletes (params : json) (k : string)
  (t : option Z) (w : world) :
  ALLOW_INSERT P = true ->
  Js.key_param (Js.prop params "key") = Some k ->
  (Js.default (Js.prop params "type") (JStr "string") = JStr "set"
   /\ Js.prop params "value" = JArr [])
  \/ (Js.default (Js.prop params "type") (JStr "string") = JStr "hash"
      /\ Js.prop params "value" = JObj []) ->
  Js.prop params "ttl" = ttl_param t ->
  positive_ttl t ->
  reachable w = true ->
  exists w',
    setData params w
    = (Ok (JObj [("key", JStr k); ("value", Js.prop params "value");
                 ("type", Js.default (Js.prop params "type") (JStr "string"));
                 ("ttl", match t with Some n => JNum n | None => JNull end);
                 ("result", JUndefined)]), w')
    /\ db w' = delete k (db w)
    /\ db w' !! k = None.
Proof.
  intros Ha Hk Hcase Httl Ht Hr. unfold setData.
  rewrite Ha, Hk, Httl. cbn [negb].
  destruct (key_param_some _ _ Hk) as [-> _].
  destruct (getClient_reachable w Hr) as (w1 & Hg & Hs).
  pose proof Hs as (Hdb & Hr1 & _).
  assert (reachable w1 = true) as Hr' by congruence.
  rewrite (ttl_given_param t Ht), (ttl_param_or_null t Ht).
  assert (forall w2, db w2 = delete k (db w1) -> reachable w2 = true ->
            (if match t with Some _ => true | None => false end && true
             then (client_expire k (ttl_param t) ;;; ret tt)
             else ret tt) w2 = (Ok tt, w2)) as Hexp.
  { intros w2 Hd2 Hr2. destruct t as [n |]; cbn [andb ttl_param]; [| reflexivity].
    erewrite bind_ok; [reflexivity |].
    apply client_expire_absent; [exact Hr2 |].
    rewrite Hd2. apply lookup_delete_eq. }
  destruct Hcase as [[Hty Hv] | [Hty Hv]]; rewrite Hty, Hv;
    cbn [Js.nullish Js.is_array Js.is_object items_of Js.entries length
         Z.of_nat Z.ltb Z.compare];
    erewrite bind_ok by exact Hg.
  - change (switch_type (JStr "set")) with TSet. cbv iota.
    change (Js.is_str (JStr "set") "string") with false. cbn [negb].
    erewrite try_catch_ok.
    2:{ erewrite bind_ok
          by (erewrite bind_ok by (apply client_del_run; exact Hr');
              reflexivity).
        erewrite bind_ok by (apply Hexp; [reflexivity | exact Hr']).
        reflexivity. }
    eexists. split; [reflexivity |]. cbn. rewrite Hdb.
    split; [reflexivity | apply lookup_delete_eq].
  - change (switch_type (JStr "hash")) with THash. cbv iota.
    change (Js.is_str (JStr "hash") "string") with false. cbn [negb].
    erewrite try_catch_ok.
    2:{ erewrite bind_ok
          by (erewrite bind_ok by (apply client_del_run; exact Hr');
              reflexivity).
        erewrite bind_ok by (apply Hexp; [reflexivity | exact Hr']).
        reflexivity. }
    eexists. split; [reflexivity |]. cbn. rewrite Hdb.
    split; [reflexivity | apply lookup_delete_eq].
Qed.

(** *** The connection probe *)

(** X26.  The tool [test_connection]: when the store answers it reports
    [connected: true] together with the connection settings, the manager is
    marked connected, and the success is written to the log file.  When the
    store does not
    answer and the manager holds no client it believes connected, the call
    waits for a connection that is never made: nothing is returned, nothing
    is logged.  The store is untouched either way. *)
Theorem X26_test_connection_reports (params : json) (w : world) :
  (reachable w = true ->
   exists w',
     test_connection params w
     = (Ok (JObj [("connected", JBool true);
                  ("connection",
                   JObj [("host", JStr (host CFG)); ("port", JNum (port CFG));
                         ("hasPassword",
                          JBool (bool_decide (password CFG <> None)));
                         ("isConnected", JBool true)])]), w')
     /\ db w' = db w
     /\ isConnected w' = true
     /\ logFile w'
        = logFile w ++ ["REDIS: TEST_CONNECTION | KEY: connection | SUCCESS"])
  /\ (reachable w = false ->
      client w && isConnected w = false ->
      exists w',
        test_connection params w = (Pending, w')
        /\ db w' = db w
        /\ operationLogs w' = operationLogs w
        /\ logFile w' = logFile w).
Proof.
  split.
  - intros Hr.
    unfold test_connection, logged, redisInfo_testConnection, testConnection,
      getConnectionInfo, try_catch, bind, gets, getClient, createClient,
      client_ping, query, command, logRedisOperation, modify, ret.
    destruct (client w) eqn:Hc, (isConnected w) eqn:Hi;
      cbn; rewrite ?Hc, ?Hi, ?Hr; cbn; rewrite ?Hr; cbn; rewrite ?Hi;
      eexists; (split; [reflexivity |]); cbn; rewrite ?Hi; repeat split.
  - intros Hr Hc.
    unfold test_connection, logged, redisInfo_testConnection, testConnection,
      getConnectionInfo, try_catch, bind, gets, getClient, createClient,
      client_ping, query, command, logRedisOperation, modify, ret.
    destruct (client w) eqn:Hc', (isConnected w) eqn:Hi;
      try discriminate Hc;
      cbn; rewrite ?Hc', ?Hi, ?Hr; cbn;
      eexists; (split; [reflexivity |]); cbn; repeat split.
Qed.

(** *** The fields parsed from an INFO text *)

Lemma append_cons (c : ascii) (s t : string) :
  String c s +:+ t = String c (s +:+ t).
Proof. reflexivity. Qed.

Lemma append_nil_l (t : string) : "" +:+ t = t.
Proof. reflexivity. Qed.

Lemma free_of_cons (sep c : ascii) (s : string) :
  free_of sep (String c s) = true -> Ascii.eqb c sep = false /\ free_of sep s = true.
Proof.
  cbn [free_of]. intros H. apply andb_true_iff in H as [H1 H2].
  apply negb_true_iff in H1. split; assumption.
Qed.

Lemma split_char_app (sep : ascii) (k s : string) :
  free_of sep k = true ->
  split_char sep (k +:+ String sep s) = k :: split_char sep s.
Proof.
  induction k as [| c k IH]; intros H.
  - rewrite append_nil_l. cbn [split_char]. rewrite Ascii.eqb_refl. reflexivity.
  - apply free_of_cons in H as [Hc Hk].
    rewrite append_cons. cbn [split_char]. rewrite Hc, (IH Hk). reflexivity.
Qed.

Lemma split_char_free (sep : ascii) (v : string) :
  free_of sep v = true -> split_char sep v = [v].
Proof.
  induction v as [| c v IH]; intros H; [reflexivity |].
  apply free_of_cons in H as [Hc Hv].
  cbn [split_char]. rewrite Hc, (IH Hv). reflexivity.
Qed.

Lemma split_char_head (sep : ascii) (l k v : string) (r : list string) :
  split_char sep l = k :: v :: r -> exists post, l = k +:+ String sep post.
Proof.
  revert k v r. induction l as [| c l IH]; intros k v r; cbn [split_char].
  - discriminate.
  - destruct (Ascii.eqb_spec c sep) as [-> | Hne].
    + intros [= <- _]. exists l. reflexivity.
    + destruct (split_char sep l) as [| l0 ls] eqn:E; [discriminate |].
      intros [= <- ->].
      destruct (IH l0 v r eq_refl) as [post ->].
      exists post. reflexivity.
Qed.

Lemma split_crlf_free (s : string) :
  free_of CR s = true -> split_crlf s = [s].
Proof.
  induction s as [| c s IH]; intros H; [reflexivity |].
  apply free_of_cons in H as [Hc Hs].
  destruct s as [| c' s]; [reflexivity |].
  change (split_crlf (String c (String c' s)))
    with (if Ascii.eqb c CR && Ascii.eqb c' LF
          then EmptyString :: split_crlf s
          else match split_crlf (String c' s) with
               | [] => [String c EmptyString]
               | l :: ls => String c l :: ls
               end).
  rewrite Hc, (IH Hs). reflexivity.
Qed.

Lemma split_crlf_app (l s : string) :
  free_of CR l = true ->
  split_crlf (l +:+ String CR (String LF s)) = l :: split_crlf s.
Proof.
  induction l as [| c l IH]; intros H.
  - rewrite append_nil_l. reflexivity.
  - apply free_of_cons in H as [Hc Hl].
    rewrite append_cons.
    destruct l as [| c' l].
    + rewrite append_nil_l.
      change (split_crlf (String c (String CR (String LF s))))
        with (if Ascii.eqb c CR && Ascii.eqb CR LF
              then EmptyString :: split_crlf (String LF s)
              else match split_crlf (String CR (String LF s)) with
                   | [] => [String c EmptyString]
                   | l :: ls => String c l :: ls
                   end).
      rewrite Hc. reflexivity.
    + specialize (IH Hl). rewrite append_cons in IH |- *.
      change (split_crlf (String c (String c' (l +:+ String CR (String LF s)))))
        with (if Ascii.eqb c CR && Ascii.eqb c' LF
              then EmptyString :: split_crlf (l +:+ String CR (String LF s))
              else match split_crlf (String c' (l +:+ String CR (String LF s))) with
                   | [] => [String c EmptyString]
                   | l0 :: ls => String c l0 :: ls
                   end).
      rewrite Hc, IH. reflexivity.
Qed.

Lemma split_crlf_join (lines : list string) :
  Forall (fun l => free_of CR l = true) lines ->
  lines <> [] ->
  split_crlf (join_crlf lines) = lines.
Proof.
  induction lines as [| l lines IH]; intros H Hne; [contradiction |].
  apply Forall_cons_iff in H as [Hl Hls].
  destruct lines as [| l' lines].
  - apply split_crlf_free, Hl.
  - unfold join_crlf in *. cbn [String.concat] in *.
    change (split_crlf
              (l +:+ String CR (String LF (String.concat (String CR (String LF ""))
                                             (l' :: lines))))
            = l :: l' :: lines).
    rewrite (split_crlf_app _ _ Hl). f_equal. apply IH; [exact Hls | discriminate].
Qed.

(** A line that does not begin with [key:] leaves the field [key] alone. *)
Lemma info_line_other (serverInfo : gmap string string) (key line : string) :
  ~ defines key line ->
  info_line serverInfo line !! key = serverInfo !! key.
Proof.
  intros Hn. unfold info_line.
  destruct (String.eqb line "" || starts_with "#" line); [reflexivity |].
  destruct (split_char ":" line) as [| k [| v r]] eqn:E; try reflexivity.
  destruct (String.eqb k "" || String.eqb k "__proto__"); [reflexivity |].
  apply lookup_insert_ne. intros <-.
  apply Hn. exact (split_char_head _ _ _ _ _ E).
Qed.

Lemma info_lines_other (lines : list string) (serverInfo : gmap string string)
  (key : string) :
  Forall (fun l => ~ defines key l) lines ->
  fold_left info_line lines serverInfo !! key = serverInfo !! key.
Proof.
  revert serverInfo. induction lines as [| l lines IH]; intros serverInfo H;
    [reflexivity |].
  apply Forall_cons_iff in H as [Hl Hls]. cbn [fold_left].
  rewrite (IH _ Hls). apply info_line_other, Hl.
Qed.

(** A line [key:value], possibly followed by a colon and more text, sets the
    field [key] to [value]. *)
Lemma info_line_defines (serverInfo : gmap string string)
  (key value rest : string) :
  key <> "" ->
  key <> "__proto__" ->
  starts_with "#" key = false ->
  free_of ":" key = true ->
  free_of ":" value = true ->
  rest = "" \/ starts_with ":" rest = true ->
  info_line serverInfo (key +:+ ":" +:+ value +:+ rest)
  = <[key := value]> serverInfo.
Proof.
  intros Hne Hp Hh Hk Hv Hrest. unfold info_line.
  apply String.eqb_neq in Hp.
  destruct key as [| c key]; [contradiction |].
  rewrite append_cons.
  change (String.eqb (String c (key +:+ ":" +:+ value +:+ rest)) "") with false.
  cbn [starts_with] in Hh |- *. rewrite Hh. cbn [orb].
  rewrite <- append_cons.
  change (":" +:+ value +:+ rest) with (String ":" (value +:+ rest)).
  rewrite (split_char_app _ _ _ Hk).
  assert (exists r, split_char ":" (value +:+ rest) = value :: r) as [r ->].
  { destruct Hrest as [-> | Hr].
    - exists []. replace (value +:+ "") with value; [apply split_char_free, Hv |].
      clear. induction value as [| a v IH]; [reflexivity |].
      rewrite append_cons, <- IH. reflexivity.
    - destruct rest as [| a rest]; [discriminate |].
      cbn [starts_with] in Hr. apply Ascii.eqb_eq in Hr as ->.
      eexists. apply split_char_app, Hv. }
  change (String.eqb (String c key) "") with false. rewrite Hp. reflexivity.
Qed.

(** X27.  In an INFO text whose lines are separated by CR LF, the value
    parsed for a field is the text between the first and the second colon of
    the last line that begins with the name of the field and a colon: an
    earlier line for the same field is overridden, and what follows a second
    colon is dropped.  (The name is not empty, not [__proto__], has no colon
    and does not begin with the comment mark.)  A field the reports read and
    that no line begins with is not parsed, and reads as [undefined]. *)
Theorem X27_info_field_of_last_line (pre post : list string)
  (key value rest : string) :
  let line := key +:+ ":" +:+ value +:+ rest in
  Forall (fun l => free_of CR l = true) (pre ++ line :: post) ->
  key <> "" ->
  key <> "__proto__" ->
  starts_with "#" key = false ->
  free_of ":" key = true ->
  free_of ":" value = true ->
  rest = "" \/ starts_with ":" rest = true ->
  Forall (fun l => ~ defines key l) post ->
  info_field (parse_info (join_crlf (pre ++ line :: post))) key = JStr value
  /\ forall other,
      In other report_fields ->
      Forall (fun l => ~ defines other l) (pre ++ line :: post) ->
      info_field (parse_info (join_crlf (pre ++ line :: post))) other = JUndefined.
Proof.
  intros line Hcr Hne Hp Hh Hk Hv Hrest Hpost.
  unfold parse_info, info_field.
  rewrite (split_crlf_join _ Hcr) by (destruct pre; discriminate).
  split.
  - rewrite fold_left_app. cbn [fold_left]. rewrite (info_lines_other _ _ _ Hpost).
    unfold line. rewrite (info_line_defines _ _ _ _ Hne Hp Hh Hk Hv Hrest).
    rewrite lookup_insert_eq. reflexivity.
  - intros other _ Hother. rewrite (info_lines_other _ _ _ Hother).
    rewrite lookup_empty. reflexivity.
Qed.

(** *** The statistics parsed from a keyspace line *)

Lemma is_digit_cases (c : ascii) :
  is_digit c = true ->
  In c ["0"; "1"; "2"; "3"; "4"; "5"; "6"; "7"; "8"; "9"]%char.
Proof.
  destruct c as [[] [] [] [] [] [] [] []]; intros H; try discriminate H;
    cbn [In]; tauto.
Qed.

Lemma all_digits_of_uint (u : Decimal.uint) :
  all_digits (NilEmpty.string_of_uint u) = true.
Proof. induction u; cbn [NilEmpty.string_of_uint all_digits]; auto. Qed.

Lemma all_digits_free (c : ascii) (s : string) :
  is_digit c = false -> all_digits s = true -> free_of c s = true.
Proof.
  intros Hc. induction s as [| a s IH]; [reflexivity |].
  cbn [all_digits free_of]. intros H. apply andb_true_iff in H as [Ha Hs].
  rewrite (IH Hs), andb_true_r. apply negb_true_iff.
  destruct (Ascii.eqb_spec a c) as [-> |]; [congruence | reflexivity].
Qed.

Lemma digits_prefix_all (s : string) : all_digits s = true -> digits_prefix s = s.
Proof.
  induction s as [| a s IH]; [reflexivity |].
  cbn [all_digits digits_prefix]. intros H. apply andb_true_iff in H as [Ha Hs].
  rewrite Ha, (IH Hs). reflexivity.
Qed.

Lemma decimal_cons (n : N) :
  exists c tl, decimal n = String c tl /\ is_digit c = true /\ all_digits tl = true.
Proof.
  pose proof (all_digits_of_uint (N.to_uint n)) as H. unfold decimal.
  destruct (NilEmpty.string_of_uint (N.to_uint n)) as [| c tl] eqn:E.
  - exfalso. destruct n as [| p]; [discriminate E |].
    cbn [N.to_uint] in E.
    destruct (Pos.to_uint p) eqn:Ep; try discriminate E.
    exact (DecimalPos.Unsigned.to_uint_nonnil p Ep).
  - cbn [all_digits] in H. apply andb_true_iff in H as [Hc Ht].
    exists c, tl. repeat split; assumption.
Qed.

Lemma trim_start_digit (c : ascii) (tl : string) :
  is_digit c = true -> Js.trim_start (String c tl) = String c tl.
Proof.
  intros H. apply is_digit_cases in H. cbn [In] in H.
  destruct H as [<- | [<- | [<- | [<- | [<- | [<- | [<- | [<- | [<- | [<- | []]]]]]]]]]];
    destruct tl as [| b [| c' tl']]; reflexivity.
Qed.

Lemma parseInt_decimal (n : N) : parseInt (decimal n) = Some (Z.of_N n).
Proof.
  destruct (decimal_cons n) as (c & tl & E & Hc & Ht).
  assert (decimal_value (decimal n) = Some (Z.of_N n)) as Hv.
  { unfold decimal_value. rewrite digits_prefix_all
      by (rewrite E; cbn [all_digits]; rewrite Hc, Ht; reflexivity).
    rewrite E. cbv beta iota. rewrite <- E. unfold decimal.
    rewrite NilEmpty.usu. cbn [option_map].
    rewrite DecimalN.Unsigned.of_to. reflexivity. }
  unfold parseInt. rewrite E in Hv |- *.
  rewrite (trim_start_digit c tl Hc).
  apply is_digit_cases in Hc. cbn [In] in Hc.
  destruct Hc as [<- | [<- | [<- | [<- | [<- | [<- | [<- | [<- | [<- | [<- | []]]]]]]]]]];
    cbv beta iota zeta; try (rewrite Hv; reflexivity).
  destruct tl as [| c' tl'].
  - rewrite Hv. reflexivity.
  - cbn [all_digits] in Ht. apply andb_true_iff in Ht as [Hc' _].
    apply is_digit_cases in Hc'. cbn [In] in Hc'.
    destruct Hc' as [<- | [<- | [<- | [<- | [<- | [<- | [<- | [<- | [<- | [<- | []]]]]]]]]]];
      cbv beta iota; rewrite Hv; reflexivity.
Qed.

Lemma split_char_join (sep : ascii) (pieces : list string) :
  Forall (fun s => free_of sep s = true) pieces ->
  pieces <> [] ->
  split_char sep (String.concat (String sep EmptyString) pieces) = pieces.
Proof.
  induction pieces as [| s pieces IH]; intros H Hne; [contradiction |].
  apply Forall_cons_iff in H as [Hs Hp].
  destruct pieces as [| s' pieces].
  - apply split_char_free, Hs.
  - cbn [String.concat] in *.
    change (split_char sep
              (s +:+ String sep (String.concat (String sep "") (s' :: pieces)))
            = s :: s' :: pieces).
    rewrite (split_char_app _ _ _ Hs). f_equal. apply IH; [exact Hp | discriminate].
Qed.

Lemma assign_new (k : string) (v : json) (o : list (string * json)) :
  array_index k = None ->
  ~ In k (map fst o) ->
  assign k v o = o ++ [(k, v)].
Proof.
  intros Hi. induction o as [| [k' v'] o IH]; intros Hn; [reflexivity |].
  cbn [assign app]. cbn [map fst In] in Hn.
  destruct (String.eqb_spec k k') as [-> | Hne]; [tauto |].
  unfold precedes. rewrite Hi. rewrite IH by tauto. reflexivity.
Qed.

Lemma stat_pair_new (dbStats : list (string * json)) (p : string * N) :
  stat_name (fst p) ->
  ~ In (fst p) (map fst dbStats) ->
  stat_pair dbStats (stat_text p) = dbStats ++ [stat_json p].
Proof.
  destruct p as [k n]. cbn [fst]. intros (Hne & Hp & Hi & _ & Heq) Hn.
  unfold stat_pair, stat_text, stat_json. cbn [fst snd].
  change ("=" +:+ decimal n) with (String "="%char (decimal n)).
  rewrite (split_char_app _ _ _ Heq).
  rewrite split_char_free
    by (apply all_digits_free; [reflexivity | apply all_digits_of_uint]).
  apply String.eqb_neq in Hne, Hp. rewrite Hne, Hp. cbn [orb].
  rewrite parseInt_decimal, (assign_new _ _ _ Hi Hn).
  destruct n as [| q]; [reflexivity |].
  change (Z.of_N (N.pos q) =? 0) with false. reflexivity.
Qed.

Lemma stat_pairs_new (stats : list (string * N)) (dbStats : list (string * json)) :
  Forall (fun p => stat_name (fst p)) stats ->
  List.NoDup (map fst dbStats ++ map fst stats) ->
  fold_left stat_pair (map stat_text stats) dbStats
  = dbStats ++ map stat_json stats.
Proof.
  revert dbStats. induction stats as [| p stats IH]; intros dbStats Hn Hd.
  - cbn. symmetry. apply app_nil_r.
  - apply Forall_cons_iff in Hn as [Hp Hn]. cbn [map fold_left].
    rewrite stat_pair_new; [| exact Hp |].
    + rewrite IH; [rewrite <- app_assoc; reflexivity | exact Hn |].
      rewrite map_app. cbn [map]. rewrite <- app_assoc.
      destruct p as [k n]. exact Hd.
    + cbn [map] in Hd. apply NoDup_remove_2 in Hd.
      intros Hin. apply Hd. apply in_or_app. left. exact Hin.
Qed.

(** X28.  The statistics of a keyspace line, [name=count] separated by
    commas, are reported by [getDatabaseStats] under their names and in their
    order, a positive count as a number and a count of zero as the text [0],
    not the number: [parseInt(value) || value] falls back to the text when
    the number is 0.  (Names are distinct, not empty, not [__proto__], not
    array indices, without comma or equals sign; counts are below 2^53.) *)
Theorem X28_keyspace_statistics (stats : list (string * N)) :
  Forall (fun p => stat_name (fst p) /\ (snd p < 2 ^ 53)%N) stats ->
  List.NoDup (map fst stats) ->
  parse_stats (String.concat "," (map stat_text stats)) = map stat_json stats.
Proof.
  intros Hs Hd. unfold parse_stats.
  destruct stats as [| p stats]; [reflexivity |].
  rewrite split_char_join.
  - apply (stat_pairs_new (p :: stats) []); [| exact Hd].
    eapply Forall_impl; [exact Hs |]. intros q [H _]. exact H.
  - apply Forall_map. eapply Forall_impl; [exact Hs |].
    intros [k n] [(_ & _ & _ & Hc & _) _]. unfold stat_text.
    cbn [fst snd compose] in *.
    change (k +:+ "=" +:+ decimal n) with (k +:+ String "="%char (decimal n)).
    clear - Hc. induction k as [| a k IH].
    + rewrite append_nil_l. cbn [free_of].
      change (negb (Ascii.eqb "=" ",")) with true. cbn [andb].
      apply all_digits_free; [reflexivity | apply all_digits_of_uint].
    + apply free_of_cons in Hc as [Ha Hk]. rewrite append_cons.
      cbn [free_of]. rewrite Ha, (IH Hk). reflexivity.
  - discriminate.
Qed.

(** *** A store that does not answer *)

(** X29.  When the store does not answer and the manager holds no client it
    believes connected, [get_data] of a non-empty key does not return: it
    waits for a connection that is never made.  No failure is reported,
    nothing is logged for the operation, and the store's contents are left
    alone; the manager holds a client that is not marked connected. *)
Theorem X29_get_with_store_down (params : json) (k : string) (w : world) :
  Js.key_param (Js.prop params "key") = Some k ->
  reachable w = false ->
  client w && isConnected w = false ->
  exists w',
    get_data params w = (Pending, w')
    /\ db w' = db w
    /\ operationLogs w' = operationLogs w
    /\ logFile w' = logFile w
    /\ client w' = true
    /\ isConnected w' = false.
Proof.
  intros Hk Hr Hc. unfold get_data. rewrite Hk.
  unfold logged, getData, try_catch, bind, logRedisOperation, modify, throw.
  cbn [Js.prop Js.assoc String.eqb Ascii.eqb Bool.eqb].
  rewrite Hk.
  unfold getClient, createClient, try_catch, bind, throw.
  destruct (client w) eqn:Hc', (isConnected w) eqn:Hi; try discriminate Hc;
    cbn [negb orb andb]; rewrite ?Hc', ?Hi, ?Hr; cbn [negb orb andb];
    eexists; (split; [reflexivity |]); cbn; repeat split.
Qed.

(** *** The diagnostic tools *)

Lemma preserves_redisInfo (info : string) :
  preserves_db (redisInfo_getRedisInfo info)
  /\ preserves_db (redisInfo_getDatabaseStats info)
  /\ preserves_db (redisInfo_getMemoryInfo info).
Proof.
  unfold redisInfo_getRedisInfo, redisInfo_getDatabaseStats,
    redisInfo_getMemoryInfo, client_info, client_dbSize, getConnectionInfo.
  split; [| split]; preserve.
Qed.

Lemma respects_redisInfo (info : string) :
  respects (redisInfo_getRedisInfo info)
  /\ respects (redisInfo_getDatabaseStats info)
  /\ respects (redisInfo_getMemoryInfo info).
Proof.
  unfold redisInfo_getRedisInfo, redisInfo_getDatabaseStats,
    redisInfo_getMemoryInfo, client_info, client_dbSize, getConnectionInfo, query.
  split; [| split]; respect.
Qed.

Lemma preserves_diagnostic_tool (self : json -> M json) (w0 : world)
  (tool : string) (f : json -> M json) (args : json) :
  preserves_db getRedisInfo ->
  preserves_db getDatabaseStats ->
  preserves_db getMemoryInfo ->
  In tool diagnostic_tools ->
  this_member self w0 tool = Some f ->
  preserves_db (f args).
Proof.
  intros H1 H2 H3. unfold diagnostic_tools. cbn [In].
  intros [<- | [<- | [<- | []]]] [= <-].
  - unfold get_redis_info. preserve. exact H1.
  - unfold get_database_stats. preserve. exact H2.
  - unfold get_memory_info. preserve. exact H3.
Qed.

Lemma diagnostic_tool_leaves_store (fuel : nat) (id args : json) (w : world)
  (tool : string) :
  preserves_db getRedisInfo ->
  preserves_db getDatabaseStats ->
  preserves_db getMemoryInfo ->
  In tool diagnostic_tools ->
  db (snd (handleRequest fuel (tools_call_request id tool args) w)) = db w.
Proof.
  intros H1 H2 H3 Hin.
  assert (exists f, this_member (self_of fuel) w tool = Some f) as [f Hf].
  { unfold diagnostic_tools in Hin. cbn [In] in Hin.
    destruct Hin as [<- | [<- | [<- | []]]]; eexists; reflexivity. }
  assert (tool <> "") as Hne.
  { intros ->. unfold diagnostic_tools in Hin. cbn [In] in Hin.
    repeat destruct Hin as [Hin | Hin]; try discriminate; contradiction. }
  rewrite (handle_tools_call fuel id tool args w f Hne Hf).
  pose proof (preserves_diagnostic_tool _ _ _ _ (Js.or args (JObj []))
                H1 H2 H3 Hin Hf) as Hp.
  destruct (f (Js.or args (JObj [])) w) as [[result | e | c | |] w1] eqn:E;
    cbn [snd]; exact (Hp _ _ _ E).
Qed.

End Server.

(** X30.  With the reports of [RedisInfo] as modelled, a [tools/call] of
    [get_redis_info], [get_database_stats] or [get_memory_info] leaves the
    contents of the store as they were, keeps the audit ring within its bound
    and the lines of the log file, and writes nothing to standard output,
    whatever text the store answers [INFO] with, whatever the arguments and
    the state of the connection. *)
Theorem X30_diagnostic_tools_only_read (RT : runtime) (P : permissions)
  (CFG : redisConfig) (info keyspace memory : string) (fuel : nat)
  (id args : json) (w : world) :
  Forall
    (fun tool =>
       let w' :=
         snd (handleRequest RT P CFG (redisInfo_getRedisInfo P CFG info)
                (redisInfo_getDatabaseStats keyspace)
                (redisInfo_getMemoryInfo memory) fuel
                (tools_call_request id tool args) w) in
       db w' = db w /\ audit_step w w')
    diagnostic_tools.
Proof.
  apply List.Forall_forall. intros tool Hin. split.
  - apply diagnostic_tool_leaves_store; [| | | exact Hin].
    + apply (preserves_redisInfo P CFG info).
    + apply (preserves_redisInfo P CFG keyspace).
    + apply (preserves_redisInfo P CFG memory).
  - apply respects_handleRequest.
    + apply (respects_redisInfo P CFG info).
    + apply (respects_redisInfo P CFG keyspace).
    + apply (respects_redisInfo P CFG memory).
Qed.

(** ** The model on concrete requests *)

(** The sample server with every permission, and with none. *)
Abbreviation permissive :=
  (handleRequest Sample.rt Sample.all_allowed Sample.cfg Sample.no_info
     Sample.no_info Sample.no_info).

Abbreviation restricted :=
  (handleRequest Sample.rt Sample.read_only Sample.cfg Sample.no_info
     Sample.no_info Sample.no_info).

(** C2, the claim as stated fails: with insert disallowed, a [tools/call] of
    [set_data] without a key, or with a key and no value, is refused by the
    argument validation of the server method, with its message; the permission
    message appears only once the arguments are valid. *)
Lemma C2_validation_precedes_permission :
  ALLOW_INSERT Sample.read_only = false
  /\ fst (restricted 0 (tools_call_request (JNum 1) "set_data" (JObj []))
            (Sample.fresh ∅ true))
     = Ok (error_response (JNum 1) (-32603) "Missing or invalid key parameter")
  /\ fst (restricted 0
            (tools_call_request (JNum 1) "set_data" (JObj [("key", JStr "k")]))
            (Sample.fresh ∅ true))
     = Ok (error_response (JNum 1) (-32603) "Missing value parameter")
  /\ fst (restricted 0
            (tools_call_request (JNum 1) "set_data"
               (JObj [("key", JStr "k"); ("value", JStr "v")]))
            (Sample.fresh ∅ true))
     = Ok (error_response (JNum 1) (-32603)
             "Failed to set data: Insert operations are not allowed").
Proof. repeat split; vm_compute; reflexivity. Qed.


(** C5, the claim as stated fails: the failure message of an unknown method
    named [Server not initialized] contains [Unknown method], and the code is
    -32002, not -32601. *)
Lemma C5_unknown_method_with_other_marker :
  fst (permissive 0 Sample.odd_method (Sample.fresh ∅ true))
  = Ok (error_response (JNum 1) (-32002) "Unknown method: Server not initialized")
  /\ Js.includes "Unknown method" "Unknown method: Server not initialized" = true.
Proof. split; vm_compute; reflexivity. Qed.

(** C6, the code at the failing input.  Writing the empty array as a list under
    [k], none of the three operations stores a placeholder.  [update_data] on
    a key that holds a list answers with success and leaves no key at all: the
    key is deleted and nothing is pushed.  [set_data] on the same store
    deletes the key and then fails, the client having no member [lpush];
    [create_key] on an empty store fails on the same call and creates no
    key. *)
Theorem C6_empty_list_never_stored :
  fst (permissive 0
         (tools_call_request (JNum 1) "update_data" Sample.empty_list_args)
         (Sample.fresh Sample.one_list true))
  = Ok (response (JNum 1)
          (content Sample.rt
             (JObj [("key", JStr "k"); ("value", JArr []); ("type", JStr "list");
                    ("ttl", JNull); ("result", JUndefined)])))
  /\ db (snd (permissive 0
                (tools_call_request (JNum 1) "update_data" Sample.empty_list_args)
                (Sample.fresh Sample.one_list true))) !! "k"
     = None
  /\ fst (permissive 0
            (tools_call_request (JNum 1) "set_data" Sample.empty_list_args)
            (Sample.fresh Sample.one_list true))
     = Ok (error_response (JNum 1) (-32603)
             "Failed to set data: Failed to set data: client.lpush is not a function")
  /\ db (snd (permissive 0
                (tools_call_request (JNum 1) "set_data" Sample.empty_list_args)
                (Sample.fresh Sample.one_list true))) !! "k"
     = None
  /\ fst (permissive 0
            (tools_call_request (JNum 1) "create_key" Sample.empty_list_args)
            (Sample.fresh ∅ true))
     = Ok (error_response (JNum 1) (-32603)
             "Failed to create key: Failed to create key: client.lpush is not a function")
  /\ db (snd (permissive 0
                (tools_call_request (JNum 1) "create_key" Sample.empty_list_args)
                (Sample.fresh ∅ true))) !! "k"
     = None.
Proof. repeat split; vm_compute; reflexivity. Qed.

(** C8, the claim as stated fails: a line of one space is not valid JSON, and
    the handler skips it without writing anything; the batch of an empty
    object, that line and an empty array yields the two responses of the
    other lines only. *)
Lemma C8_blank_line_is_skipped :
  JSON_parse Sample.rt " " = inl "Unexpected end of JSON input"
  /\ Js.split_lines (Js.trim Sample.batch_with_blank) = ["{}"; " "; "[]"]
  /\ stdout (snd (on_data Sample.rt Sample.all_allowed Sample.cfg Sample.no_info
                    Sample.no_info Sample.no_info 0 Sample.batch_with_blank
                    (Sample.fresh ∅ true)))
     = [Sample.bad_version JUndefined; Sample.bad_version JUndefined].
Proof. repeat split; vm_compute; reflexivity. Qed.

(** ** The theorems at concrete inputs *)

(** C2 at [set_data] with valid arguments and insert disallowed. *)
Lemma C2_witness :
  allowed Sample.read_only SetData = false
  /\ exists w',
      restricted 0
        (tools_call_request (JNum 1) "set_data"
           (JObj [("key", JStr "k"); ("value", JStr "v")]))
        (Sample.fresh ∅ true)
      = (Ok (error_response (JNum 1) (-32603)
               "Failed to set data: Insert operations are not allowed"), w')
      /\ same_store (Sample.fresh ∅ true) w'.
Proof.
  split; [reflexivity |].
  exact (proj2 (C2_denied_without_store_access Sample.rt Sample.read_only
                  Sample.cfg Sample.no_info Sample.no_info Sample.no_info
                  SetData 0 (JNum 1)
                  (JObj [("key", JStr "k"); ("value", JStr "v")])
                  (Sample.fresh ∅ true) eq_refl)).
Defined.


(** C5 at a request for an unknown method. *)
Lemma C5_witness :
  Js.nullish Sample.odd_method = false
  /\ exists w2,
      permissive 0 Sample.odd_method (Sample.fresh ∅ true)
      = (Ok (error_response (JNum 1)
               (errorCode "Unknown method: Server not initialized")
               "Unknown method: Server not initialized"), w2).
Proof.
  split; [reflexivity |].
  refine (proj1 (C5_error_code_by_first_marker Sample.rt Sample.all_allowed
                   Sample.cfg Sample.no_info Sample.no_info Sample.no_info
                   0 Sample.odd_method (Sample.fresh ∅ true) eq_refl)
            "Unknown method: Server not initialized" _ _).
  vm_compute. reflexivity.
Defined.

(** C7 at the creation of the string key [k]. *)
Lemma C7_witness :
  let request :=
    tools_call_request (JNum 1) "create_key"
      (JObj [("key", JStr "k"); ("value", JStr "v")]) in
  let first := permissive 0 request (Sample.fresh ∅ true) in
  fst first
  = Ok (response (JNum 1)
          (content Sample.rt
             (JObj [("key", JStr "k"); ("value", JStr "v"); ("type", JStr "string");
                    ("ttl", JNull); ("created", JBool true);
                    ("result", JStr "OK")])))
  /\ exists (k : string) (w2 : world),
      Js.key_param (JStr "k") = Some k
      /\ permissive 0 request (snd first)
         = (Ok (error_response (JNum 1)
                  (errorCode ("Failed to create key: Failed to create key: "
                              +:+ already_exists k))
                  ("Failed to create key: Failed to create key: "
                   +:+ already_exists k)), w2)
      /\ contains "already exists"
           ("Failed to create key: Failed to create key: " +:+ already_exists k)
      /\ db w2 = db (snd first).
Proof.
  split; [vm_compute; reflexivity |].
  refine (C7_second_create_conflicts Sample.rt Sample.all_allowed Sample.cfg
            Sample.no_info Sample.no_info Sample.no_info 0 (JNum 1)
            (JObj [("key", JStr "k"); ("value", JStr "v")])
            (response (JNum 1)
               (content Sample.rt
                  (JObj [("key", JStr "k"); ("value", JStr "v");
                         ("type", JStr "string"); ("ttl", JNull);
                         ("created", JBool true); ("result", JStr "OK")])))
            (Sample.fresh ∅ true) _ _ _).
  - vm_compute. reflexivity.
  - reflexivity.
Defined.

(** C8 at a batch whose second line is malformed. *)
Lemma C8_witness :
  Js.split_lines (Js.trim Sample.batch_with_malformed)
  = ["{}"] ++ "{oops" :: [Sample.ping_line]
  /\ Js.trim "{oops" <> ""
  /\ JSON_parse Sample.rt "{oops" = inl "Unexpected token in JSON"
  /\ stdout (snd (on_data Sample.rt Sample.all_allowed Sample.cfg Sample.no_info
                    Sample.no_info Sample.no_info 0 Sample.batch_with_malformed
                    (Sample.fresh ∅ true)))
     = [Sample.bad_version JUndefined;
        error_response JNull (-32603) "Internal error: Unexpected token in JSON";
        response (JNum 1) (JObj [("pong", JBool true)])].
Proof.
  assert (Js.split_lines (Js.trim Sample.batch_with_malformed)
          = ["{}"] ++ "{oops" :: [Sample.ping_line]) as Hs
      by (vm_compute; reflexivity).
  assert (Js.trim "{oops" <> "") as Hb by (vm_compute; discriminate).
  assert (JSON_parse Sample.rt "{oops" = inl "Unexpected token in JSON") as Hp
      by reflexivity.
  split; [exact Hs | split; [exact Hb | split; [exact Hp |]]].
  rewrite (proj2 (C8_malformed_line_is_answered_once Sample.rt Sample.all_allowed
                    Sample.cfg Sample.no_info Sample.no_info Sample.no_info 0
                    Sample.batch_with_malformed ["{}"] [Sample.ping_line] "{oops"
                    "Unexpected token in JSON" (Sample.fresh ∅ true) Hs Hb Hp)).
  vm_compute. reflexivity.
Defined.

(** C9 at the absent key [k], with a requested type among the arguments. *)
Lemma C9_witness :
  reachable (Sample.fresh ∅ true) = true
  /\ db (Sample.fresh ∅ true) !! "k" = None
  /\ exists w',
      permissive 0
        (tools_call_request (JNum 1) "get_data"
           (JObj [("key", JStr "k"); ("type", JStr "hash")]))
        (Sample.fresh ∅ true)
      = (Ok (response (JNum 1) (content Sample.rt (absent_report "k"))), w')
      /\ db w' = db (Sample.fresh ∅ true).
Proof.
  split; [reflexivity | split; [reflexivity |]].
  exact (proj1 (C9_get_absent_key Sample.rt Sample.all_allowed Sample.cfg
                  Sample.no_info Sample.no_info Sample.no_info 0 (JNum 1)
                  (JObj [("key", JStr "k"); ("type", JStr "hash")]) "k"
                  (Sample.fresh ∅ true) eq_refl eq_refl eq_refl)).
Defined.

(** C10 at the absent key [k]. *)
Lemma C10_witness :
  reachable (Sample.fresh ∅ true) = true
  /\ db (Sample.fresh ∅ true) !! "k" = None
  /\ exists w',
      permissive 0
        (tools_call_request (JNum 1) "exists_key" (JObj [("key", JStr "k")]))
        (Sample.fresh ∅ true)
      = (Ok (response (JNum 1) (content Sample.rt (absent_exists_report "k"))), w')
      /\ db w' = db (Sample.fresh ∅ true).
Proof.
  split; [reflexivity | split; [reflexivity |]].
  exact (proj1 (C10_exists_key_reports_expired Sample.rt Sample.all_allowed
                  Sample.cfg Sample.no_info Sample.no_info Sample.no_info 0
                  (JNum 1) (JObj [("key", JStr "k")]) "k"
                  (Sample.fresh ∅ true) eq_refl eq_refl eq_refl)).
Defined.

(** ** The further properties on concrete inputs *)

(** X2 at the key [k] holding a string that expires, and holding the list
    [a]. *)
Lemma X2_witness :
  (exists w',
      getData Sample.rt Sample.key_k (Sample.fresh Sample.one_string true)
      = (Ok (JObj [("key", JStr "k"); ("value", JStr "old");
                   ("exists", JBool true); ("type", JStr "string");
                   ("ttl", JNum 60)]), w')
      /\ db w' = Sample.one_string)
  /\ exists w',
      getData Sample.rt Sample.key_k (Sample.fresh Sample.one_list true)
      = (Throw "Failed to get data: client.llen is not a function", w')
      /\ db w' = Sample.one_list.
Proof.
  split.
  - exact (X2_get_present_key Sample.rt Sample.key_k "k"
             {| val := RString "old"; expiry := Some 60 |}
             (Sample.fresh Sample.one_string true) eq_refl eq_refl eq_refl).
  - exact (X2_get_present_key Sample.rt Sample.key_k "k"
             {| val := RList ["a"]; expiry := None |}
             (Sample.fresh Sample.one_list true) eq_refl eq_refl eq_refl).
Defined.

(** X3 at the string [v] written under [k] for a minute. *)
Lemma X3_witness :
  exists w1 w2,
    setData Sample.rt Sample.all_allowed
      (JObj [("key", JStr "k"); ("value", JStr "v"); ("ttl", JNum 60)])
      (Sample.fresh Sample.one_list true)
    = (Ok (JObj [("key", JStr "k"); ("value", JStr "v"); ("type", JStr "string");
                 ("ttl", JNum 60); ("result", JStr "OK")]), w1)
    /\ db w1 = <["k" := {| val := RString "v"; expiry := Some 60 |}]> Sample.one_list
    /\ getData Sample.rt Sample.key_k w1
       = (Ok (JObj [("key", JStr "k"); ("value", JStr "v"); ("exists", JBool true);
                    ("type", JStr "string"); ("ttl", JNum 60)]), w2)
    /\ db w2 = db w1.
Proof.
  exact (X3_set_then_get_string Sample.rt Sample.all_allowed
           (JObj [("key", JStr "k"); ("value", JStr "v"); ("ttl", JNum 60)])
           "k" "v" (Some 60) (Sample.fresh Sample.one_list true)
           eq_refl eq_refl eq_refl eq_refl eq_refl eq_refl eq_refl).
Defined.

(** X4 at the array [a, b] written as a list under [k], which holds the list
    [a]. *)
Lemma X4_witness :
  exists w',
    setData Sample.rt Sample.all_allowed
      (JObj [("key", JStr "k"); ("value", JArr [JStr "a"; JStr "b"]);
             ("type", JStr "list")])
      (Sample.fresh Sample.one_list true)
    = (Throw "Failed to set data: client.lpush is not a function", w')
    /\ db w' = delete "k" Sample.one_list
    /\ db w' !! "k" = None.
Proof.
  exact (X4_set_list_array_deletes_and_fails Sample.rt Sample.all_allowed
           (JObj [("key", JStr "k"); ("value", JArr [JStr "a"; JStr "b"]);
                  ("type", JStr "list")])
           "k" [JStr "a"; JStr "b"] (Sample.fresh Sample.one_list true)
           eq_refl eq_refl eq_refl eq_refl eq_refl).
Defined.

(** X5 at the array [a, b] written as a set under [k], which holds a list. *)
Lemma X5_witness :
  exists w',
    setData Sample.rt Sample.all_allowed
      (JObj [("key", JStr "k"); ("value", JArr [JStr "a"; JStr "b"]);
             ("type", JStr "set")])
      (Sample.fresh Sample.one_list true)
    = (Throw "Failed to set data: client.sadd is not a function", w')
    /\ db w' = delete "k" Sample.one_list
    /\ db w' !! "k" = None.
Proof.
  exact (X5_set_set_array_deletes_and_fails Sample.rt Sample.all_allowed
           (JObj [("key", JStr "k"); ("value", JArr [JStr "a"; JStr "b"]);
                  ("type", JStr "set")])
           "k" (JStr "a") [JStr "b"] (Sample.fresh Sample.one_list true)
           eq_refl eq_refl eq_refl eq_refl eq_refl).
Defined.

(** X6 at the object with the field [f] written as a hash under [k], which
    holds a hash. *)
Lemma X6_witness :
  exists w',
    setData Sample.rt Sample.all_allowed
      (JObj [("key", JStr "k"); ("value", JObj [("f", JStr "2")]);
             ("type", JStr "hash")])
      (Sample.fresh Sample.one_hash true)
    = (Throw "Failed to set data: client.hset is not a function", w')
    /\ db w' = delete "k" Sample.one_hash
    /\ db w' !! "k" = None.
Proof.
  exact (X6_set_hash_object_deletes_and_fails Sample.rt Sample.all_allowed
           (JObj [("key", JStr "k"); ("value", JObj [("f", JStr "2")]);
                  ("type", JStr "hash")])
           "k" ("f", JStr "2") [] (Sample.fresh Sample.one_hash true)
           eq_refl eq_refl eq_refl eq_refl eq_refl).
Defined.

(** X7 at the key [k] holding a list: deleted, and dropped. *)
Lemma X7_witness :
  (exists w',
      deleteData Sample.all_allowed Sample.key_k (Sample.fresh Sample.one_list true)
      = (Ok (JObj [("key", JStr "k"); ("deleted", JBool true); ("result", JNum 1)]),
         w')
      /\ db w' !! "k" = None)
  /\ exists w',
      dropKey Sample.all_allowed Sample.key_k (Sample.fresh Sample.one_list true)
      = (Ok (JObj [("key", JStr "k"); ("dropped", JBool true); ("result", JNum 1)]),
         w')
      /\ db w' !! "k" = None.
Proof.
  destruct (X7_delete_and_drop Sample.all_allowed Sample.key_k "k"
              (Sample.fresh Sample.one_list true) eq_refl eq_refl) as [Hd Hp].
  destruct (Hd eq_refl) as (w1 & H1 & K1 & _).
  destruct (Hp eq_refl) as (w2 & H2 & K2 & _).
  split; [exists w1 | exists w2]; split; assumption.
Defined.

(** X8 at the absent key [k]. *)
Lemma X8_witness :
  exists w',
    updateData Sample.rt Sample.all_allowed
      (JObj [("key", JStr "k"); ("value", JStr "v")]) (Sample.fresh ∅ true)
    = (Throw "Failed to update data: Key 'k' does not exist", w')
    /\ db w' = ∅.
Proof.
  exact (X8_update_absent_key Sample.rt Sample.all_allowed
           (JObj [("key", JStr "k"); ("value", JStr "v")]) "k"
           (Sample.fresh ∅ true) eq_refl eq_refl eq_refl eq_refl eq_refl).
Defined.

(** X9 at the key [k] holding a hash, updated with a string. *)
Lemma X9_witness :
  exists w',
    updateData Sample.rt Sample.all_allowed
      (JObj [("key", JStr "k"); ("value", JStr "v")])
      (Sample.fresh Sample.one_hash true)
    = (Throw "Failed to update data: Hash value must be an object", w')
    /\ db w' = delete "k" Sample.one_hash
    /\ db w' !! "k" = None.
Proof.
  exact (X9_update_hash_with_scalar_deletes Sample.rt Sample.all_allowed
           (JObj [("key", JStr "k"); ("value", JStr "v")]) "k"
           {| val := RHash [("f", "1")]; expiry := None |} [("f", "1")]
           (Sample.fresh Sample.one_hash true)
           eq_refl eq_refl eq_refl eq_refl eq_refl eq_refl eq_refl).
Defined.

(** X10 at the absent key [k]: with nothing but the key, and as an empty
    hash. *)
Lemma X10_witness :
  (exists w',
      createKey Sample.rt Sample.all_allowed Sample.key_k (Sample.fresh ∅ true)
      = (Ok (JObj [("key", JStr "k"); ("value", JStr ""); ("type", JStr "string");
                   ("ttl", JNull); ("created", JBool true);
                   ("result", JStr "OK")]), w')
      /\ db w' = <["k" := {| val := RString ""; expiry := None |}]> ∅)
  /\ exists w',
      createKey Sample.rt Sample.all_allowed
        (JObj [("key", JStr "k"); ("type", JStr "hash"); ("value", JObj [])])
        (Sample.fresh ∅ true)
      = (Throw "Failed to create key: client.hset is not a function", w')
      /\ db w' = ∅.
Proof.
  split.
  - exact (proj1 (X10_create_defaults Sample.rt Sample.all_allowed Sample.key_k
                    "k" (Sample.fresh ∅ true)
                    eq_refl eq_refl eq_refl eq_refl eq_refl) eq_refl eq_refl).
  - exact (proj2 (X10_create_defaults Sample.rt Sample.all_allowed
                    (JObj [("key", JStr "k"); ("type", JStr "hash");
                           ("value", JObj [])])
                    "k" (Sample.fresh ∅ true)
                    eq_refl eq_refl eq_refl eq_refl eq_refl) "hset"
             (or_intror (or_intror (conj eq_refl (conj eq_refl eq_refl))))).
Defined.

(** X11 at the key [k] holding a list, renamed to the free key [n]. *)
Lemma X11_witness :
  exists w',
    renameKey Sample.all_allowed
      (JObj [("oldKey", JStr "k"); ("newKey", JStr "n")])
      (Sample.fresh Sample.one_list true)
    = (Ok (JObj [("oldKey", JStr "k"); ("newKey", JStr "n");
                 ("renamed", JBool true)]), w')
    /\ db w'
       = <["n" := {| val := RList ["a"]; expiry := None |}]>
           (delete "k" Sample.one_list).
Proof.
  exact (X11_rename_key Sample.all_allowed
           (JObj [("oldKey", JStr "k"); ("newKey", JStr "n")]) "k" "n"
           (Sample.fresh Sample.one_list true)
           eq_refl eq_refl eq_refl eq_refl eq_refl).
Defined.

(** X12 at the key [k] holding a list: a time-to-live of 0, and of 60 with a
    client that answers with a number and with one that answers with a
    boolean. *)
Lemma X12_witness :
  setTTL Sample.rt (JObj [("key", JStr "k"); ("ttl", JNum 0)])
    (Sample.fresh Sample.one_list true)
  = (Throw "TTL must be a positive number", Sample.fresh Sample.one_list true)
  /\ (exists w',
        setTTL Sample.rt (JObj [("key", JStr "k"); ("ttl", JNum 60)])
          (Sample.fresh Sample.one_list true)
        = (Ok (JObj [("key", JStr "k"); ("ttl", JNum 60); ("set", JBool true)]),
           w')
        /\ db w'
           = <["k" := {| val := RList ["a"]; expiry := Some 60 |}]> Sample.one_list)
  /\ exists w',
      setTTL Sample.rt_boolean_replies
        (JObj [("key", JStr "k"); ("ttl", JNum 60)])
        (Sample.fresh Sample.one_list true)
      = (Ok (JObj [("key", JStr "k"); ("ttl", JNum 60); ("set", JBool false)]), w')
      /\ db w'
         = <["k" := {| val := RList ["a"]; expiry := Some 60 |}]> Sample.one_list.
Proof.
  split; [| split].
  - apply (proj1 (X12_set_ttl Sample.rt (JObj [("key", JStr "k"); ("ttl", JNum 0)])
                    "k" 0 (Sample.fresh Sample.one_list true) eq_refl eq_refl)).
    lia.
  - apply (proj2 (X12_set_ttl Sample.rt (JObj [("key", JStr "k"); ("ttl", JNum 60)])
                    "k" 60 (Sample.fresh Sample.one_list true) eq_refl eq_refl)).
    + lia.
    + reflexivity.
  - apply (proj2 (X12_set_ttl Sample.rt_boolean_replies
                    (JObj [("key", JStr "k"); ("ttl", JNum 60)])
                    "k" 60 (Sample.fresh Sample.one_list true) eq_refl eq_refl)).
    + lia.
    + reflexivity.
Defined.

(** X13 at the key [k] holding a string that expires, with a client that
    answers with a number and with one that answers with a boolean. *)
Lemma X13_witness :
  (exists w',
      removeTTL Sample.rt Sample.key_k (Sample.fresh Sample.one_string true)
      = (Ok (JObj [("key", JStr "k"); ("ttlRemoved", JBool true)]), w')
      /\ db w'
         = <["k" := {| val := RString "old"; expiry := None |}]> Sample.one_string)
  /\ exists w',
      removeTTL Sample.rt_boolean_replies Sample.key_k
        (Sample.fresh Sample.one_string true)
      = (Ok (JObj [("key", JStr "k"); ("ttlRemoved", JBool false)]), w')
      /\ db w'
         = <["k" := {| val := RString "old"; expiry := None |}]> Sample.one_string.
Proof.
  split.
  - exact (X13_remove_ttl Sample.rt Sample.key_k "k"
             (Sample.fresh Sample.one_string true) eq_refl eq_refl).
  - exact (X13_remove_ttl Sample.rt_boolean_replies Sample.key_k "k"
             (Sample.fresh Sample.one_string true) eq_refl eq_refl).
Defined.

(** X14 at the key [k] holding a string, and at the absent key [k]. *)
Lemma X14_witness :
  (exists w',
      getKeyInfo Sample.rt Sample.key_k (Sample.fresh Sample.one_string true)
      = (Throw "Failed to get key info: client.strlen is not a function", w')
      /\ db w' = Sample.one_string)
  /\ exists w',
      getKeyInfo Sample.rt Sample.key_k (Sample.fresh ∅ true)
      = (Ok (JObj [("key", JStr "k"); ("exists", JBool false); ("type", JNull);
                   ("ttl", JNull); ("size", JNull)]), w')
      /\ db w' = ∅.
Proof.
  split.
  - exact (X14_get_key_info Sample.rt Sample.key_k "k"
             (Sample.fresh Sample.one_string true) eq_refl eq_refl).
  - exact (X14_get_key_info Sample.rt Sample.key_k "k" (Sample.fresh ∅ true)
             eq_refl eq_refl).
Defined.

(** X15 at a pattern that is a number, a limit of 0, and an offset of -1. *)
Lemma X15_witness :
  listKeys Sample.rt (JObj [("pattern", JNum 1)]) (Sample.fresh ∅ true)
  = (Throw "Pattern must be a string", Sample.fresh ∅ true)
  /\ listKeys Sample.rt (JObj [("limit", JNum 0)]) (Sample.fresh ∅ true)
     = (Throw "Limit must be between 1 and 10000", Sample.fresh ∅ true)
  /\ listKeys Sample.rt (JObj [("offset", JNum (-1))]) (Sample.fresh ∅ true)
     = (Throw "Offset must be >= 0", Sample.fresh ∅ true).
Proof.
  split; [| split].
  - exact (proj1 (X15_list_keys_validation Sample.rt (JObj [("pattern", JNum 1)])
                    (Sample.fresh ∅ true)) eq_refl).
  - apply (proj1 (proj2 (X15_list_keys_validation Sample.rt
                           (JObj [("limit", JNum 0)]) (Sample.fresh ∅ true))));
      [reflexivity |].
    intros n [= <-]. left. lia.
  - apply (proj2 (proj2 (X15_list_keys_validation Sample.rt
                           (JObj [("offset", JNum (-1))]) (Sample.fresh ∅ true))));
      [reflexivity | exists 100; split; [reflexivity | lia] |].
    intros n [= <-]. lia.
Defined.

(** X16 at the store holding the key [k], listed with the defaults. *)
Lemma X16_witness :
  (exists w',
      listKeys Sample.rt (JObj []) (Sample.fresh Sample.one_list true)
      = (Ok (JObj [("keys",
                    JArr [JObj [("key", JStr "k"); ("type", JStr "list");
                                ("ttl", JStr "persistent")]]);
                   ("total", JNum 1); ("limit", JNum 100); ("offset", JNum 0);
                   ("hasMore", JBool false); ("pattern", JStr "*")]), w')
      /\ db w' = Sample.one_list)
  /\ forall key,
      In key (Js.slice (Redis.keys Sample.glob "*" Sample.one_list) 0 100) ->
      is_Some (Sample.one_list !! key) /\ Sample.glob "*" key = true.
Proof.
  pose proof (X16_list_keys_page Sample.rt (JObj []) "*" 100 0
                (Sample.fresh Sample.one_list true)
                eq_refl eq_refl eq_refl ltac:(lia) ltac:(lia) eq_refl)
    as (H & _ & K).
  split; [exact H | exact K].
Defined.

(** X17 at the key [k] holding a string that expires, updated without a
    time-to-live. *)
Lemma X17_witness :
  exists w',
    updateData Sample.rt Sample.all_allowed
      (JObj [("key", JStr "k"); ("value", JStr "new")])
      (Sample.fresh Sample.one_string true)
    = (Ok (JObj [("key", JStr "k"); ("value", JStr "new"); ("type", JStr "string");
                 ("ttl", JNull); ("result", JStr "OK")]), w')
    /\ db w' = <["k" := {| val := RString "new"; expiry := None |}]> Sample.one_string.
Proof.
  exact (X17_update_string_replaces_ttl Sample.rt Sample.all_allowed
           (JObj [("key", JStr "k"); ("value", JStr "new")]) "k" "new" "old" None
           {| val := RString "old"; expiry := Some 60 |}
           (Sample.fresh Sample.one_string true)
           eq_refl eq_refl eq_refl eq_refl I eq_refl eq_refl eq_refl).
Defined.

(** X18 at the key [k] holding a sorted set. *)
Lemma X18_witness :
  exists w',
    updateData Sample.rt Sample.all_allowed
      (JObj [("key", JStr "k"); ("value", JStr "v")])
      (Sample.fresh Sample.one_zset true)
    = (Throw "Failed to update data: Cannot update unsupported data type: zset",
       w')
    /\ db w' = Sample.one_zset.
Proof.
  exact (X18_update_sorted_set_refused Sample.rt Sample.all_allowed
           (JObj [("key", JStr "k"); ("value", JStr "v")]) "k"
           {| val := RZSet [("m", "1")]; expiry := None |} [("m", "1")]
           (Sample.fresh Sample.one_zset true)
           eq_refl eq_refl eq_refl eq_refl eq_refl eq_refl).
Defined.

(** X19 at a call of [get_memory_info], with the reports of [RedisInfo] as
    modelled and a store that answers [INFO] with one line. *)
Lemma X19_witness :
  audit_step (Sample.fresh ∅ true)
    (snd (handleRequest Sample.rt Sample.all_allowed Sample.cfg
            (redisInfo_getRedisInfo Sample.all_allowed Sample.cfg "")
            (redisInfo_getDatabaseStats "")
            (redisInfo_getMemoryInfo "used_memory:1024") 0
            (tools_call_request (JNum 1) "get_memory_info" (JObj []))
            (Sample.fresh ∅ true))).
Proof.
  exact (X19_request_keeps_audit_trail Sample.rt Sample.all_allowed Sample.cfg
           (redisInfo_getRedisInfo Sample.all_allowed Sample.cfg "")
           (redisInfo_getDatabaseStats "")
           (redisInfo_getMemoryInfo "used_memory:1024") 0
           (tools_call_request (JNum 1) "get_memory_info" (JObj []))
           (Sample.fresh ∅ true)
           (proj1 (respects_redisInfo Sample.all_allowed Sample.cfg ""))
           (proj1 (proj2 (respects_redisInfo Sample.all_allowed Sample.cfg "")))
           (proj2 (proj2 (respects_redisInfo Sample.all_allowed Sample.cfg
                            "used_memory:1024")))).
Defined.

(** X21 at a notification with the protocol tag [1.0]. *)
Lemma X21_witness :
  exists w',
    permissive 0 Sample.bad_envelope_notification (Sample.fresh ∅ true)
    = (Ok (error_response JUndefined (-32600) "Unsupported JSON-RPC version"), w')
    /\ same_store (Sample.fresh ∅ true) w'
    /\ initialized w' = false
    /\ stdout w' = [].
Proof.
  exact (X21_unsupported_protocol_tag Sample.rt Sample.all_allowed Sample.cfg
           Sample.no_info Sample.no_info Sample.no_info 0
           Sample.bad_envelope_notification (Sample.fresh ∅ true)
           eq_refl eq_refl).
Defined.

(** X22 at the line [null]. *)
Lemma X22_witness :
  exists w',
    handle_line Sample.rt Sample.all_allowed Sample.cfg Sample.no_info
      Sample.no_info Sample.no_info 0 "null" (Sample.fresh ∅ true)
    = (Ok tt, w')
    /\ stdout w'
       = [error_response JNull (-32603)
            "Internal error: Cannot read properties of null (reading 'id')"]
    /\ db w' = ∅.
Proof.
  refine (proj2 (X22_null_request_line Sample.rt Sample.all_allowed Sample.cfg
                   Sample.no_info Sample.no_info Sample.no_info 0 "null"
                   (Sample.fresh ∅ true) _ eq_refl)).
  discriminate.
Defined.

(** X24 at the string [b] written as a list, and as a set, under [k], which
    holds the list [a]. *)
Lemma X24_witness :
  (exists w',
      setData Sample.rt Sample.all_allowed
        (JObj [("key", JStr "k"); ("value", JStr "b"); ("type", JStr "list")])
        (Sample.fresh Sample.one_list true)
      = (Throw "Failed to set data: client.lpush is not a function", w')
      /\ db w' = Sample.one_list)
  /\ exists w',
      setData Sample.rt Sample.all_allowed
        (JObj [("key", JStr "k"); ("value", JStr "b"); ("type", JStr "set")])
        (Sample.fresh Sample.one_list true)
      = (Throw "Failed to set data: client.sadd is not a function", w')
      /\ db w' = Sample.one_list.
Proof.
  split.
  - exact (X24_set_scalar_into_collection_fails Sample.rt Sample.all_allowed
             (JObj [("key", JStr "k"); ("value", JStr "b"); ("type", JStr "list")])
             "k" "b" "lpush" (Sample.fresh Sample.one_list true)
             eq_refl eq_refl eq_refl (or_introl (conj eq_refl eq_refl)) eq_refl).
  - exact (X24_set_scalar_into_collection_fails Sample.rt Sample.all_allowed
             (JObj [("key", JStr "k"); ("value", JStr "b"); ("type", JStr "set")])
             "k" "b" "sadd" (Sample.fresh Sample.one_list true)
             eq_refl eq_refl eq_refl (or_intror (conj eq_refl eq_refl)) eq_refl).
Defined.

(** X25 at the key [k] holding a list, written as the empty set. *)
Lemma X25_witness :
  exists w',
    setData Sample.rt Sample.all_allowed
      (JObj [("key", JStr "k"); ("value", JArr []); ("type", JStr "set")])
      (Sample.fresh Sample.one_list true)
    = (Ok (JObj [("key", JStr "k"); ("value", JArr []); ("type", JStr "set");
                 ("ttl", JNull); ("result", JUndefined)]), w')
    /\ db w' = delete "k" Sample.one_list
    /\ db w' !! "k" = None.
Proof.
  exact (X25_set_empty_collection_deletes Sample.rt Sample.all_allowed
           (JObj [("key", JStr "k"); ("value", JArr []); ("type", JStr "set")])
           "k" None (Sample.fresh Sample.one_list true)
           eq_refl eq_refl (or_introl (conj eq_refl eq_refl)) eq_refl I eq_refl).
Defined.

(** X26 at a server that has not connected yet, in front of a store that
    answers and of one that does not. *)
Lemma X26_witness :
  (exists w',
      test_connection Sample.rt Sample.cfg (JObj []) (Sample.fresh ∅ true)
      = (Ok (JObj [("connected", JBool true);
                   ("connection",
                    JObj [("host", JStr "localhost"); ("port", JNum 6379);
                          ("hasPassword", JBool false);
                          ("isConnected", JBool true)])]), w')
      /\ db w' = ∅
      /\ isConnected w' = true
      /\ logFile w' = ["REDIS: TEST_CONNECTION | KEY: connection | SUCCESS"])
  /\ exists w',
      test_connection Sample.rt Sample.cfg (JObj []) (Sample.fresh ∅ false)
      = (Pending, w')
      /\ db w' = ∅
      /\ operationLogs w' = []
      /\ logFile w' = [].
Proof.
  split.
  - exact (proj1 (X26_test_connection_reports Sample.rt Sample.cfg (JObj [])
                    (Sample.fresh ∅ true)) eq_refl).
  - exact (proj2 (X26_test_connection_reports Sample.rt Sample.cfg (JObj [])
                    (Sample.fresh ∅ false)) eq_refl eq_refl).
Defined.

(** X27 at a text with a comment, two lines for [redis_version], the later
    one with a second colon, and a closing empty line. *)
Lemma X27_witness :
  info_field
    (parse_info
       (join_crlf ["# Server"; "redis_version:6.0.0"; "redis_version:7.2.4:beta";
                   "os:Linux"; ""]))
    "redis_version"
  = JStr "7.2.4"
  /\ info_field
       (parse_info
          (join_crlf ["# Server"; "redis_version:6.0.0";
                      "redis_version:7.2.4:beta"; "os:Linux"; ""]))
       "redis_mode"
     = JUndefined.
Proof.
  assert (forall key line, String.prefix (key +:+ ":") line = false ->
                           ~ defines key line) as Hnot.
  { intros key line H [post E].
    assert (String.prefix (key +:+ ":") line = true) as F
        by (apply prefix_spec; exists post; rewrite E;
            symmetry; apply append_assoc).
    congruence. }
  destruct (X27_info_field_of_last_line
              ["# Server"; "redis_version:6.0.0"] ["os:Linux"; ""]
              "redis_version" "7.2.4" ":beta") as [H1 H2].
  - repeat constructor.
  - discriminate.
  - discriminate.
  - reflexivity.
  - reflexivity.
  - reflexivity.
  - right. reflexivity.
  - repeat constructor; apply Hnot; reflexivity.
  - split; [exact H1 |]. apply H2.
    + cbn. tauto.
    + repeat constructor; apply Hnot; reflexivity.
Defined.

(** X28 at the statistics of a database with five keys, none of which
    expires. *)
Lemma X28_witness :
  parse_stats "keys=5,expires=0,avg_ttl=0"
  = [("keys", JNum 5); ("expires", JStr "0"); ("avg_ttl", JStr "0")].
Proof.
  refine (X28_keyspace_statistics
            [("keys", 5%N); ("expires", 0%N); ("avg_ttl", 0%N)] _ _).
  - repeat constructor; try discriminate.
  - repeat constructor; cbn; intuition discriminate.
Defined.

(** X29 at a server that has not connected yet. *)
Lemma X29_witness :
  exists w',
    get_data Sample.rt Sample.key_k (Sample.fresh Sample.one_list false)
    = (Pending, w')
    /\ db w' = Sample.one_list
    /\ operationLogs w' = []
    /\ logFile w' = []
    /\ client w' = true
    /\ isConnected w' = false.
Proof.
  exact (X29_get_with_store_down Sample.rt Sample.key_k "k"
           (Sample.fresh Sample.one_list false) eq_refl eq_refl eq_refl).
Defined.
